(** * Code Languages Manager: ordering and usage-frequency engine

    A shallow embedding of the plugin class [CodeLanguagesPlugin] and the
    properties of its ordering, canonicalisation, statistics and
    settings-buffer code.  The source tree holds two revisions of the
    class; the embedding follows the later one, which caches the parsed
    lists, has the search branch in [languageUpdate] and prunes the
    statistics at the end of [languageChange].

    The file is organised as follows.
    - [JS]: the built-ins of the host language that the plugin calls --
      strings as sequences of UTF-16 code units, [trim], [split], [slice],
      the stable [Array.prototype.sort], ordinary objects with their key
      order and their reads through [Object.prototype], the date part of
      [Date.prototype.toISOString].
    - The plugin: one definition per method of the class, over an explicit
      instance state; the clock readings of [new Date()] are arguments,
      and a method that can raise returns a [completion].
    - The vocabulary of the statements, and sample instances.
    - Facts: about the built-ins ([JSFacts], [DateFacts]), the pruning
      loops ([PruneFacts]), the ordering ([OrderingFacts]), the
      canonicaliser ([CanonFacts], [TrimFacts], [TokenFacts]), the
      statistics and settings ([StatisticsFacts]), runs of events
      ([RunFacts], [RestartFacts], [WindowFacts]), rearranged and
      duplicate-free lists ([ArrangementFacts], [DistinctFacts]) and
      repeated pruning ([AbsorptionFacts]).
    - The properties of the engine, one theorem per claim, and further
      properties of the code. *)

From Stdlib Require Import ZArith NArith List Bool Lia Permutation Sorted.
From Stdlib Require Import String Ascii.
Import ListNotations.
Local Open Scope Z_scope.

(* ================================================================== *)
(** ** Host built-ins *)
(* ================================================================== *)

Module JS.

(** A JavaScript string is a finite sequence of UTF-16 code units. *)
Definition jsstring : Type := list N.

(** Literals: an ASCII string read as its code units. *)
Definition js (s : string) : jsstring :=
  map N_of_ascii (list_ascii_of_string s).
Arguments js s%_string.

(** Strict equality [===] on strings. *)
Fixpoint eqb (a b : jsstring) : bool :=
  match a, b with
  | [], [] => true
  | x :: a', y :: b' => N.eqb x y && eqb a' b'
  | _, _ => false
  end.

(** [a < b] on strings: lexicographic on code units. *)
Fixpoint ltb (a b : jsstring) : bool :=
  match a, b with
  | _, [] => false
  | [], _ :: _ => true
  | x :: a', y :: b' =>
      if N.ltb x y then true
      else if N.ltb y x then false
      else ltb a' b'
  end.

(** [a <= b], as the negation of [b < a]. *)
Definition leb (a b : jsstring) : bool := negb (ltb b a).

(** [s.length]. *)
Definition length (s : jsstring) : Z := Z.of_nat (List.length s).

(** White space and line terminators, the code units [trim] strips. *)
Definition isWhiteSpace (c : N) : bool :=
  match c with
  | 9 | 10 | 11 | 12 | 13 | 32 | 160 | 5760
  | 8192 | 8193 | 8194 | 8195 | 8196 | 8197 | 8198 | 8199 | 8200 | 8201
  | 8202 | 8232 | 8233 | 8239 | 8287 | 12288 | 65279 => true
  | _ => false
  end%N.

Fixpoint trimStart (s : jsstring) : jsstring :=
  match s with
  | [] => []
  | c :: s' => if isWhiteSpace c then trimStart s' else s
  end.

Definition trimEnd (s : jsstring) : jsstring := rev (trimStart (rev s)).

(** [s.trim()]. *)
Definition trim (s : jsstring) : jsstring := trimEnd (trimStart s).

(** [s.split(sep)] for a separator of one code unit. *)
Fixpoint split (sep : N) (s : jsstring) : list jsstring :=
  match s with
  | [] => [[]]
  | c :: s' =>
      if N.eqb c sep then [] :: split sep s'
      else match split sep s' with
           | seg :: segs => (c :: seg) :: segs
           | [] => [[c]]
           end
  end.

(** [a.slice(0, e)] for an integer [e]: a negative [e] counts from the
    end of the array. *)
Definition slice0 {A : Type} (e : Z) (a : list A) : list A :=
  if e <? 0
  then firstn (Z.to_nat (Z.max (Z.of_nat (List.length a) + e) 0)) a
  else firstn (Z.to_nat e) a.

(** [s.startsWith(p)] and [s.includes(p)]. *)
Fixpoint startsWith (s p : jsstring) : bool :=
  match p, s with
  | [], _ => true
  | _ :: _, [] => false
  | y :: p', x :: s' => N.eqb x y && startsWith s' p'
  end.

Fixpoint includes (s p : jsstring) : bool :=
  startsWith s p ||
  match s with
  | [] => false
  | _ :: s' => includes s' p
  end.

(** [s.replace(/[...]/g, by)] for a pattern that matches one code unit
    at a time: every matching code unit is replaced. *)
Definition replaceEach (matches : N -> bool) (by_ : jsstring) (s : jsstring) : jsstring :=
  flat_map (fun c => if matches c then by_ else [c]) s.

(** [a.join(sep)] on an array of strings. *)
Fixpoint join (sep : jsstring) (a : list jsstring) : jsstring :=
  match a with
  | [] => []
  | [x] => x
  | x :: a' => x ++ sep ++ join sep a'
  end.

(** [a.includes(x)] on an array of strings. *)
Definition Array_includes (a : list jsstring) (x : jsstring) : bool :=
  existsb (eqb x) a.

(** [a.sort(comparefn)].  The sort is stable; for a consistent comparator
    the stable sorted arrangement is unique, and it is the one insertion
    from the right computes. *)
Fixpoint insert {A : Type} (cmp : A -> A -> Z) (x : A) (l : list A) : list A :=
  match l with
  | [] => [x]
  | y :: l' => if cmp x y <=? 0 then x :: l else y :: insert cmp x l'
  end.

Definition sortWith {A : Type} (cmp : A -> A -> Z) (l : list A) : list A :=
  fold_right (insert cmp) [] l.

(** What a comparator says of two elements it leaves in this order. *)
Definition cmpLe {A : Type} (cmp : A -> A -> Z) (x y : A) : Prop := cmp x y <= 0.

(** Two elements the comparator does not separate. *)
Definition tied {A : Type} (cmp : A -> A -> Z) (x y : A) : bool :=
  (cmp x y <=? 0) && (cmp y x <=? 0).

(** [a.sort()] on strings: the default comparator orders by code units. *)
Definition defaultCompare (x y : jsstring) : Z :=
  if ltb x y then -1 else if ltb y x then 1 else 0.

Definition sort (l : list jsstring) : list jsstring := sortWith defaultCompare l.

(** *** Ordinary objects used as string-keyed maps

    An object is the list of its own properties in creation order; its
    prototype is [Object.prototype], whose properties are not enumerable:
    [Object.keys] and [for (k in o)] see the own properties only, while
    a property read [o[k]] that finds no own property goes on to the
    prototype. *)
Definition object (V : Type) : Type := list (jsstring * V).

(** The own property [k] of [o], [None] when there is none: [o[k]] for a
    key that [Object.keys] or [for (k in o)] gave, or that names no
    property of [Object.prototype]. *)
Fixpoint get {V : Type} (k : jsstring) (o : object V) : option V :=
  match o with
  | [] => None
  | (k', v) :: o' => if eqb k k' then Some v else get k o'
  end.

(** The property names of [Object.prototype]. *)
Definition objectPrototypeNames : list jsstring :=
  [js "constructor"%string; js "__defineGetter__"%string; js "__defineSetter__"%string;
   js "hasOwnProperty"%string; js "__lookupGetter__"%string; js "__lookupSetter__"%string;
   js "isPrototypeOf"%string; js "propertyIsEnumerable"%string; js "toString"%string;
   js "valueOf"%string; js "__proto__"%string; js "toLocaleString"%string].

Definition inheritedName (k : jsstring) : bool := existsb (eqb k) objectPrototypeNames.

(** What a property read [o[k]] finds: an own property; or a property of
    [Object.prototype] -- a function, or the prototype itself for
    [__proto__], in either case a truthy value that is no record of the
    object and has none of its fields; or [undefined]. *)
Inductive reading (V : Type) : Type :=
| Own (v : V)
| Inherited
| Undefined.
Arguments Own {V} v.
Arguments Inherited {V}.
Arguments Undefined {V}.

Definition read {V : Type} (k : jsstring) (o : object V) : reading V :=
  match get k o with
  | Some v => Own v
  | None => if inheritedName k then Inherited else Undefined
  end.

(** [o[k] = v]: an existing property keeps its place, a new one is
    created last. *)
Fixpoint set {V : Type} (k : jsstring) (v : V) (o : object V) : object V :=
  match o with
  | [] => [(k, v)]
  | (k', v') :: o' => if eqb k k' then (k', v) :: o' else (k', v') :: set k v o'
  end.

(** [delete o[k]]. *)
Definition delete {V : Type} (k : jsstring) (o : object V) : object V :=
  filter (fun e => negb (eqb k (fst e))) o.

(** An array index is a canonical numeric string below 2^32 - 1. *)
Definition digit (c : N) : option N :=
  if (N.leb 48 c && N.leb c 57)%bool then Some (c - 48)%N else None.

Fixpoint decimal (acc : N) (s : jsstring) : option N :=
  match s with
  | [] => Some acc
  | c :: s' =>
      match digit c with
      | Some d => decimal (10 * acc + d)%N s'
      | None => None
      end
  end.

Definition arrayIndex (k : jsstring) : option N :=
  match k with
  | [] => None
  | [48%N] => Some 0%N
  | 48%N :: _ => None
  | _ =>
      match decimal 0 k with
      | Some n => if N.leb n 4294967294 then Some n else None
      | None => None
      end
  end.

Definition isArrayIndex (k : jsstring) : bool :=
  match arrayIndex k with Some _ => true | None => false end.

Definition indexCompare (a b : jsstring) : Z :=
  match arrayIndex a, arrayIndex b with
  | Some m, Some n => Z.of_N m - Z.of_N n
  | _, _ => 0
  end.

(** [Object.keys(o)], also the order of [for (k in o)]: array indices in
    ascending numeric order, then the other keys in creation order. *)
Definition keys {V : Type} (o : object V) : list jsstring :=
  sortWith indexCompare (filter isArrayIndex (map fst o))
  ++ filter (fun k => negb (isArrayIndex k)) (map fst o).

(** [for (const k in o) body]: the keys are those present when the loop
    starts; the bodies below delete at most the property being visited. *)
Definition forIn {V S : Type} (o : object V) (body : S -> jsstring -> S) (init : S) : S :=
  fold_left body (keys o) init.

(** *** Dates

    A time value is a number of milliseconds since the epoch, valid when
    its magnitude is at most 8.64e15. *)
Definition msPerDay : Z := 24 * 60 * 60 * 1000.

Definition validTime (t : Z) : bool :=
  (-8640000000000000 <=? t) && (t <=? 8640000000000000).

(** A day number (days since the epoch, UTC) in the proleptic Gregorian
    calendar: its era (400 years from a 1 March), its day of the era, the
    year of the era, the day of the year (from 1 March) and the month
    index (March is 0). *)
Definition eraOf (day : Z) : Z := (day + 719468) / 146097.
Definition dayOfEra (day : Z) : Z := day + 719468 - eraOf day * 146097.
Definition yearOfEra (doe : Z) : Z :=
  (doe - doe / 1460 + doe / 36524 - doe / 146096) / 365.
Definition dayOfYear (doe : Z) : Z :=
  doe - (365 * yearOfEra doe + yearOfEra doe / 4 - yearOfEra doe / 100).
Definition monthIndex (doy : Z) : Z := (5 * doy + 2) / 153.

(** Year, month and day of month of a day number. *)
Definition civilFromDays (day : Z) : Z * Z * Z :=
  let doe := dayOfEra day in
  let doy := dayOfYear doe in
  let mp := monthIndex doy in
  let d := doy - (153 * mp + 2) / 5 + 1 in
  let m := if mp <? 10 then mp + 3 else mp - 9 in
  let y := yearOfEra doe + eraOf day * 400 + (if m <=? 2 then 1 else 0) in
  (y, m, d).

(** Decimal digits of a non-negative number, zero-padded to [width]. *)
Fixpoint padDigits (width : nat) (n : Z) : jsstring :=
  match width with
  | O => []
  | S w => padDigits w (n / 10) ++ [Z.to_N (48 + n mod 10)]
  end.

Definition isoYear (y : Z) : jsstring :=
  if (0 <=? y) && (y <=? 9999) then padDigits 4 y
  else if y <? 0 then 45%N :: padDigits 6 (- y)
  else 43%N :: padDigits 6 y.

(** The date part [YYYY-MM-DD] of the ISO format for a day number. *)
Definition isoDate (day : Z) : jsstring :=
  let '(y, m, d) := civilFromDays day in
  isoYear y ++ [45%N] ++ padDigits 2 m ++ [45%N] ++ padDigits 2 d.

(** [new Date(t).toISOString().split('T')[0]]; [None] is the [RangeError]
    raised for an invalid time value. *)
Definition toISODateString (t : Z) : option jsstring :=
  if validTime t then Some (isoDate (t / msPerDay)) else None.

End JS.

Abbreviation jsstring := JS.jsstring.
Abbreviation js s := (JS.js s%string).

(** [s.toLowerCase()] follows the Unicode case mappings of the host; the
    plugin is verified for any such function. *)
Class CaseMapping : Type := toLowerCase : jsstring -> jsstring.

(** A case mapping that agrees with the host's on ASCII text. *)
Definition asciiLowerCase : CaseMapping :=
  map (fun c => if (N.leb 65 c && N.leb c 90)%bool then (c + 32)%N else c).

(* ================================================================== *)
(** ** The plugin *)
(* ================================================================== *)

(** *** Data structures

    The numbers of the plugin (the two numeric settings, the counts) are
    JavaScript numbers that hold integers; they are integers here. *)

Inductive SortMode : Type := custom | frequency.

Record Config : Type := mkConfig {
  sortMode : SortMode;
  customOrder : jsstring;
  frequencyTopCount : Z;
  frequencyDaysRange : Z;
  otherCustomLanguages : jsstring;
  excludedLanguages : jsstring
}.

Record LanguageStats : Type := mkLanguageStats {
  totalCount : Z;
  dates : JS.object Z
}.

Record Statistics : Type := mkStatistics {
  frequencyOrder : list jsstring;
  languages : JS.object LanguageStats
}.

(** The fields of the plugin instance, and the two documents last handed
    to [saveData]. *)
Record Plugin : Type := mkPlugin {
  config : Config;
  tempConfig : Config;
  statistics : Statistics;
  cachedCustomOrderLanguages : list jsstring;
  cachedOtherCustomLanguages : list jsstring;
  cachedExcludedLanguages : list jsstring;
  savedConfig : option Config;
  savedStatistics : option Statistics
}.

(** How a method that can raise ends: normally, or with the [RangeError]
    of [toISOString]; the instance is left as it was at that point. *)
Inductive completion : Type :=
| Returned (p : Plugin)
| Thrown (p : Plugin).

Definition withConfig (c : Config) (p : Plugin) : Plugin :=
  mkPlugin c (tempConfig p) (statistics p) (cachedCustomOrderLanguages p)
    (cachedOtherCustomLanguages p) (cachedExcludedLanguages p)
    (savedConfig p) (savedStatistics p).

Definition withTempConfig (c : Config) (p : Plugin) : Plugin :=
  mkPlugin (config p) c (statistics p) (cachedCustomOrderLanguages p)
    (cachedOtherCustomLanguages p) (cachedExcludedLanguages p)
    (savedConfig p) (savedStatistics p).

Definition withStatistics (s : Statistics) (p : Plugin) : Plugin :=
  mkPlugin (config p) (tempConfig p) s (cachedCustomOrderLanguages p)
    (cachedOtherCustomLanguages p) (cachedExcludedLanguages p)
    (savedConfig p) (savedStatistics p).

Definition withLanguages (ls : JS.object LanguageStats) (p : Plugin) : Plugin :=
  withStatistics (mkStatistics (frequencyOrder (statistics p)) ls) p.

(** [this.saveData(CONFIG_NAME, this.config)] and
    [this.saveData(STATISTICS_NAME, this.statistics)]. *)
Definition saveConfig (p : Plugin) : Plugin :=
  mkPlugin (config p) (tempConfig p) (statistics p) (cachedCustomOrderLanguages p)
    (cachedOtherCustomLanguages p) (cachedExcludedLanguages p)
    (Some (config p)) (savedStatistics p).

Definition saveStatistics (p : Plugin) : Plugin :=
  mkPlugin (config p) (tempConfig p) (statistics p) (cachedCustomOrderLanguages p)
    (cachedOtherCustomLanguages p) (cachedExcludedLanguages p)
    (savedConfig p) (Some (statistics p)).

(** *** Canonicalisation of the configured lists *)

Definition escapeHtml (html : jsstring) : jsstring :=
  match html with
  | [] => html
  | _ =>
      JS.replaceEach (N.eqb 60) (js "&lt;")
        (JS.replaceEach (N.eqb 38) (js "&amp;") html)
  end.

(** The pattern of [parseLanguagesInput]: a backtick or a space. *)
Definition backtickOrSpace (c : N) : bool := N.eqb c 96 || N.eqb c 32.

(** [None] is an input that is [undefined], [null] or not a string. *)
Definition parseLanguagesInput (input : option jsstring) : list jsstring :=
  match input with
  | None => []
  | Some [] => []
  | Some input =>
      let parts := JS.slice0 300 (JS.split 44 input) in
      filter (fun lang => JS.length lang >? 0)
        (map (fun part =>
                let trimmed := JS.trim part in
                let trimmed := JS.replaceEach backtickOrSpace (js "_") trimmed in
                let trimmed := escapeHtml trimmed in
                trimmed)
             parts)
  end.

Definition parseAndCacheLanguages (p : Plugin) : Plugin :=
  mkPlugin (config p) (tempConfig p) (statistics p)
    (parseLanguagesInput (Some (customOrder (config p))))
    (parseLanguagesInput (Some (otherCustomLanguages (config p))))
    (parseLanguagesInput (Some (excludedLanguages (config p))))
    (savedConfig p) (savedStatistics p).

(** *** Usage statistics *)

(** [now] is the time value [new Date()] reads. *)
Definition getCurrentDateString (now : Z) : option jsstring :=
  JS.toISODateString now.

(** The value of a numeric property that is present ([0] stands in for a
    property that is not, which the loops below never read). *)
Definition numberOf (v : option Z) : Z :=
  match v with Some n => n | None => 0 end.

Definition totalCountOf (ls : JS.object LanguageStats) (language : jsstring) : Z :=
  match JS.get language ls with
  | Some languageStats => totalCount languageStats
  | None => 0
  end.

Definition updateFrequencyOrder (p : Plugin) : Plugin :=
  let ls := languages (statistics p) in
  let sortedLanguages :=
    JS.sortWith (fun a b => totalCountOf ls b - totalCountOf ls a) (JS.keys ls) in
  withStatistics (mkStatistics sortedLanguages ls) p.

(** [getBuiltinLanguages]: [hljs] is what [window.hljs?.listLanguages()]
    gives and [alias] the constant [Constants.ALIAS_CODE_LANGUAGES], [None]
    when the host does not provide them. *)
Definition getBuiltinLanguages (hljs alias : option (list jsstring)) : list jsstring :=
  let hljsLanguages := match hljs with Some l => l | None => [] end in
  let siyuanAliasLanguages := match alias with Some l => l | None => [] end in
  JS.sort (siyuanAliasLanguages ++ hljsLanguages).

(** The inner loop of [cleanupExpiredStatistics] over the days of one
    language: the pruned [dates] and the [totalCount] it accumulates. *)
Definition pruneDates (cutoffDateString : jsstring) (ds : JS.object Z)
  : JS.object Z * Z :=
  JS.forIn ds
    (fun '(ds', totalCount) date =>
       if JS.ltb date cutoffDateString
       then (JS.delete date ds', totalCount)
       else (ds', totalCount + numberOf (JS.get date ds')))
    (ds, 0).

(** The outer loop: every language gets its pruned days and recomputed
    total, and the languages left with a total of zero are collected. *)
Definition pruneLanguages (cutoffDateString : jsstring) (ls : JS.object LanguageStats)
  : JS.object LanguageStats * list jsstring :=
  JS.forIn ls
    (fun '(ls', languagesToRemove) language =>
       match JS.get language ls' with
       | None => (ls', languagesToRemove)
       | Some languageStats =>
           let '(ds, totalCount) := pruneDates cutoffDateString (dates languageStats) in
           let ls'' := JS.set language (mkLanguageStats totalCount ds) ls' in
           if totalCount =? 0
           then (ls'', languagesToRemove ++ [language])
           else (ls'', languagesToRemove)
       end)
    (ls, []).

Definition cleanupExpiredStatistics (now : Z) (p : Plugin) : completion :=
  let cutoffTime := now - frequencyDaysRange (config p) * 24 * 60 * 60 * 1000 in
  match JS.toISODateString cutoffTime with
  | None => Thrown p
  | Some cutoffDateString =>
      let '(ls, languagesToRemove) :=
        pruneLanguages cutoffDateString (languages (statistics p)) in
      let ls := fold_left (fun o language => JS.delete language o) languagesToRemove ls in
      Returned (updateFrequencyOrder (withLanguages ls p))
  end.

(** *** Ordering of the candidate list *)

Section Ordering.
Context {CM : CaseMapping}.

(** The comparator of the search branch. *)
Definition matchCompare (lowerCaseValue a b : jsstring) : Z :=
  let aStartsWith := JS.startsWith (toLowerCase a) lowerCaseValue in
  let bStartsWith := JS.startsWith (toLowerCase b) lowerCaseValue in
  if aStartsWith && bStartsWith then JS.length a - JS.length b
  else if aStartsWith then -1
  else if bStartsWith then 1
  else 0.

(** [languageUpdate]: [languages] and [value] are the fields of
    [event.detail]; the result is what the handler stores back into
    [event.detail.languages].  A [value] that is absent or empty is
    falsy. *)
Definition languageUpdate (p : Plugin) (languages : list jsstring)
    (value : option jsstring) : list jsstring :=
  let customOrderLanguages := cachedCustomOrderLanguages p in
  let otherCustomLanguages := cachedOtherCustomLanguages p in
  let excludedLanguages := cachedExcludedLanguages p in
  let includes := JS.Array_includes in
  match value with
  | Some ((_ :: _) as value) =>
      let lowerCaseValue := toLowerCase value in
      let matchLanguages :=
        match sortMode (config p) with
        | custom =>
            customOrderLanguages
            ++ filter (fun lang => negb (includes customOrderLanguages lang))
                 otherCustomLanguages
            ++ filter (fun lang => negb (includes customOrderLanguages lang)
                                   && negb (includes otherCustomLanguages lang)
                                   && negb (includes excludedLanguages lang))
                 languages
        | frequency =>
            otherCustomLanguages
            ++ filter (fun lang => negb (includes otherCustomLanguages lang)
                                   && negb (includes excludedLanguages lang))
                 languages
        end in
      JS.sortWith (matchCompare lowerCaseValue)
        (filter (fun item => JS.includes (toLowerCase item) lowerCaseValue)
           matchLanguages)
  | _ =>
      match sortMode (config p) with
      | custom =>
          customOrderLanguages
          ++ JS.sort
               (filter (fun lang => negb (includes customOrderLanguages lang))
                  otherCustomLanguages
                ++ filter (fun lang => negb (includes customOrderLanguages lang)
                                       && negb (includes otherCustomLanguages lang)
                                       && negb (includes excludedLanguages lang))
                     languages)
      | frequency =>
          let topFrequencyLanguages :=
            JS.slice0 (frequencyTopCount (config p)) (frequencyOrder (statistics p)) in
          topFrequencyLanguages
          ++ JS.sort
               (filter (fun lang => negb (includes topFrequencyLanguages lang))
                  otherCustomLanguages
                ++ filter (fun lang => negb (includes topFrequencyLanguages lang)
                                       && negb (includes otherCustomLanguages lang)
                                       && negb (includes excludedLanguages lang))
                     languages)
      end
  end.

End Ordering.

(** *** Recording a selection *)

(** [language && language.trim()]. *)
Definition nonBlank (language : jsstring) : bool :=
  match language with
  | [] => false
  | _ => match JS.trim language with [] => false | _ => true end
  end.

(** The block of [languageChange] guarded by [language && language.trim()];
    [now] is the clock read by [getCurrentDateString].  The record of the
    language is read through the prototype chain: for a language that is
    not tracked and names a property of [Object.prototype] the test
    [!this.statistics.languages[language]] finds a truthy value, no record
    is created, and [languageStats.dates] is [undefined], so that the read
    of [languageStats.dates[currentDate]] raises a [TypeError] before
    anything is changed.  [currentDate] is a date, which names no property
    of [Object.prototype], so [languageStats.dates[currentDate]] is an own
    count or [undefined]. *)
Definition recordLanguage (now : Z) (language : jsstring) (p : Plugin) : completion :=
  match getCurrentDateString now with
  | None => Thrown p
  | Some currentDate =>
      let ls := languages (statistics p) in
      let ls :=
        match JS.read language ls with
        | JS.Undefined => JS.set language (mkLanguageStats 0 []) ls
        | _ => ls
        end in
      match JS.read language ls with
      | JS.Own languageStats =>
          let oldCount := numberOf (JS.get currentDate (dates languageStats)) in
          let languageStats :=
            mkLanguageStats (totalCount languageStats + 1)
              (JS.set currentDate (oldCount + 1) (dates languageStats)) in
          let p := withLanguages (JS.set language languageStats ls) p in
          let p := updateFrequencyOrder p in
          Returned (saveStatistics p)
      | _ => Thrown p
      end
  end.

(** [languageChange]: [now] is the clock reading of the guarded block and
    [now'] the later reading of [cleanupExpiredStatistics], which is not
    reached when the block raises. *)
Definition languageChange (now now' : Z) (language : jsstring) (p : Plugin)
  : completion :=
  if nonBlank language then
    match recordLanguage now language p with
    | Returned p => cleanupExpiredStatistics now' p
    | Thrown p => Thrown p
    end
  else cleanupExpiredStatistics now' p.

(** *** Settings: the committed configuration and its edit buffer *)

(** The [input] and [change] listeners of the settings dialog.  For the
    two numeric fields the payload is the result of [parseInt], [None]
    being [NaN]. *)
Inductive SettingInput : Type :=
| InputSortMode (v : SortMode)
| InputCustomOrder (v : jsstring)
| InputFrequencyTopCount (v : option Z)
| InputFrequencyDaysRange (v : option Z)
| InputOtherCustomLanguages (v : jsstring)
| InputExcludedLanguages (v : jsstring).

Definition settingInput (e : SettingInput) (p : Plugin) : Plugin :=
  let t := tempConfig p in
  match e with
  | InputSortMode v =>
      withTempConfig
        (mkConfig v (customOrder t) (frequencyTopCount t) (frequencyDaysRange t)
           (otherCustomLanguages t) (excludedLanguages t)) p
  | InputCustomOrder v =>
      withTempConfig
        (mkConfig (sortMode t) v (frequencyTopCount t) (frequencyDaysRange t)
           (otherCustomLanguages t) (excludedLanguages t)) p
  | InputFrequencyTopCount (Some value) =>
      if (value >=? 1) && (value <=? 15)
      then withTempConfig
             (mkConfig (sortMode t) (customOrder t) value (frequencyDaysRange t)
                (otherCustomLanguages t) (excludedLanguages t)) p
      else p
  | InputFrequencyTopCount None => p
  | InputFrequencyDaysRange (Some value) =>
      if (value >=? 1) && (value <=? 90)
      then withTempConfig
             (mkConfig (sortMode t) (customOrder t) (frequencyTopCount t) value
                (otherCustomLanguages t) (excludedLanguages t)) p
      else p
  | InputFrequencyDaysRange None => p
  | InputOtherCustomLanguages v =>
      withTempConfig
        (mkConfig (sortMode t) (customOrder t) (frequencyTopCount t)
           (frequencyDaysRange t) v (excludedLanguages t)) p
  | InputExcludedLanguages v =>
      withTempConfig
        (mkConfig (sortMode t) (customOrder t) (frequencyTopCount t)
           (frequencyDaysRange t) (otherCustomLanguages t) v) p
  end.

(** [{ ...c }]: the fields of a configuration are primitive values, so the
    shallow copy shares nothing with its source. *)
Definition copyConfig (c : Config) : Config :=
  mkConfig (sortMode c) (customOrder c) (frequencyTopCount c)
    (frequencyDaysRange c) (otherCustomLanguages c) (excludedLanguages c).

Definition confirmCallback (p : Plugin) : Plugin :=
  let p := withConfig (copyConfig (tempConfig p)) p in
  let p := saveConfig p in
  parseAndCacheLanguages p.

Definition destroyCallback (p : Plugin) : Plugin :=
  withTempConfig (copyConfig (config p)) p.

(** The click listener of the two "fill" buttons writes this text into
    the text area next to it; the listener touches no field of the
    instance, and the text reaches the edit buffer with the next [input]
    event of the text area. *)
Definition fillAllBuiltinLanguages (hljs alias : option (list jsstring)) : jsstring :=
  JS.join (js ", ") (getBuiltinLanguages hljs alias).

(** [onload], from the two documents [loadData] found ([None] when a
    document does not exist yet; a stored configuration has all its
    fields): the defaults for falsy fields, the edit buffer and the
    caches. *)
Definition onload (loadedConfig : option Config) (loadedStatistics : option Statistics)
  : Plugin :=
  let c :=
    match loadedConfig with
    | Some c =>
        mkConfig (sortMode c) (customOrder c)
          (if frequencyTopCount c =? 0 then 5 else frequencyTopCount c)
          (if frequencyDaysRange c =? 0 then 30 else frequencyDaysRange c)
          (otherCustomLanguages c) (excludedLanguages c)
    | None => mkConfig frequency [] 5 30 [] []
    end in
  let s :=
    match loadedStatistics with
    | Some s => s
    | None => mkStatistics [] []
    end in
  parseAndCacheLanguages
    (mkPlugin c (copyConfig c) s [] [] [] loadedConfig loadedStatistics).

(* ================================================================== *)
(** ** Specification vocabulary *)
(* ================================================================== *)

(** Dates in calendar order, and the days of the years 0000 to 9999,
    whose ISO form has a four-digit year. *)
Definition civilLt (a b : Z * Z * Z) : Prop :=
  let '(y1, m1, d1) := a in
  let '(y2, m2, d2) := b in
  y1 < y2 \/ (y1 = y2 /\ (m1 < m2 \/ (m1 = m2 /\ d1 < d2))).

Definition fourDigitYear (day : Z) : Prop := -719528 <= day <= 2932896.

(** A real object has no two properties of the same name. *)
Definition distinctKeys {V : Type} (o : JS.object V) : Prop := NoDup (map fst o).

Definition wellFormed (s : Statistics) : Prop :=
  distinctKeys (languages s) /\
  Forall (fun e => distinctKeys (dates (snd e))) (languages s).

Definition sumZ (l : list Z) : Z := fold_right Z.add 0 l.

(** The sum of the per-day counts stored for a language. *)
Definition sumCounts (ds : JS.object Z) : Z := sumZ (map snd ds).

(** Every tracked language's [totalCount] is the sum of its stored days. *)
Definition countsConsistent (s : Statistics) : Prop :=
  Forall (fun e => totalCount (snd e) = sumCounts (dates (snd e))) (languages s).

(** Every stored per-day count is positive. *)
Definition positiveCounts (s : Statistics) : Prop :=
  Forall (fun e => Forall (fun d => 0 < snd d) (dates (snd e))) (languages s).

(** The record of a language before a selection is recorded: the stored
    one, or the fresh one the handler creates. *)
Definition statsBefore (ls : JS.object LanguageStats) (language : jsstring) : LanguageStats :=
  match JS.get language ls with
  | Some s => s
  | None => mkLanguageStats 0 []
  end.

(** A selection of [language] can be recorded: the language is tracked,
    or it names no property of [Object.prototype]. *)
Definition recordable (language : jsstring) (p : Plugin) : bool :=
  match JS.read language (languages (statistics p)) with
  | JS.Inherited => false
  | _ => true
  end.

(** Recording, said directly: the instance after a selection of
    [language] on the day [d] has been recorded and saved. *)
Definition recorded (d language : jsstring) (p : Plugin) : Plugin :=
  let ls := languages (statistics p) in
  let old := statsBefore ls language in
  let languageStats :=
    mkLanguageStats (totalCount old + 1)
      (JS.set d (numberOf (JS.get d (dates old)) + 1) (dates old)) in
  saveStatistics (updateFrequencyOrder (withLanguages (JS.set language languageStats ls) p)).

(** A day entry survives pruning when its key is not below the cutoff. *)
Definition notExpired (cutoffDateString : jsstring) (e : jsstring * Z) : bool :=
  negb (JS.ltb (fst e) cutoffDateString).

(** Pruning, said directly: keep the days that are not expired, total
    them, and drop the languages whose total is zero. *)
Definition prunedStats (cutoffDateString : jsstring) (s : LanguageStats) : LanguageStats :=
  mkLanguageStats (sumCounts (filter (notExpired cutoffDateString) (dates s)))
    (filter (notExpired cutoffDateString) (dates s)).

Definition prunedLanguages (cutoffDateString : jsstring) (ls : JS.object LanguageStats)
  : JS.object LanguageStats :=
  filter (fun e => negb (totalCount (snd e) =? 0))
    (map (fun e => (fst e, prunedStats cutoffDateString (snd e))) ls).

(** What visiting the day [k] adds to the running total of the inner loop. *)
Definition dayTerm (cutoffDateString : jsstring) (ds : JS.object Z) (k : jsstring) : Z :=
  if JS.ltb k cutoffDateString then 0 else numberOf (JS.get k ds).

(** The record the outer loop leaves for a language, and whether the loop
    marks the language of key [k] for removal. *)
Definition loopStats (cutoffDateString : jsstring) (s : LanguageStats) : LanguageStats :=
  mkLanguageStats (snd (pruneDates cutoffDateString (dates s)))
    (fst (pruneDates cutoffDateString (dates s))).

Definition isEmptied (cutoffDateString : jsstring) (ls : JS.object LanguageStats)
    (k : jsstring) : bool :=
  match JS.get k ls with
  | Some s => totalCount (loopStats cutoffDateString s) =? 0
  | None => false
  end.

(** The cutoff day of a pruning pass that reads the clock at [now]. *)
Definition cutoffDateString (now : Z) (p : Plugin) : option jsstring :=
  JS.toISODateString (now - frequencyDaysRange (config p) * 24 * 60 * 60 * 1000).

(** What [parseLanguagesInput] does to one segment. *)
Definition canonicalSegment (part : jsstring) : jsstring :=
  escapeHtml (JS.replaceEach backtickOrSpace (js "_") (JS.trim part)).

(** What [escapeHtml] makes of one code unit. *)
Definition escapeUnit (c : N) : jsstring :=
  if N.eqb c 38 then js "&amp;" else if N.eqb c 60 then js "&lt;" else [c].

(** The number of occurrences of a code unit. *)
Definition countUnit (c : N) (s : jsstring) : nat :=
  List.length (filter (N.eqb c) s).

(** A string that fits in one segment of a configured list and that the
    trimming and the replacement of [parseLanguagesInput] leave as it
    is. *)
Definition plainToken (t : jsstring) : Prop :=
  t <> [] /\ JS.trim t = t /\ ~ In 44%N t /\ ~ In 32%N t /\ ~ In 96%N t.

(** The token lists of the committed configuration. *)
Definition customOrderTokens (p : Plugin) : list jsstring :=
  parseLanguagesInput (Some (customOrder (config p))).

Definition otherCustomTokens (p : Plugin) : list jsstring :=
  parseLanguagesInput (Some (otherCustomLanguages (config p))).

Definition excludedTokens (p : Plugin) : list jsstring :=
  parseLanguagesInput (Some (excludedLanguages (config p))).

(** The pinned prefix of Frequency mode. *)
Definition topFrequencyLanguages (p : Plugin) : list jsstring :=
  JS.slice0 (frequencyTopCount (config p)) (frequencyOrder (statistics p)).

(** A request without search text: [value] is absent or empty. *)
Definition noQuery (value : option jsstring) : Prop :=
  value = None \/ value = Some [].

(** The pool the search branch of [languageUpdate] filters, per mode. *)
Definition matchPool (p : Plugin) (languages : list jsstring) : list jsstring :=
  match sortMode (config p) with
  | custom =>
      customOrderTokens p
      ++ filter (fun lang => negb (JS.Array_includes (customOrderTokens p) lang))
           (otherCustomTokens p)
      ++ filter (fun lang => negb (JS.Array_includes (customOrderTokens p) lang)
                             && negb (JS.Array_includes (otherCustomTokens p) lang)
                             && negb (JS.Array_includes (excludedTokens p) lang))
           languages
  | frequency =>
      otherCustomTokens p
      ++ filter (fun lang => negb (JS.Array_includes (otherCustomTokens p) lang)
                             && negb (JS.Array_includes (excludedTokens p) lang))
           languages
  end.

(** The caches hold the parsed lists of the committed configuration. *)
Definition cachesCurrent (p : Plugin) : Prop :=
  cachedCustomOrderLanguages p = customOrderTokens p /\
  cachedOtherCustomLanguages p = otherCustomTokens p /\
  cachedExcludedLanguages p = excludedTokens p.

(** *** Runs of the plugin

    The events that change the instance, and the instance after a
    sequence of them.  A handler that raises leaves the instance as it
    was when the exception was raised. *)
Inductive Event : Type :=
| LanguageChange (now now' : Z) (language : jsstring)
| SettingEdit (e : SettingInput)
| Confirm
| Destroy.

Definition instanceAfter (c : completion) : Plugin :=
  match c with
  | Returned p => p
  | Thrown p => p
  end.

Definition handle (p : Plugin) (ev : Event) : Plugin :=
  match ev with
  | LanguageChange now now' language => instanceAfter (languageChange now now' language p)
  | SettingEdit e => settingInput e p
  | Confirm => confirmCallback p
  | Destroy => destroyCallback p
  end.

Definition run (events : list Event) (p : Plugin) : Plugin :=
  fold_left handle events p.

(** [frequencyOrder] is the ranking computed from [languages]. *)
Definition orderCurrent (s : Statistics) : Prop :=
  frequencyOrder s =
  JS.sortWith (fun a b => totalCountOf (languages s) b - totalCountOf (languages s) a)
    (JS.keys (languages s)).

(** What holds of the statistics at every point of a run. *)
Definition statisticsInvariant (s : Statistics) : Prop :=
  wellFormed s /\ countsConsistent s /\ positiveCounts s /\ orderCurrent s.

(** The count stored for a language on a day, [0] when there is none. *)
Definition dayCount (ls : JS.object LanguageStats) (language date : jsstring) : Z :=
  numberOf (JS.get date (dates (statsBefore ls language))).

(** A selection, as [languageChange] sees it: the two clock readings and
    the language of the event. *)
Definition Selection : Type := (Z * Z * jsstring)%type.

Definition selectionEvent (s : Selection) : Event :=
  let '(now, now', language) := s in LanguageChange now now' language.

(** The UTC day of the first clock reading, the second clock reading,
    and whether the selection is one of [language] that gets recorded. *)
Definition selectionDay (s : Selection) : Z := fst (fst s) / JS.msPerDay.

Definition pruneClock (s : Selection) : Z := snd (fst s).

Definition recordedFor (language : jsstring) (s : Selection) : bool :=
  nonBlank (snd s) && JS.eqb (snd s) language.

(** The ranges the settings dialog accepts for the two numbers. *)
Definition rangesValid (c : Config) : Prop :=
  1 <= frequencyTopCount c <= 15 /\ 1 <= frequencyDaysRange c <= 90.

(** A stored configuration whose numbers are absent (falsy) or within
    the ranges of the dialog. *)
Definition storedRangesValid (c : option Config) : Prop :=
  match c with
  | Some c => 0 <= frequencyTopCount c <= 15 /\ 0 <= frequencyDaysRange c <= 90
  | None => True
  end.

(** *** Vocabulary of the runs of selections *)

(** Loading the saved configuration gives the committed one. *)
Definition configRestorable (p : Plugin) : Prop :=
  forall s, config (onload (savedConfig p) s) = config p.

(** The number of entries of a log of recorded selections, each a
    language and a day, for one language and one day. *)
Definition countIn (log : list (jsstring * jsstring)) (l d : jsstring) : nat :=
  List.length (filter (fun e => JS.eqb (fst e) l && JS.eqb (snd e) d) log).

(** The stored day counts are the counts of the log. *)
Definition countsAgree (ls : JS.object LanguageStats) (log : list (jsstring * jsstring))
  : Prop :=
  forall l d, dayCount ls l d = Z.of_nat (countIn log l d).

(** The log entry of a selection, the log of the recorded selections of
    a run whose day is not before [cut], and the invariant of such a run:
    the statistics are well formed, consistent and positive, no total is
    zero, and the day counts are those of the log. *)
Definition logEntry (s : Selection) : jsstring * jsstring :=
  (snd s, JS.isoDate (selectionDay s)).

Definition selectionLog (cut : Z) (evs : list Selection) : list (jsstring * jsstring) :=
  map logEntry (filter (fun s => nonBlank (snd s) && (cut <=? selectionDay s)) evs).

Definition windowInvariant (p : Plugin) (evs : list Selection) (cut : Z) : Prop :=
  wellFormed (statistics p) /\ countsConsistent (statistics p)
  /\ positiveCounts (statistics p)
  /\ Forall (fun e => totalCount (snd e) <> 0) (languages (statistics p))
  /\ countsAgree (languages (statistics p)) (selectionLog cut evs).

(** The cutoff day of the pruning pass of a selection for a window of
    [w] days, cutoff days that never go back from [cut] on, and the last
    of them. *)
Definition cutoffDay (w : Z) (s : Selection) : Z := pruneClock s / JS.msPerDay - w.

Fixpoint cutoffsAscend (w cut : Z) (evs : list Selection) : Prop :=
  match evs with
  | [] => True
  | e :: r =>
      cut <= cutoffDay w e /\ fourDigitYear (cutoffDay w e) /\ cutoffsAscend w (cutoffDay w e) r
  end.

Fixpoint lastCutoffDay (w cut : Z) (evs : list Selection) : Z :=
  match evs with
  | [] => cut
  | e :: r => lastCutoffDay w (cutoffDay w e) r
  end.

(** *** Sample instances

    A Custom-mode instance as [onload] builds it, and a Frequency-mode
    instance that has two tracked languages. *)
Definition sampleCustom : Plugin :=
  onload (Some (mkConfig custom (js "foo,bar") 5 30 (js "zig,ada") (js "foo,cobol"))) None.

Definition sampleFrequency : Plugin :=
  withStatistics
    (mkStatistics [js "python"; js "go"]
       [(js "python", mkLanguageStats 3 [(js "2025-10-25", 3)]);
        (js "go", mkLanguageStats 1 [(js "2025-10-24", 1)])])
    (onload (Some (mkConfig frequency [] 5 30 (js "zig,go") (js "go,zig,cobol"))) None).

(** An instance at 2025-10-25 with a 30-day window: [python] has a day
    before the cutoff day 2025-09-25, the cutoff day itself and a recent
    day; every day of [go] is expired. *)
Definition sampleNow : Z := 1761350400000.

Definition samplePruning : Plugin :=
  withStatistics
    (mkStatistics [js "python"; js "go"]
       [(js "python",
         mkLanguageStats 6
           [(js "2025-09-24", 2); (js "2025-09-25", 1); (js "2025-10-25", 3)]);
        (js "go", mkLanguageStats 4 [(js "2025-01-01", 4)])])
    (onload None None).

(** [samplePruning] after a pruning pass at [sampleNow], and after the
    selection of [go] at [sampleNow]. *)
Definition samplePruned : Plugin :=
  Eval vm_compute in
    match cleanupExpiredStatistics sampleNow samplePruning with
    | Returned p => p
    | Thrown p => p
    end.

Definition sampleSelected : Plugin :=
  Eval vm_compute in
    match languageChange sampleNow sampleNow (js "go") samplePruning with
    | Returned p => p
    | Thrown p => p
    end.

(** A fresh instance after the selection of a string that is not a
    canonical token. *)
Definition rawLanguage : jsstring := js " C `+<&".

Definition sampleRaw : Plugin :=
  Eval vm_compute in
    match languageChange sampleNow sampleNow rawLanguage (onload None None) with
    | Returned p => p
    | Thrown p => p
    end.

(** The instance after [python] was selected once on 2025-10-25 and
    nothing happened since. *)
Definition sampleStale : Plugin :=
  saveStatistics
    (withStatistics
       (mkStatistics [js "python"]
          [(js "python", mkLanguageStats 1 [(js "2025-10-25", 1)])])
       (onload None None)).

(** Two selections of [go] forty days apart, a blank one, and one of
    [c] on the next day. *)
Definition sampleSelections : list Selection :=
  [(sampleNow, sampleNow, js "go");
   (sampleNow + 40 * JS.msPerDay, sampleNow + 40 * JS.msPerDay, js "go");
   (sampleNow + 40 * JS.msPerDay, sampleNow + 40 * JS.msPerDay, js " ")].

Definition sampleLastSelection : Selection :=
  (sampleNow + 41 * JS.msPerDay, sampleNow + 41 * JS.msPerDay, js "c").

(* ================================================================== *)
(** ** Facts about the built-ins *)
(* ================================================================== *)

Module JSFacts.

(** *** Strings *)

Lemma eqb_eq (a b : jsstring) : JS.eqb a b = true <-> a = b.
Proof.
  revert b; induction a as [|x a IH]; intros [|y b]; simpl;
    try (split; [discriminate | congruence]); try tauto.
  rewrite andb_true_iff, N.eqb_eq, IH. split.
  - intros [-> ->]; reflexivity.
  - intros E; injection E; auto.
Qed.

Lemma eqb_refl (a : jsstring) : JS.eqb a a = true.
Proof. apply eqb_eq; reflexivity. Qed.

Lemma eqb_neq (a b : jsstring) : JS.eqb a b = false <-> a <> b.
Proof.
  rewrite <- eqb_eq. destruct (JS.eqb a b); split; congruence.
Qed.

Lemma eqb_sym (a b : jsstring) : JS.eqb a b = JS.eqb b a.
Proof.
  destruct (JS.eqb a b) eqn:E.
  - apply eqb_eq in E; subst; symmetry; apply eqb_refl.
  - symmetry; apply eqb_neq; apply eqb_neq in E; congruence.
Qed.

Lemma ltb_irrefl (a : jsstring) : JS.ltb a a = false.
Proof.
  induction a as [|x a IH]; simpl; auto.
  rewrite N.ltb_irrefl; exact IH.
Qed.

Lemma ltb_trans (a b c : jsstring) :
  JS.ltb a b = true -> JS.ltb b c = true -> JS.ltb a c = true.
Proof.
  revert b c; induction a as [|x a IH]; intros [|y b] [|z c]; simpl;
    try discriminate; auto.
  destruct (N.ltb_spec x y), (N.ltb_spec y x), (N.ltb_spec y z),
    (N.ltb_spec z y), (N.ltb_spec x z), (N.ltb_spec z x);
    try discriminate; try lia; auto.
  apply IH.
Qed.

Lemma ltb_asym (a b : jsstring) : JS.ltb a b = true -> JS.ltb b a = false.
Proof.
  intros H. destruct (JS.ltb b a) eqn:E; auto.
  rewrite <- (ltb_irrefl a). symmetry. eapply ltb_trans; eassumption.
Qed.

(** The order is total: two strings neither of which is below the other
    are equal. *)
Lemma ltb_total (a b : jsstring) :
  JS.ltb a b = false -> JS.ltb b a = false -> a = b.
Proof.
  revert b; induction a as [|x a IH]; intros [|y b]; simpl;
    try discriminate; auto.
  destruct (N.ltb_spec x y), (N.ltb_spec y x); try discriminate; try lia.
  intros; f_equal; [lia | auto].
Qed.

Lemma leb_trans (a b c : jsstring) :
  JS.leb a b = true -> JS.leb b c = true -> JS.leb a c = true.
Proof.
  unfold JS.leb; rewrite !negb_true_iff; intros H1 H2.
  destruct (JS.ltb c a) eqn:E; auto.
  destruct (JS.ltb a b) eqn:Eab.
  - rewrite <- H2. symmetry. eapply ltb_trans; eassumption.
  - assert (a = b) by (apply ltb_total; assumption). subst. congruence.
Qed.

Lemma Array_includes_In (l : list jsstring) (x : jsstring) :
  JS.Array_includes l x = true <-> In x l.
Proof.
  unfold JS.Array_includes. rewrite existsb_exists. split.
  - intros (y & Hy & E). apply eqb_eq in E. subst; assumption.
  - intros H. exists x. split; [assumption | apply eqb_refl].
Qed.

Lemma Array_includes_not_In (l : list jsstring) (x : jsstring) :
  JS.Array_includes l x = false <-> ~ In x l.
Proof.
  rewrite <- Array_includes_In. destruct (JS.Array_includes l x); split; congruence.
Qed.

(** *** [slice] *)

Lemma slice0_nonneg {A : Type} (e : Z) (a : list A) :
  0 <= e -> JS.slice0 e a = firstn (Z.to_nat e) a.
Proof.
  intros H. unfold JS.slice0. destruct (Z.ltb_spec e 0); [lia | reflexivity].
Qed.

Lemma slice0_prefix {A : Type} (e : Z) (a : list A) :
  exists rest, a = JS.slice0 e a ++ rest.
Proof.
  unfold JS.slice0. destruct (e <? 0);
    eexists; symmetry; apply firstn_skipn.
Qed.

Lemma slice0_In {A : Type} (e : Z) (a : list A) (x : A) :
  In x (JS.slice0 e a) -> In x a.
Proof.
  destruct (slice0_prefix e a) as [rest E]. intros H.
  rewrite E. apply in_or_app; auto.
Qed.

(** *** The stable sort *)

Section Sorting.
Context {A : Type} (cmp : A -> A -> Z).

Lemma insert_perm (x : A) (l : list A) : Permutation (JS.insert cmp x l) (x :: l).
Proof.
  induction l as [|y l IH]; simpl; auto.
  destruct (cmp x y <=? 0); auto.
  rewrite IH. apply perm_swap.
Qed.

Lemma sortWith_perm (l : list A) : Permutation (JS.sortWith cmp l) l.
Proof.
  induction l as [|x l IH]; simpl; auto.
  rewrite insert_perm. auto.
Qed.

Lemma sortWith_In (l : list A) (x : A) : In x (JS.sortWith cmp l) <-> In x l.
Proof.
  split; apply Permutation_in;
    [apply sortWith_perm | apply Permutation_sym, sortWith_perm].
Qed.

Lemma sortWith_length (l : list A) :
  List.length (JS.sortWith cmp l) = List.length l.
Proof. apply Permutation_length, sortWith_perm. Qed.

(** Elements that the comparator does not separate keep their relative
    order: the sort is stable on every such class. *)
Lemma insert_filter_class (f : A -> bool) (x : A) (l : list A) :
  (forall y, In y l -> f x = true -> f y = true -> cmp x y <= 0) ->
  filter f (JS.insert cmp x l) = filter f (x :: l).
Proof.
  induction l as [|y l IH]; intros Hc; simpl; auto.
  destruct (Z.leb_spec (cmp x y) 0) as [Hle|Hgt]; simpl; auto.
  rewrite IH by (intros; apply Hc; simpl; auto). simpl.
  destruct (f x) eqn:Fx, (f y) eqn:Fy; auto.
  specialize (Hc y (or_introl eq_refl) eq_refl Fy). lia.
Qed.

Lemma sortWith_stable (f : A -> bool) (l : list A) :
  (forall x y, In x l -> In y l -> f x = true -> f y = true -> cmp x y <= 0) ->
  filter f (JS.sortWith cmp l) = filter f l.
Proof.
  induction l as [|x l IH]; intros Hc; simpl; auto.
  rewrite insert_filter_class.
  - simpl. rewrite IH; [reflexivity|]. intros; apply Hc; simpl; auto.
  - intros y Hy Fx Fy. apply (proj1 (sortWith_In _ _)) in Hy.
    apply Hc; [left; reflexivity | right; exact Hy | exact Fx | exact Fy].
Qed.

(** For a comparator that is a total preorder the result is sorted. *)
Let cmpLe := JS.cmpLe cmp.

Hypothesis cmp_trans : forall x y z, cmpLe x y -> cmpLe y z -> cmpLe x z.
Hypothesis cmp_total : forall x y, cmpLe x y \/ cmpLe y x.

Lemma insert_sorted (x : A) (l : list A) :
  StronglySorted cmpLe l -> StronglySorted cmpLe (JS.insert cmp x l).
Proof.
  induction 1 as [|y l Hs IH Hall]; simpl.
  - constructor; constructor.
  - destruct (Z.leb_spec (cmp x y) 0) as [Hle|Hgt].
    + constructor; [constructor; assumption|].
      constructor; [exact Hle|].
      eapply Forall_impl; [|exact Hall]. intros z Hz. eapply cmp_trans; eassumption.
    + constructor; [exact IH|].
      rewrite Forall_forall in *. intros z Hz.
      apply (Permutation_in _ (insert_perm x l)) in Hz. destruct Hz as [<-|Hz]; auto.
      destruct (cmp_total y x) as [H|H]; [exact H | unfold cmpLe, JS.cmpLe in H; lia].
Qed.

Lemma sortWith_sorted (l : list A) : StronglySorted cmpLe (JS.sortWith cmp l).
Proof.
  induction l as [|x l IH]; simpl; [constructor | apply insert_sorted, IH].
Qed.

End Sorting.

(** A sorted list whose order puts one class first splits into that class
    followed by the rest. *)
Lemma sorted_split {A : Type} (R : A -> A -> Prop) (f : A -> bool) (l : list A) :
  (forall x y, R x y -> f y = true -> f x = true) ->
  StronglySorted R l ->
  l = filter f l ++ filter (fun x => negb (f x)) l.
Proof.
  intros HR. induction 1 as [|x l Hs IH Hall]; simpl; auto.
  destruct (f x) eqn:Fx; simpl.
  - f_equal. exact IH.
  - assert (Hno : forall y, In y l -> f y = false).
    { rewrite Forall_forall in Hall. intros y Hy.
      destruct (f y) eqn:Fy; auto.
      rewrite (HR x y (Hall y Hy) Fy) in Fx. discriminate. }
    assert (E1 : filter f l = []).
    { clear -Hno. induction l as [|y l IH]; simpl; auto.
      rewrite (Hno y) by (simpl; auto). apply IH. intros; apply Hno; simpl; auto. }
    assert (E2 : filter (fun x => negb (f x)) l = l).
    { clear -Hno. induction l as [|y l IH]; simpl; auto.
      rewrite (Hno y) by (simpl; auto). simpl. f_equal.
      apply IH. intros; apply Hno; simpl; auto. }
    rewrite E1, E2. reflexivity.
Qed.

(** The model of [sort] does not depend on the algorithm of the host: for
    a comparator that is a total preorder there is one stable sorted
    arrangement. *)
Section StableSortUnique.
Context {A : Type} (cmp : A -> A -> Z).
Hypothesis cmp_trans : forall x y z, JS.cmpLe cmp x y -> JS.cmpLe cmp y z -> JS.cmpLe cmp x z.
Hypothesis cmp_total : forall x y, JS.cmpLe cmp x y \/ JS.cmpLe cmp y x.

#[local] Abbreviation tied := (JS.tied cmp).

Lemma tied_spec (x y : A) : tied x y = true <-> JS.cmpLe cmp x y /\ JS.cmpLe cmp y x.
Proof. unfold JS.tied, JS.cmpLe. rewrite andb_true_iff, !Z.leb_le. reflexivity. Qed.

Lemma sorted_stable_unique (l1 : list A) :
  forall l2,
    Permutation l1 l2 ->
    StronglySorted (JS.cmpLe cmp) l1 -> StronglySorted (JS.cmpLe cmp) l2 ->
    (forall x, filter (tied x) l1 = filter (tied x) l2) ->
    l1 = l2.
Proof.
  induction l1 as [|a l1 IH]; intros l2 Hp Hs1 Hs2 Hf.
  - apply Permutation_nil in Hp. congruence.
  - destruct l2 as [|b l2]; [apply Permutation_sym, Permutation_nil in Hp; discriminate|].
    pose proof (StronglySorted_inv Hs1) as [Hs1' Ha].
    pose proof (StronglySorted_inv Hs2) as [Hs2' Hb].
    rewrite Forall_forall in Ha, Hb.
    assert (Haa : JS.cmpLe cmp a a) by (destruct (cmp_total a a); assumption).
    assert (Hbb : JS.cmpLe cmp b b) by (destruct (cmp_total b b); assumption).
    assert (Hab : JS.cmpLe cmp a b).
    { assert (H : In b (a :: l1)) by (eapply Permutation_in; [apply Permutation_sym, Hp | left; reflexivity]).
      destruct H as [->|H]; auto. }
    assert (Hba : JS.cmpLe cmp b a).
    { assert (H : In a (b :: l2)) by (eapply Permutation_in; [apply Hp | left; reflexivity]).
      destruct H as [->|H]; auto. }
    assert (Ta : tied a a = true) by (apply tied_spec; auto).
    assert (Tb : tied a b = true) by (apply tied_spec; auto).
    pose proof (Hf a) as Hfa. simpl in Hfa. rewrite Ta, Tb in Hfa.
    injection Hfa as <- Hfa.
    f_equal. apply IH; auto.
    + eapply Permutation_cons_inv; exact Hp.
    + intros x. pose proof (Hf x) as Hx. simpl in Hx.
      destruct (tied x a); [injection Hx; auto | exact Hx].
Qed.

(** Whatever stable sorting algorithm the host runs, [sortWith] is its
    result. *)
Lemma sortWith_unique (l l' : list A) :
  Permutation l' l ->
  StronglySorted (JS.cmpLe cmp) l' ->
  (forall x, filter (tied x) l' = filter (tied x) l) ->
  l' = JS.sortWith cmp l.
Proof.
  intros Hp Hs Hf. apply sorted_stable_unique; auto.
  - rewrite sortWith_perm. exact Hp.
  - apply sortWith_sorted; assumption.
  - intros x. rewrite Hf. symmetry. apply sortWith_stable.
    intros y z _ _ Hy Hz. apply tied_spec in Hy, Hz.
    apply (cmp_trans y x z); tauto.
Qed.

End StableSortUnique.

(** The default comparator is a total preorder, so [sort] sorts. *)
Lemma defaultCompare_le (x y : jsstring) :
  JS.defaultCompare x y <= 0 <-> JS.leb x y = true.
Proof.
  unfold JS.defaultCompare, JS.leb.
  destruct (JS.ltb x y) eqn:E1.
  - rewrite (ltb_asym _ _ E1). simpl. split; [reflexivity | lia].
  - destruct (JS.ltb y x); simpl; split; try discriminate; try lia; auto.
Qed.

Lemma sort_sorted (l : list jsstring) :
  StronglySorted (fun x y => JS.leb x y = true) (JS.sort l).
Proof.
  eapply StronglySorted_ind with
    (P := fun l => StronglySorted (fun x y => JS.leb x y = true) l).
  - constructor.
  - intros a l0 _ IH Hall. constructor; [exact IH|].
    eapply Forall_impl; [|exact Hall]. intros z Hz. apply defaultCompare_le, Hz.
  - apply sortWith_sorted.
    + unfold JS.cmpLe. intros x y z. rewrite !defaultCompare_le. apply leb_trans.
    + unfold JS.cmpLe. intros x y. rewrite !defaultCompare_le. unfold JS.leb.
      destruct (JS.ltb y x) eqn:E; [right | left; reflexivity].
      rewrite (ltb_asym _ _ E). reflexivity.
Qed.

Lemma sort_perm (l : list jsstring) : Permutation (JS.sort l) l.
Proof. apply sortWith_perm. Qed.

Lemma sort_In (l : list jsstring) (x : jsstring) : In x (JS.sort l) <-> In x l.
Proof. apply sortWith_In. Qed.

(** *** Objects *)

Lemma filter_split_perm {A : Type} (f : A -> bool) (l : list A) :
  Permutation (filter f l ++ filter (fun x => negb (f x)) l) l.
Proof.
  induction l as [|x l IH]; simpl; auto.
  destruct (f x); simpl.
  - constructor; exact IH.
  - rewrite <- Permutation_middle. constructor; exact IH.
Qed.

Lemma keys_perm {V : Type} (o : JS.object V) : Permutation (JS.keys o) (map fst o).
Proof.
  unfold JS.keys. rewrite sortWith_perm. apply filter_split_perm.
Qed.

Lemma keys_In {V : Type} (o : JS.object V) (k : jsstring) :
  In k (JS.keys o) <-> In k (map fst o).
Proof.
  split; apply Permutation_in;
    [apply keys_perm | apply Permutation_sym, keys_perm].
Qed.

Lemma keys_NoDup {V : Type} (o : JS.object V) :
  distinctKeys o -> NoDup (JS.keys o).
Proof.
  intros H. eapply Permutation_NoDup; [apply Permutation_sym, keys_perm | exact H].
Qed.

Lemma get_In {V : Type} (k : jsstring) (v : V) (o : JS.object V) :
  JS.get k o = Some v -> In (k, v) o.
Proof.
  induction o as [|[k' v'] o IH]; simpl; [discriminate|].
  destruct (JS.eqb k k') eqn:E.
  - apply eqb_eq in E. subst. intros [= ->]. left; reflexivity.
  - intros H; right; apply IH, H.
Qed.

Lemma In_get {V : Type} (k : jsstring) (v : V) (o : JS.object V) :
  distinctKeys o -> In (k, v) o -> JS.get k o = Some v.
Proof.
  unfold distinctKeys. induction o as [|[k' v'] o IH]; simpl; [tauto|].
  intros Hnd [E|Hin].
  - injection E as -> ->. rewrite eqb_refl. reflexivity.
  - inversion Hnd as [|? ? Hnot Hnd']; subst.
    destruct (JS.eqb k k') eqn:E.
    + apply eqb_eq in E. subst. exfalso. apply Hnot.
      change k' with (fst (k', v)). apply in_map, Hin.
    + apply IH; assumption.
Qed.

Lemma get_None {V : Type} (k : jsstring) (o : JS.object V) :
  JS.get k o = None <-> ~ In k (map fst o).
Proof.
  induction o as [|[k' v'] o IH]; simpl; [tauto|].
  destruct (JS.eqb k k') eqn:E.
  - apply eqb_eq in E. subst. split; [discriminate | intros H; exfalso; auto].
  - apply eqb_neq in E. rewrite IH. split; [intros H [H'|H']; auto | auto].
Qed.

Lemma get_Some_key {V : Type} (k : jsstring) (v : V) (o : JS.object V) :
  JS.get k o = Some v -> In k (map fst o).
Proof.
  intros H. apply get_In in H. change k with (fst (k, v)). apply in_map, H.
Qed.

(** A property read finds the own property when there is one, and goes
    on to [Object.prototype] otherwise. *)
Lemma read_Own {V : Type} (k : jsstring) (v : V) (o : JS.object V) :
  JS.read k o = JS.Own v <-> JS.get k o = Some v.
Proof.
  unfold JS.read. destruct (JS.get k o) as [v'|].
  - split; intros E; injection E as ->; reflexivity.
  - destruct (JS.inheritedName k); split; discriminate.
Qed.

Lemma read_Inherited {V : Type} (k : jsstring) (o : JS.object V) :
  JS.read k o = JS.Inherited <-> JS.get k o = None /\ JS.inheritedName k = true.
Proof.
  unfold JS.read. destruct (JS.get k o) as [v'|].
  - split; [discriminate | intros [H _]; discriminate].
  - destruct (JS.inheritedName k); split; try discriminate; auto.
    intros [_ H]; discriminate.
Qed.

Lemma inheritedName_In (k : jsstring) :
  JS.inheritedName k = true <-> In k JS.objectPrototypeNames.
Proof. apply Array_includes_In. Qed.

Lemma get_set_same {V : Type} (k : jsstring) (v : V) (o : JS.object V) :
  JS.get k (JS.set k v o) = Some v.
Proof.
  induction o as [|[k' v'] o IH]; simpl.
  - rewrite eqb_refl; reflexivity.
  - destruct (JS.eqb k k') eqn:E; simpl; rewrite E; auto.
Qed.

Lemma get_set_other {V : Type} (k k' : jsstring) (v : V) (o : JS.object V) :
  k <> k' -> JS.get k' (JS.set k v o) = JS.get k' o.
Proof.
  intros Hne. induction o as [|[k0 v0] o IH]; simpl.
  - assert (E : JS.eqb k' k = false) by (apply eqb_neq; congruence).
    rewrite E; reflexivity.
  - destruct (JS.eqb k k0) eqn:E; simpl.
    + apply eqb_eq in E. subst k0.
      assert (E : JS.eqb k' k = false) by (apply eqb_neq; congruence).
      rewrite E; reflexivity.
    + rewrite IH. reflexivity.
Qed.

Lemma set_keys {V : Type} (k : jsstring) (v : V) (o : JS.object V) :
  map fst (JS.set k v o) =
  match JS.get k o with
  | Some _ => map fst o
  | None => map fst o ++ [k]
  end.
Proof.
  induction o as [|[k' v'] o IH]; simpl; auto.
  destruct (JS.eqb k k') eqn:E; simpl; auto.
  rewrite IH. destruct (JS.get k o); reflexivity.
Qed.

Lemma set_distinctKeys {V : Type} (k : jsstring) (v : V) (o : JS.object V) :
  distinctKeys o -> distinctKeys (JS.set k v o).
Proof.
  unfold distinctKeys. rewrite set_keys. intros H.
  destruct (JS.get k o) eqn:E; auto.
  apply get_None in E.
  eapply Permutation_NoDup; [apply Permutation_cons_append|].
  constructor; assumption.
Qed.


End JSFacts.

(* ================================================================== *)
(** ** Facts about dates: the string order of ISO dates is the calendar order *)
(* ================================================================== *)

Module DateFacts.
Import JSFacts.

Lemma dayOfEra_range z : 0 <= JS.dayOfEra z <= 146096.
Proof. unfold JS.dayOfEra, JS.eraOf. Z.div_mod_to_equations; lia. Qed.

Lemma era_mono a b : a < b ->
  JS.eraOf a < JS.eraOf b \/ (JS.eraOf a = JS.eraOf b /\ JS.dayOfEra a < JS.dayOfEra b).
Proof. unfold JS.dayOfEra, JS.eraOf. Z.div_mod_to_equations; lia. Qed.

Lemma yearOfEra_range doe : 0 <= doe <= 146096 -> 0 <= JS.yearOfEra doe <= 399.
Proof. unfold JS.yearOfEra. Z.div_mod_to_equations; lia. Qed.

Lemma yearOfEra_mono a b : 0 <= a -> a <= b -> JS.yearOfEra a <= JS.yearOfEra b.
Proof. unfold JS.yearOfEra. Z.div_mod_to_equations; lia. Qed.

Lemma dayOfYear_range doe : 0 <= doe <= 146096 -> 0 <= JS.dayOfYear doe <= 365.
Proof. unfold JS.dayOfYear, JS.yearOfEra. Z.div_mod_to_equations; lia. Qed.

Lemma monthIndex_range doy : 0 <= doy <= 365 -> 0 <= JS.monthIndex doy <= 11.
Proof. unfold JS.monthIndex. Z.div_mod_to_equations; lia. Qed.

Lemma dayOfMonth_range doy :
  0 <= doy <= 365 -> 1 <= doy - (153 * JS.monthIndex doy + 2) / 5 + 1 <= 31.
Proof. unfold JS.monthIndex. Z.div_mod_to_equations; lia. Qed.

Lemma month_mono a b :
  0 <= a -> a < b ->
  JS.monthIndex a < JS.monthIndex b
  \/ (JS.monthIndex a = JS.monthIndex b
      /\ a - (153 * JS.monthIndex a + 2) / 5 + 1 < b - (153 * JS.monthIndex b + 2) / 5 + 1).
Proof. unfold JS.monthIndex. Z.div_mod_to_equations; lia. Qed.

Lemma civilFromDays_range z :
  let '(y, m, d) := JS.civilFromDays z in 1 <= m <= 12 /\ 1 <= d <= 31.
Proof.
  unfold JS.civilFromDays. cbv zeta.
  pose proof (dayOfEra_range z) as H1.
  pose proof (dayOfYear_range _ H1) as H2.
  pose proof (monthIndex_range _ H2) as H3.
  pose proof (dayOfMonth_range _ H2) as H4.
  destruct (Z.ltb_spec (JS.monthIndex (JS.dayOfYear (JS.dayOfEra z))) 10); lia.
Qed.

Lemma civilFromDays_mono a b :
  a < b -> civilLt (JS.civilFromDays a) (JS.civilFromDays b).
Proof.
  intros Hab. unfold civilLt, JS.civilFromDays. cbv zeta.
  pose proof (dayOfEra_range a) as Ha1. pose proof (dayOfEra_range b) as Hb1.
  pose proof (yearOfEra_range _ Ha1) as Ha2. pose proof (yearOfEra_range _ Hb1) as Hb2.
  pose proof (dayOfYear_range _ Ha1) as Ha3. pose proof (dayOfYear_range _ Hb1) as Hb3.
  pose proof (monthIndex_range _ Ha3) as Ha4. pose proof (monthIndex_range _ Hb3) as Hb4.
  pose proof (era_mono a b Hab) as He.
  assert (Hy : JS.eraOf a = JS.eraOf b -> JS.yearOfEra (JS.dayOfEra a) <= JS.yearOfEra (JS.dayOfEra b)).
  { intros E. apply yearOfEra_mono; lia. }
  assert (Hd : JS.eraOf a = JS.eraOf b ->
               JS.yearOfEra (JS.dayOfEra a) = JS.yearOfEra (JS.dayOfEra b) ->
               JS.dayOfYear (JS.dayOfEra a) < JS.dayOfYear (JS.dayOfEra b)).
  { intros E1 E2. unfold JS.dayOfYear. rewrite E2. lia. }
  assert (Hm : JS.dayOfYear (JS.dayOfEra a) < JS.dayOfYear (JS.dayOfEra b) -> _)
    by (apply month_mono; lia).
  set (ea := JS.eraOf a) in *. set (eb := JS.eraOf b) in *.
  set (ya := JS.yearOfEra (JS.dayOfEra a)) in *. set (yb := JS.yearOfEra (JS.dayOfEra b)) in *.
  set (da := JS.dayOfYear (JS.dayOfEra a)) in *. set (db := JS.dayOfYear (JS.dayOfEra b)) in *.
  set (ma := JS.monthIndex da) in *. set (mb := JS.monthIndex db) in *.
  destruct (Z.ltb_spec ma 10), (Z.ltb_spec mb 10);
    repeat match goal with
           | |- context [?x <=? ?y] => destruct (Z.leb_spec x y)
           end; try lia.
Qed.

Lemma year_mono a b :
  a <= b -> fst (fst (JS.civilFromDays a)) <= fst (fst (JS.civilFromDays b)).
Proof.
  intros H. destruct (Z.eq_dec a b) as [->|Hne]; [lia|].
  assert (Hlt : a < b) by lia. apply civilFromDays_mono in Hlt.
  destruct (JS.civilFromDays a) as [[y1 m1] d1], (JS.civilFromDays b) as [[y2 m2] d2].
  simpl in *. lia.
Qed.

Lemma fourDigitYear_year z :
  fourDigitYear z -> 0 <= fst (fst (JS.civilFromDays z)) <= 9999.
Proof.
  intros [H1 H2]. split.
  - change 0 with (fst (fst (JS.civilFromDays (-719528)))). apply year_mono, H1.
  - change 9999 with (fst (fst (JS.civilFromDays 2932896))). apply year_mono, H2.
Qed.

Lemma digit_ltb (a b : Z) :
  0 <= a <= 9 -> 0 <= b <= 9 ->
  N.ltb (Z.to_N (48 + a)) (Z.to_N (48 + b)) = (a <? b).
Proof.
  intros Ha Hb. destruct (N.ltb_spec (Z.to_N (48 + a)) (Z.to_N (48 + b))),
    (Z.ltb_spec a b); auto; lia.
Qed.

Lemma ltb_cons (x y : N) (a b : jsstring) :
  JS.ltb (x :: a) (y :: b)
  = if N.ltb x y then true else if N.ltb y x then false else JS.ltb a b.
Proof. reflexivity. Qed.

Lemma padDigits_succ (w : nat) (n : Z) :
  JS.padDigits (S w) n = JS.padDigits w (n / 10) ++ [Z.to_N (48 + n mod 10)].
Proof. reflexivity. Qed.

Lemma padDigits_ltb (w : nat) :
  forall (a b : Z) (s t : jsstring),
    0 <= a < 10 ^ Z.of_nat w -> 0 <= b < 10 ^ Z.of_nat w ->
    JS.ltb (JS.padDigits w a ++ s) (JS.padDigits w b ++ t)
    = if a <? b then true else if b <? a then false else JS.ltb s t.
Proof.
  induction w as [|w IH]; intros a b s t Ha Hb.
  - simpl in *. assert (a = 0) by lia. assert (b = 0) by lia. subst. reflexivity.
  - rewrite Nat2Z.inj_succ, Z.pow_succ_r in Ha, Hb by lia.
    rewrite !padDigits_succ, <- !app_assoc.
    rewrite IH by (Z.div_mod_to_equations; lia).
    change ([Z.to_N (48 + a mod 10)] ++ s) with (Z.to_N (48 + a mod 10) :: s).
    change ([Z.to_N (48 + b mod 10)] ++ t) with (Z.to_N (48 + b mod 10) :: t).
    rewrite ltb_cons, !digit_ltb by (Z.div_mod_to_equations; lia).
    destruct (Z.ltb_spec (a / 10) (b / 10)), (Z.ltb_spec (b / 10) (a / 10)),
      (Z.ltb_spec (a mod 10) (b mod 10)), (Z.ltb_spec (b mod 10) (a mod 10)),
      (Z.ltb_spec a b), (Z.ltb_spec b a);
      try reflexivity; exfalso; Z.div_mod_to_equations; lia.
Qed.

Lemma isoDate_ltb (a b : Z) :
  fourDigitYear a -> fourDigitYear b ->
  JS.ltb (JS.isoDate a) (JS.isoDate b) = (a <? b).
Proof.
  intros Ha Hb.
  destruct (Z.eq_dec a b) as [->|Hne]; [rewrite ltb_irrefl, Z.ltb_irrefl; reflexivity|].
  pose proof (fourDigitYear_year a Ha) as Hya.
  pose proof (fourDigitYear_year b Hb) as Hyb.
  pose proof (civilFromDays_range a) as Hra.
  pose proof (civilFromDays_range b) as Hrb.
  assert (Hlt : forall x y, x < y -> civilLt (JS.civilFromDays x) (JS.civilFromDays y))
    by apply civilFromDays_mono.
  pose proof (Hlt a b) as Hab. pose proof (Hlt b a) as Hba.
  unfold JS.isoDate, JS.isoYear.
  destruct (JS.civilFromDays a) as [[y1 m1] d1], (JS.civilFromDays b) as [[y2 m2] d2].
  simpl in Hya, Hyb, Hab, Hba.
  assert (E1 : (0 <=? y1) && (y1 <=? 9999) = true)
    by (apply andb_true_iff; split; apply Z.leb_le; lia).
  assert (E2 : (0 <=? y2) && (y2 <=? 9999) = true)
    by (apply andb_true_iff; split; apply Z.leb_le; lia).
  rewrite E1, E2.
  rewrite (padDigits_ltb 4) by (change (10 ^ Z.of_nat 4) with 10000; lia).
  cbn [app]. rewrite ltb_cons, N.ltb_irrefl.
  rewrite (padDigits_ltb 2) by (change (10 ^ Z.of_nat 2) with 100; lia).
  rewrite ltb_cons, N.ltb_irrefl.
  rewrite <- (app_nil_r (JS.padDigits 2 d1)), <- (app_nil_r (JS.padDigits 2 d2)).
  rewrite (padDigits_ltb 2) by (change (10 ^ Z.of_nat 2) with 100; lia).
  change (JS.ltb [] []) with false.
  destruct (Z.ltb_spec y1 y2), (Z.ltb_spec y2 y1), (Z.ltb_spec m1 m2), (Z.ltb_spec m2 m1),
    (Z.ltb_spec d1 d2), (Z.ltb_spec d2 d1), (Z.ltb_spec a b);
    try reflexivity; exfalso; lia.
Qed.

(** A date names no property of [Object.prototype]: it has a hyphen.
    So the read of [languageStats.dates[currentDate]] finds an own count
    or [undefined]. *)
Lemma inheritedName_no_hyphen (k : jsstring) :
  JS.inheritedName k = true -> ~ In 45%N k.
Proof.
  intros H. apply inheritedName_In in H. unfold JS.objectPrototypeNames in H.
  repeat (destruct H as [<-|H]; [simpl; intuition discriminate|]). destruct H.
Qed.

Lemma isoDate_hyphen (day : Z) : In 45%N (JS.isoDate day).
Proof.
  unfold JS.isoDate. destruct (JS.civilFromDays day) as [[y m] d].
  apply in_or_app. right. left. reflexivity.
Qed.

Lemma isoDate_not_inherited (day : Z) : JS.inheritedName (JS.isoDate day) = false.
Proof.
  destruct (JS.inheritedName (JS.isoDate day)) eqn:E; [|reflexivity].
  exfalso. apply (inheritedName_no_hyphen _ E), isoDate_hyphen.
Qed.

Lemma getCurrentDateString_own {V : Type} (now : Z) (d : jsstring) (o : JS.object V) :
  getCurrentDateString now = Some d ->
  JS.read d o = match JS.get d o with Some v => JS.Own v | None => JS.Undefined end.
Proof.
  unfold getCurrentDateString, JS.toISODateString.
  destruct (JS.validTime now); [|discriminate]. intros [= <-].
  unfold JS.read. rewrite isoDate_not_inherited. reflexivity.
Qed.

End DateFacts.

(* ================================================================== *)
(** ** The pruning loops compute [prunedLanguages] *)
(* ================================================================== *)

Module PruneFacts.
Import JSFacts.

Lemma sumZ_app (l1 l2 : list Z) : sumZ (l1 ++ l2) = sumZ l1 + sumZ l2.
Proof. induction l1 as [|x l1 IH]; simpl; [reflexivity | rewrite IH; lia]. Qed.

Lemma sumZ_perm (l1 l2 : list Z) : Permutation l1 l2 -> sumZ l1 = sumZ l2.
Proof. induction 1; simpl; lia. Qed.

Lemma get_delete_other {V : Type} (k k' : jsstring) (o : JS.object V) :
  k <> k' -> JS.get k' (JS.delete k o) = JS.get k' o.
Proof.
  intros Hne. induction o as [|[k0 v0] o IH]; simpl; auto.
  destruct (JS.eqb k k0) eqn:E; simpl.
  - apply eqb_eq in E. subst k0.
    assert (E : JS.eqb k' k = false) by (apply eqb_neq; congruence).
    rewrite E. exact IH.
  - rewrite IH. reflexivity.
Qed.

Lemma get_delete_same {V : Type} (k : jsstring) (o : JS.object V) :
  JS.get k (JS.delete k o) = None.
Proof.
  apply get_None. unfold JS.delete. intros H.
  apply in_map_iff in H. destruct H as (e & <- & He).
  apply filter_In in He. destruct He as [_ He].
  rewrite eqb_refl in He. discriminate.
Qed.

Lemma delete_distinctKeys {V : Type} (k : jsstring) (o : JS.object V) :
  distinctKeys o -> distinctKeys (JS.delete k o).
Proof.
  unfold distinctKeys, JS.delete. induction o as [|[k0 v0] o IH]; simpl; auto.
  intros H. inversion H as [|? ? Hnot Hnd]; subst.
  destruct (JS.eqb k k0); simpl; auto.
  constructor; auto. intros Hin. apply Hnot.
  apply in_map_iff in Hin. destruct Hin as (e & E & He).
  apply filter_In in He. rewrite <- E. apply in_map, He.
Qed.

Lemma filter_filter {A : Type} (f g : A -> bool) (l : list A) :
  filter f (filter g l) = filter (fun x => g x && f x) l.
Proof.
  induction l as [|x l IH]; simpl; auto.
  destruct (g x); simpl; [destruct (f x)|]; rewrite IH; reflexivity.
Qed.

Lemma filter_all {A : Type} (f : A -> bool) (l : list A) :
  (forall x, In x l -> f x = true) -> filter f l = l.
Proof.
  induction l as [|x l IH]; simpl; intros H; auto.
  rewrite (H x) by auto. f_equal. apply IH. auto.
Qed.

Section Days.
Variable cutoff : jsstring.

Lemma dayTerm_delete (k k' : jsstring) (ds : JS.object Z) :
  JS.ltb k cutoff = true ->
  dayTerm cutoff (JS.delete k ds) k' = dayTerm cutoff ds k'.
Proof.
  intros Hk. unfold dayTerm.
  destruct (JS.ltb k' cutoff) eqn:E; auto.
  rewrite get_delete_other; auto. congruence.
Qed.

(** The inner loop after any list of visited keys. *)
Lemma pruneDates_fold (ks : list jsstring) :
  forall (ds : JS.object Z) (t : Z),
    fold_left
      (fun '(ds', totalCount) date =>
         if JS.ltb date cutoff
         then (JS.delete date ds', totalCount)
         else (ds', totalCount + numberOf (JS.get date ds')))
      ks (ds, t)
    = (filter (fun e => negb (JS.Array_includes ks (fst e) && JS.ltb (fst e) cutoff)) ds,
       t + sumZ (map (dayTerm cutoff ds) ks)).
Proof.
  induction ks as [|k ks IH]; intros ds t; simpl.
  - f_equal; [|lia]. symmetry. apply filter_all. reflexivity.
  - destruct (JS.ltb k cutoff) eqn:Ek; rewrite IH; f_equal.
    + unfold JS.delete. rewrite filter_filter. apply filter_ext.
      intros [k0 v0]; simpl.
      destruct (JS.eqb k0 k) eqn:E.
      * apply eqb_eq in E. subst k0. rewrite eqb_refl. simpl. rewrite Ek. reflexivity.
      * rewrite eqb_sym, E. reflexivity.
    + unfold dayTerm at 2. rewrite Ek.
      rewrite (map_ext (dayTerm cutoff (JS.delete k ds)) (dayTerm cutoff ds)); [lia|].
      intros k'. apply dayTerm_delete, Ek.
    + apply filter_ext. intros [k0 v0]; simpl.
      destruct (JS.eqb k0 k) eqn:E; simpl; auto.
      apply eqb_eq in E. subst k0. rewrite Ek. rewrite andb_false_r. reflexivity.
    + unfold dayTerm at 2. rewrite Ek. lia.
Qed.

Lemma sum_dayTerm (ds : JS.object Z) :
  distinctKeys ds ->
  sumZ (map (dayTerm cutoff ds) (map fst ds)) =
  sumCounts (filter (notExpired cutoff) ds).
Proof.
  intros Hnd.
  assert (H : forall l, (forall e, In e l -> In e ds) ->
            sumZ (map (dayTerm cutoff ds) (map fst l)) =
            sumCounts (filter (notExpired cutoff) l)).
  { induction l as [|[k v] l IH]; intros Hsub; simpl; auto.
    unfold notExpired at 1. simpl. unfold dayTerm at 1.
    rewrite (In_get k v ds Hnd) by (apply Hsub; simpl; auto).
    rewrite IH by (intros; apply Hsub; simpl; auto).
    destruct (JS.ltb k cutoff); simpl; reflexivity. }
  apply H. auto.
Qed.

Lemma pruneDates_spec (ds : JS.object Z) :
  distinctKeys ds ->
  pruneDates cutoff ds =
  (filter (notExpired cutoff) ds, sumCounts (filter (notExpired cutoff) ds)).
Proof.
  intros Hnd. unfold pruneDates, JS.forIn. rewrite pruneDates_fold. f_equal.
  - apply filter_ext_in. intros [k v] Hin. unfold notExpired. simpl.
    assert (E : JS.Array_includes (JS.keys ds) k = true).
    { apply Array_includes_In, keys_In. change k with (fst (k, v)). apply in_map, Hin. }
    rewrite E. reflexivity.
  - rewrite (sumZ_perm _ (map (dayTerm cutoff ds) (map fst ds))).
    + rewrite sum_dayTerm by assumption. lia.
    + apply Permutation_map, keys_perm.
Qed.

(** Whatever the keys, only days that are not expired survive. *)
Lemma pruneDates_survivors (ds : JS.object Z) (e : jsstring * Z) :
  In e (fst (pruneDates cutoff ds)) -> In e ds /\ notExpired cutoff e = true.
Proof.
  unfold pruneDates, JS.forIn. rewrite pruneDates_fold. simpl.
  rewrite filter_In. intros [Hin H]. split; auto.
  assert (E : JS.Array_includes (JS.keys ds) (fst e) = true).
  { apply Array_includes_In, keys_In. apply in_map, Hin. }
  rewrite E in H. exact H.
Qed.

End Days.

Lemma set_as_map {V : Type} (k : jsstring) (v : V) (o : JS.object V) :
  distinctKeys o -> In k (map fst o) ->
  JS.set k v o = map (fun e => if JS.eqb k (fst e) then (fst e, v) else e) o.
Proof.
  unfold distinctKeys. induction o as [|[k0 v0] o IH]; simpl; [tauto|].
  intros Hnd Hin. inversion Hnd as [|? ? Hnot Hnd']; subst.
  destruct (JS.eqb k k0) eqn:E.
  - apply eqb_eq in E. subst k0. f_equal.
    rewrite <- (map_id o) at 1. apply map_ext_in.
    intros [k1 v1] H1. simpl.
    destruct (JS.eqb k k1) eqn:E1; auto.
    apply eqb_eq in E1. subst k1. exfalso. apply Hnot.
    change k with (fst (k, v1)). apply in_map, H1.
  - f_equal. apply IH; auto. destruct Hin as [->|H]; auto.
    rewrite eqb_refl in E. discriminate.
Qed.

Lemma fold_delete {V : Type} (rm : list jsstring) :
  forall o : JS.object V,
    fold_left (fun o language => JS.delete language o) rm o
    = filter (fun e => negb (JS.Array_includes rm (fst e))) o.
Proof.
  induction rm as [|k rm IH]; intros o; simpl.
  - symmetry. apply filter_all. reflexivity.
  - rewrite IH. unfold JS.delete. rewrite filter_filter. apply filter_ext.
    intros [k0 v0]. simpl. rewrite (eqb_sym k0 k), negb_orb. reflexivity.
Qed.

Section Languages.
Variable cutoff : jsstring.

#[local] Abbreviation loopStats := (loopStats cutoff).
#[local] Abbreviation isEmptied := (isEmptied cutoff).

Lemma pruneLanguages_fold (ks : list jsstring) :
  forall (ls : JS.object LanguageStats) (rm : list jsstring),
    NoDup ks -> distinctKeys ls ->
    fold_left
      (fun '(ls', languagesToRemove) language =>
         match JS.get language ls' with
         | None => (ls', languagesToRemove)
         | Some languageStats =>
             let '(ds, totalCount) := pruneDates cutoff (dates languageStats) in
             let ls'' := JS.set language (mkLanguageStats totalCount ds) ls' in
             if totalCount =? 0
             then (ls'', languagesToRemove ++ [language])
             else (ls'', languagesToRemove)
         end)
      ks (ls, rm)
    = (map (fun e => if JS.Array_includes ks (fst e)
                     then (fst e, loopStats (snd e)) else e) ls,
       rm ++ filter (isEmptied ls) ks).
Proof.
  induction ks as [|k ks IH]; intros ls rm Hks Hls; simpl.
  - rewrite app_nil_r. f_equal. symmetry. apply map_id.
  - inversion Hks as [|? ? Hk Hks']; subst.
    assert (Hother : forall v, filter (isEmptied (JS.set k v ls)) ks = filter (isEmptied ls) ks).
    { intros v. apply filter_ext_in. intros k' Hk'. unfold isEmptied.
      rewrite get_set_other; auto. congruence. }
    destruct (JS.get k ls) as [s|] eqn:Eg.
    + destruct (pruneDates cutoff (dates s)) as [ds t] eqn:Ep.
      assert (El : loopStats s = mkLanguageStats t ds)
        by (unfold loopStats; rewrite Ep; reflexivity).
      assert (Em : map (fun e => if JS.Array_includes ks (fst e)
                                 then (fst e, loopStats (snd e)) else e)
                     (JS.set k (mkLanguageStats t ds) ls)
                   = map (fun e => if JS.eqb (fst e) k || JS.Array_includes ks (fst e)
                                   then (fst e, loopStats (snd e)) else e) ls).
      { rewrite set_as_map by (auto; eapply get_Some_key; eauto).
        rewrite map_map. apply map_ext_in. intros [k0 s0] H0. simpl.
        destruct (JS.eqb k k0) eqn:E; simpl.
        - apply eqb_eq in E. subst k0. rewrite eqb_refl. simpl.
          assert (Ek : JS.Array_includes ks k = false)
            by (apply Array_includes_not_In; exact Hk).
          rewrite Ek. rewrite (In_get k s0 ls Hls H0) in Eg. injection Eg as ->.
          rewrite El. reflexivity.
        - rewrite eqb_sym, E. reflexivity. }
      assert (Hz : isEmptied ls k = (t =? 0))
        by (unfold isEmptied; rewrite Eg, El; reflexivity).
      rewrite Hz.
      destruct (t =? 0); rewrite IH by (auto using set_distinctKeys);
        rewrite Em, Hother; [rewrite <- app_assoc|]; reflexivity.
    + assert (Hz : isEmptied ls k = false) by (unfold isEmptied; rewrite Eg; reflexivity).
      rewrite Hz, IH by auto. f_equal. apply map_ext_in. intros [k0 s0] H0. simpl.
      destruct (JS.eqb k0 k) eqn:E; auto.
      apply eqb_eq in E. subst k0. apply get_None in Eg. exfalso. apply Eg.
      change k with (fst (k, s0)). apply in_map, H0.
Qed.

Lemma loopStats_spec (s : LanguageStats) :
  distinctKeys (dates s) -> loopStats s = prunedStats cutoff s.
Proof.
  intros H. unfold loopStats, prunedStats. rewrite pruneDates_spec by exact H. reflexivity.
Qed.

(** The two loops of [cleanupExpiredStatistics] over a well-formed store. *)
Lemma pruneLanguages_delete_spec (ls : JS.object LanguageStats) :
  distinctKeys ls ->
  Forall (fun e => distinctKeys (dates (snd e))) ls ->
  (let '(ls', languagesToRemove) := pruneLanguages cutoff ls in
   fold_left (fun o language => JS.delete language o) languagesToRemove ls')
  = prunedLanguages cutoff ls.
Proof.
  intros Hls Hds. unfold pruneLanguages, JS.forIn.
  rewrite pruneLanguages_fold by (auto using keys_NoDup).
  rewrite fold_delete. simpl. unfold prunedLanguages.
  rewrite Forall_forall in Hds.
  assert (Em : map (fun e => if JS.Array_includes (JS.keys ls) (fst e)
                             then (fst e, loopStats (snd e)) else e) ls
               = map (fun e => (fst e, prunedStats cutoff (snd e))) ls).
  { apply map_ext_in. intros e He.
    assert (E : JS.Array_includes (JS.keys ls) (fst e) = true)
      by (apply Array_includes_In, keys_In, in_map, He).
    rewrite E, loopStats_spec by (apply Hds, He). reflexivity. }
  rewrite Em. apply filter_ext_in. intros e' He'.
  apply in_map_iff in He'. destruct He' as ([k s] & <- & He). simpl in *.
  f_equal.
  destruct (JS.Array_includes (filter (isEmptied ls) (JS.keys ls)) k) eqn:E.
  - apply Array_includes_In, filter_In in E. destruct E as [_ E].
    unfold isEmptied in E. rewrite (In_get k s ls Hls He) in E.
    rewrite loopStats_spec in E by (apply (Hds _ He)). symmetry. exact E.
  - apply Array_includes_not_In in E. symmetry.
    destruct (totalCount (prunedStats cutoff s) =? 0) eqn:Ez; auto.
    exfalso. apply E, filter_In. split.
    + apply keys_In. change k with (fst (k, s)). apply in_map, He.
    + unfold isEmptied. rewrite (In_get k s ls Hls He).
      rewrite loopStats_spec by (apply (Hds _ He)). exact Ez.
Qed.

End Languages.

Lemma cleanupExpiredStatistics_spec (now : Z) (p : Plugin) :
  wellFormed (statistics p) ->
  cleanupExpiredStatistics now p =
  match cutoffDateString now p with
  | None => Thrown p
  | Some c =>
      Returned (updateFrequencyOrder
                  (withLanguages (prunedLanguages c (languages (statistics p))) p))
  end.
Proof.
  intros [Hls Hds]. unfold cleanupExpiredStatistics, cutoffDateString.
  destruct (JS.toISODateString _) as [c|]; auto.
  rewrite <- (pruneLanguages_delete_spec c _ Hls Hds).
  destruct (pruneLanguages c (languages (statistics p))). reflexivity.
Qed.

End PruneFacts.

(* ================================================================== *)
(** ** Facts about the ordering *)
(* ================================================================== *)

Module OrderingFacts.
Import JSFacts PruneFacts.

Section WithCaseMapping.
Context {CM : CaseMapping}.

Lemma languageUpdate_noQuery (p : Plugin) (cands : list jsstring) (value : option jsstring) :
  cachesCurrent p -> noQuery value ->
  languageUpdate p cands value =
  match sortMode (config p) with
  | custom =>
      customOrderTokens p
      ++ JS.sort
           (filter (fun lang => negb (JS.Array_includes (customOrderTokens p) lang))
              (otherCustomTokens p)
            ++ filter (fun lang => negb (JS.Array_includes (customOrderTokens p) lang)
                                   && negb (JS.Array_includes (otherCustomTokens p) lang)
                                   && negb (JS.Array_includes (excludedTokens p) lang))
                 cands)
  | frequency =>
      topFrequencyLanguages p
      ++ JS.sort
           (filter (fun lang => negb (JS.Array_includes (topFrequencyLanguages p) lang))
              (otherCustomTokens p)
            ++ filter (fun lang => negb (JS.Array_includes (topFrequencyLanguages p) lang)
                                   && negb (JS.Array_includes (otherCustomTokens p) lang)
                                   && negb (JS.Array_includes (excludedTokens p) lang))
                 cands)
  end.
Proof.
  intros (Hc & Ho & He) Hq. unfold languageUpdate, topFrequencyLanguages.
  rewrite Hc, Ho, He. destruct Hq as [-> | ->]; reflexivity.
Qed.

Lemma languageUpdate_query (p : Plugin) (cands : list jsstring) (c : N) (v : jsstring) :
  cachesCurrent p ->
  languageUpdate p cands (Some (c :: v)) =
  JS.sortWith (matchCompare (toLowerCase (c :: v)))
    (filter (fun item => JS.includes (toLowerCase item) (toLowerCase (c :: v)))
       (matchPool p cands)).
Proof.
  intros (Hc & Ho & He). unfold languageUpdate, matchPool.
  rewrite Hc, Ho, He. destruct (sortMode (config p)); reflexivity.
Qed.

(** The search comparator is a total preorder. *)
Lemma matchCompare_trans (q x y z : jsstring) :
  matchCompare q x y <= 0 -> matchCompare q y z <= 0 -> matchCompare q x z <= 0.
Proof.
  unfold matchCompare.
  destruct (JS.startsWith (toLowerCase x) q), (JS.startsWith (toLowerCase y) q),
    (JS.startsWith (toLowerCase z) q); simpl; lia.
Qed.

Lemma matchCompare_total (q x y : jsstring) :
  matchCompare q x y <= 0 \/ matchCompare q y x <= 0.
Proof.
  unfold matchCompare.
  destruct (JS.startsWith (toLowerCase x) q), (JS.startsWith (toLowerCase y) q);
    simpl; lia.
Qed.

End WithCaseMapping.

(** Membership in the candidate filters. *)
Lemma In_filter_not_includes (l1 l : list jsstring) (x : jsstring) :
  In x (filter (fun lang => negb (JS.Array_includes l1 lang)) l) <-> In x l /\ ~ In x l1.
Proof.
  rewrite filter_In, negb_true_iff, Array_includes_not_In. tauto.
Qed.

Lemma In_filter_candidates (l1 l2 l3 l : list jsstring) (x : jsstring) :
  In x (filter (fun lang => negb (JS.Array_includes l1 lang)
                            && negb (JS.Array_includes l2 lang)
                            && negb (JS.Array_includes l3 lang)) l)
  <-> In x l /\ ~ In x l1 /\ ~ In x l2 /\ ~ In x l3.
Proof.
  rewrite filter_In, !andb_true_iff, !negb_true_iff, !Array_includes_not_In. tauto.
Qed.

Lemma In_filter_candidates2 (l2 l3 l : list jsstring) (x : jsstring) :
  In x (filter (fun lang => negb (JS.Array_includes l2 lang)
                            && negb (JS.Array_includes l3 lang)) l)
  <-> In x l /\ ~ In x l2 /\ ~ In x l3.
Proof.
  rewrite filter_In, !andb_true_iff, !negb_true_iff, !Array_includes_not_In. tauto.
Qed.

Lemma StronglySorted_filter {A : Type} (R : A -> A -> Prop) (f : A -> bool) (l : list A) :
  StronglySorted R l -> StronglySorted R (filter f l).
Proof.
  induction 1 as [|x l Hs IH Hall]; simpl; [constructor|].
  destruct (f x); auto. constructor; auto.
  rewrite Forall_forall in *. intros y Hy. apply filter_In in Hy. apply Hall, Hy.
Qed.

Lemma StronglySorted_weaken {A : Type} (R R' : A -> A -> Prop) (l : list A) :
  (forall x y, In x l -> In y l -> R x y -> R' x y) ->
  StronglySorted R l -> StronglySorted R' l.
Proof.
  intros H Hs. induction Hs as [|x l Hs IH Hall]; constructor.
  - apply IH. intros; apply H; simpl; auto.
  - rewrite Forall_forall in *. intros y Hy. apply H; simpl; auto.
Qed.

Lemma cachesCurrent_onload (c : option Config) (s : option Statistics) :
  cachesCurrent (onload c s).
Proof. repeat split. Qed.

End OrderingFacts.

(* ================================================================== *)
(** ** Facts about the canonicaliser *)
(* ================================================================== *)

Module CanonFacts.
Import JSFacts.

Lemma replaceEach_In (m : N -> bool) (by_ s : jsstring) (c : N) :
  In c (JS.replaceEach m by_ s) -> In c by_ \/ (In c s /\ m c = false).
Proof.
  unfold JS.replaceEach. rewrite in_flat_map. intros (x & Hx & Hc).
  destruct (m x) eqn:E; auto.
  destruct Hc as [<-|[]]. auto.
Qed.

Lemma escapeHtml_In (s : jsstring) (c : N) :
  In c (escapeHtml s) -> In c (js "&lt;") \/ In c (js "&amp;") \/ (In c s /\ c <> 60%N /\ c <> 38%N).
Proof.
  unfold escapeHtml. destruct s as [|x s]; [intros []|].
  intros H. apply replaceEach_In in H. destruct H as [H|[H Hlt]]; [auto|].
  apply replaceEach_In in H. destruct H as [H|[H Hamp]]; [auto|].
  right; right. split; [exact H|].
  split; intros ->; discriminate.
Qed.

Lemma parseLanguagesInput_unfold (input : jsstring) :
  parseLanguagesInput (Some input) =
  match input with
  | [] => []
  | _ => filter (fun lang => JS.length lang >? 0)
           (map canonicalSegment (firstn 300 (JS.split 44 input)))
  end.
Proof. destruct input; reflexivity. Qed.

(** A token has no space, no backtick and no [<], and is not empty. *)
Lemma parseLanguagesInput_token (input : option jsstring) (t : jsstring) :
  In t (parseLanguagesInput input) ->
  t <> [] /\ ~ In 32%N t /\ ~ In 96%N t /\ ~ In 60%N t.
Proof.
  destruct input as [input|]; [|intros []].
  rewrite parseLanguagesInput_unfold. destruct input as [|c0 input]; [intros []|].
  rewrite filter_In, in_map_iff. intros [(part & <- & _) Hlen].
  split.
  { intros E. rewrite E in Hlen. discriminate. }
  assert (Hchar : forall c, In c (canonicalSegment part) ->
            In c (js "&lt;") \/ In c (js "&amp;") \/ In c (js "_")
            \/ (c <> 60%N /\ c <> 38%N /\ backtickOrSpace c = false)).
  { intros c Hc. unfold canonicalSegment in Hc.
    apply escapeHtml_In in Hc. destruct Hc as [H|[H|(H & H1 & H2)]]; auto.
    apply replaceEach_In in H. destruct H as [H|[_ H]]; auto 6. }
  repeat split; intros H; apply Hchar in H; simpl in H;
    intuition (try discriminate; try congruence).
Qed.


End CanonFacts.

(* ================================================================== *)
(** ** Facts about the statistics and the settings *)
(* ================================================================== *)

Module StatisticsFacts.
Import JSFacts DateFacts PruneFacts OrderingFacts.

Ltac distinct_keys :=
  unfold distinctKeys; simpl;
  repeat (apply NoDup_cons; [simpl; intuition discriminate|]); apply NoDup_nil.

Lemma set_set {V : Type} (k : jsstring) (v v' : V) (o : JS.object V) :
  JS.set k v' (JS.set k v o) = JS.set k v' o.
Proof.
  induction o as [|[k0 v0] o IH]; simpl.
  - rewrite eqb_refl. reflexivity.
  - destruct (JS.eqb k k0) eqn:E; simpl; rewrite E; [reflexivity | f_equal; exact IH].
Qed.

Lemma set_In {V : Type} (k : jsstring) (v : V) (o : JS.object V) (e : jsstring * V) :
  In e (JS.set k v o) -> e = (k, v) \/ In e o.
Proof.
  induction o as [|[k0 v0] o IH]; simpl.
  - intros [<-|[]]; auto.
  - destruct (JS.eqb k k0) eqn:E; simpl.
    + apply eqb_eq in E. subst k0. intros [<-|H]; auto.
    + intros [<-|H]; auto. destruct (IH H); auto.
Qed.

Lemma set_Forall {V : Type} (P : jsstring * V -> Prop) (k : jsstring) (v : V)
    (o : JS.object V) :
  Forall P o -> P (k, v) -> Forall P (JS.set k v o).
Proof.
  intros Ho Hv. rewrite Forall_forall in *. intros e He.
  destruct (set_In _ _ _ _ He) as [->|H]; auto.
Qed.

Lemma get_Forall {V : Type} (P : jsstring * V -> Prop) (k : jsstring) (v : V)
    (o : JS.object V) :
  Forall P o -> JS.get k o = Some v -> P (k, v).
Proof.
  intros Ho Hg. rewrite Forall_forall in Ho. apply Ho, get_In, Hg.
Qed.

(** Adding one to the count of a day adds one to the sum, whether the
    day was stored or is created. *)
Lemma sumCounts_set_increment (d : jsstring) (ds : JS.object Z) :
  sumCounts (JS.set d (numberOf (JS.get d ds) + 1) ds) = sumCounts ds + 1.
Proof.
  unfold sumCounts. induction ds as [|[k n] ds IH]; simpl; auto.
  destruct (JS.eqb d k) eqn:E; simpl; [lia|].
  rewrite IH. lia.
Qed.

Lemma sumZ_positive (l : list Z) :
  Forall (fun n => 0 < n) l -> l <> [] -> 0 < sumZ l.
Proof.
  induction 1 as [|x l Hx Hl IH]; [congruence|]. intros _. simpl.
  destruct l as [|y l]; [simpl; lia|].
  assert (0 < sumZ (y :: l)) by (apply IH; discriminate). lia.
Qed.

Lemma updateFrequencyOrder_languages (p : Plugin) :
  languages (statistics (updateFrequencyOrder p)) = languages (statistics p).
Proof. reflexivity. Qed.

Lemma updateFrequencyOrder_perm (p : Plugin) :
  Permutation (frequencyOrder (statistics (updateFrequencyOrder p)))
    (map fst (languages (statistics p))).
Proof.
  unfold updateFrequencyOrder. simpl. rewrite sortWith_perm. apply keys_perm.
Qed.

(** The ranking is by non-increasing total. *)
Lemma updateFrequencyOrder_sorted (p : Plugin) :
  let ls := languages (statistics p) in
  StronglySorted (fun a b => totalCountOf ls b <= totalCountOf ls a)
    (frequencyOrder (statistics (updateFrequencyOrder p))).
Proof.
  intros ls. unfold updateFrequencyOrder. simpl. fold ls.
  eapply StronglySorted_weaken;
    [|apply (sortWith_sorted (fun a b => totalCountOf ls b - totalCountOf ls a))].
  - intros x y _ _ H. unfold JS.cmpLe in H. lia.
  - unfold JS.cmpLe. intros x y z. lia.
  - unfold JS.cmpLe. intros x y. lia.
Qed.

Lemma orderCurrent_sorted (s : Statistics) :
  orderCurrent s ->
  StronglySorted (fun a b => totalCountOf (languages s) b <= totalCountOf (languages s) a)
    (frequencyOrder s).
Proof.
  intros H. rewrite H.
  apply (updateFrequencyOrder_sorted (mkPlugin (mkConfig frequency [] 0 0 [] [])
           (mkConfig frequency [] 0 0 [] []) s [] [] [] None None)).
Qed.

Lemma recorded_languages (d language : jsstring) (p : Plugin) :
  languages (statistics (recorded d language p)) =
  let old := statsBefore (languages (statistics p)) language in
  JS.set language
    (mkLanguageStats (totalCount old + 1)
       (JS.set d (numberOf (JS.get d (dates old)) + 1) (dates old)))
    (languages (statistics p)).
Proof. reflexivity. Qed.

Lemma recorded_frequencyOrder (d language : jsstring) (p : Plugin) :
  let ls := languages (statistics (recorded d language p)) in
  frequencyOrder (statistics (recorded d language p)) =
  JS.sortWith (fun a b => totalCountOf ls b - totalCountOf ls a) (JS.keys ls).
Proof. reflexivity. Qed.

Lemma recorded_config (d language : jsstring) (p : Plugin) :
  config (recorded d language p) = config p.
Proof. reflexivity. Qed.

(** The guarded block is [recorded], unless it raises: for an invalid
    clock reading, or for a language that cannot be recorded. *)
Lemma recordLanguage_spec (now : Z) (language : jsstring) (p : Plugin) :
  recordLanguage now language p =
  match getCurrentDateString now with
  | None => Thrown p
  | Some d => if recordable language p then Returned (recorded d language p) else Thrown p
  end.
Proof.
  unfold recordLanguage, recordable, recorded, statsBefore, JS.read.
  destruct (getCurrentDateString now) as [d|]; [|reflexivity].
  destruct (JS.get language (languages (statistics p))) as [st|] eqn:E.
  - rewrite E. reflexivity.
  - destruct (JS.inheritedName language) eqn:Ei.
    + rewrite E. reflexivity.
    + rewrite get_set_same. cbn [dates totalCount]. rewrite set_set. reflexivity.
Qed.

Lemma recordLanguage_returns (now : Z) (language : jsstring) (p : Plugin) :
  JS.validTime now = true -> recordable language p = true ->
  recordLanguage now language p
  = Returned (recorded (JS.isoDate (now / JS.msPerDay)) language p).
Proof.
  intros Hn Hr. rewrite recordLanguage_spec.
  unfold getCurrentDateString, JS.toISODateString. rewrite Hn, Hr. reflexivity.
Qed.


Lemma recordLanguage_Returned (now : Z) (language : jsstring) (p q : Plugin) :
  recordLanguage now language p = Returned q <->
  JS.validTime now = true /\ recordable language p = true
  /\ q = recorded (JS.isoDate (now / JS.msPerDay)) language p.
Proof.
  rewrite recordLanguage_spec. unfold getCurrentDateString, JS.toISODateString.
  destruct (JS.validTime now); destruct (recordable language p); split;
    try discriminate;
    try (intros E; injection E as <-; auto);
    try (intros (_ & _ & ->); reflexivity);
    intros (H1 & H2 & _); discriminate.
Qed.

Lemma statsBefore_Forall (P : jsstring * LanguageStats -> Prop)
    (ls : JS.object LanguageStats) (language : jsstring) :
  Forall P ls -> P (language, mkLanguageStats 0 []) -> P (language, statsBefore ls language).
Proof.
  intros Hls H0. unfold statsBefore.
  destruct (JS.get language ls) eqn:E; [eapply get_Forall; eauto | exact H0].
Qed.

Lemma recorded_countsConsistent (d language : jsstring) (p : Plugin) :
  countsConsistent (statistics p) ->
  countsConsistent (statistics (recorded d language p)).
Proof.
  unfold countsConsistent. intros H. rewrite recorded_languages. simpl.
  apply set_Forall; [exact H|]. simpl.
  rewrite sumCounts_set_increment. f_equal.
  apply (statsBefore_Forall
           (fun e => totalCount (snd e) = sumCounts (dates (snd e))));
    [exact H | reflexivity].
Qed.

Lemma recorded_wellFormed (d language : jsstring) (p : Plugin) :
  wellFormed (statistics p) -> wellFormed (statistics (recorded d language p)).
Proof.
  intros [Hk Hd]. unfold wellFormed. rewrite recorded_languages. simpl. split.
  - apply set_distinctKeys, Hk.
  - apply set_Forall; [exact Hd|]. simpl. apply set_distinctKeys.
    apply (statsBefore_Forall (fun e => distinctKeys (dates (snd e))));
      [exact Hd | constructor].
Qed.

Lemma recorded_positiveCounts (d language : jsstring) (p : Plugin) :
  positiveCounts (statistics p) ->
  positiveCounts (statistics (recorded d language p)).
Proof.
  unfold positiveCounts. intros H. rewrite recorded_languages. simpl.
  apply set_Forall; [exact H|]. simpl.
  assert (Hold : Forall (fun e => 0 < snd e)
                   (dates (statsBefore (languages (statistics p)) language))).
  { apply (statsBefore_Forall (fun e => Forall (fun d => 0 < snd d) (dates (snd e))));
      [exact H | constructor]. }
  apply set_Forall; [exact Hold|]. simpl.
  destruct (JS.get d (dates (statsBefore (languages (statistics p)) language))) eqn:E;
    simpl; [|lia].
  pose proof (get_Forall _ _ _ _ Hold E) as Hz. simpl in Hz. lia.
Qed.

(** What recording leaves for the selected language. *)
Lemma recorded_entry (d language : jsstring) (p : Plugin) :
  let old := statsBefore (languages (statistics p)) language in
  exists s',
    JS.get language (languages (statistics (recorded d language p))) = Some s'
    /\ totalCount s' = totalCount old + 1
    /\ JS.get d (dates s') = Some (numberOf (JS.get d (dates old)) + 1)
    /\ (forall d', d' <> d -> JS.get d' (dates s') = JS.get d' (dates old))
    /\ sumCounts (dates s') = sumCounts (dates old) + 1.
Proof.
  intros old. eexists. rewrite recorded_languages, get_set_same.
  split; [reflexivity|]. simpl.
  split; [reflexivity|]. split; [apply get_set_same|].
  split; [intros d' Hd; apply get_set_other; congruence|].
  apply sumCounts_set_increment.
Qed.

Lemma prunedLanguages_In (c : jsstring) (ls : JS.object LanguageStats)
    (l : jsstring) (s' : LanguageStats) :
  In (l, s') (prunedLanguages c ls) <->
  exists s, In (l, s) ls /\ s' = prunedStats c s /\ totalCount s' <> 0.
Proof.
  unfold prunedLanguages. rewrite filter_In, in_map_iff. simpl.
  rewrite negb_true_iff, Z.eqb_neq. split.
  - intros [([l0 s] & E & Hin) Hz]. simpl in E. injection E as -> <-.
    exists s. auto.
  - intros (s & Hin & -> & Hz). split; auto. exists (l, s). auto.
Qed.

Lemma prunedLanguages_keys (c : jsstring) (ls : JS.object LanguageStats) (l : jsstring) :
  In l (map fst (prunedLanguages c ls)) -> In l (map fst ls).
Proof.
  intros H. apply in_map_iff in H. destruct H as ([l0 s'] & <- & Hin).
  apply prunedLanguages_In in Hin. destruct Hin as (s & Hin & _).
  simpl. change l0 with (fst (l0, s)). apply in_map, Hin.
Qed.

Lemma filter_distinctKeys {V : Type} (f : jsstring * V -> bool) (o : JS.object V) :
  distinctKeys o -> distinctKeys (filter f o).
Proof.
  unfold distinctKeys. induction o as [|[k v] o IH]; simpl; auto.
  intros H. inversion H as [|? ? Hnot Hnd]; subst.
  destruct (f (k, v)); simpl; auto.
  constructor; auto. intros Hin. apply Hnot.
  apply in_map_iff in Hin. destruct Hin as (e & E & He).
  apply filter_In in He. rewrite <- E. apply in_map, He.
Qed.

Lemma prunedLanguages_distinctKeys (c : jsstring) (ls : JS.object LanguageStats) :
  distinctKeys ls -> distinctKeys (prunedLanguages c ls).
Proof.
  intros H. unfold prunedLanguages. apply filter_distinctKeys.
  unfold distinctKeys. rewrite map_map. simpl. exact H.
Qed.

Lemma prunedLanguages_wellFormed (c : jsstring) (fo fo' : list jsstring)
    (ls : JS.object LanguageStats) :
  wellFormed (mkStatistics fo ls) -> wellFormed (mkStatistics fo' (prunedLanguages c ls)).
Proof.
  intros [Hk Hd]. simpl in *. split; simpl.
  - apply prunedLanguages_distinctKeys, Hk.
  - rewrite Forall_forall in *. intros [l s'] Hin.
    apply prunedLanguages_In in Hin. destruct Hin as (s & Hin & -> & _).
    simpl. apply filter_distinctKeys. apply (Hd _ Hin).
Qed.

Lemma prunedLanguages_countsConsistent (c : jsstring) (fo : list jsstring)
    (ls : JS.object LanguageStats) :
  countsConsistent (mkStatistics fo (prunedLanguages c ls)).
Proof.
  unfold countsConsistent. simpl. rewrite Forall_forall. intros [l s'] Hin.
  apply prunedLanguages_In in Hin. destruct Hin as (s & _ & -> & _). reflexivity.
Qed.

Lemma prunedLanguages_positiveCounts (c : jsstring) (fo fo' : list jsstring)
    (ls : JS.object LanguageStats) :
  positiveCounts (mkStatistics fo ls) ->
  positiveCounts (mkStatistics fo' (prunedLanguages c ls)).
Proof.
  unfold positiveCounts. simpl. intros H. rewrite Forall_forall in *.
  intros [l s'] Hin. apply prunedLanguages_In in Hin. destruct Hin as (s & Hin & -> & _).
  simpl. specialize (H _ Hin). simpl in H. rewrite Forall_forall in *.
  intros e He. apply filter_In in He. apply H, He.
Qed.

(** What [cleanupExpiredStatistics] returns, field by field. *)
Lemma cleanupExpiredStatistics_returns (now : Z) (p : Plugin) (c : jsstring) :
  wellFormed (statistics p) ->
  cutoffDateString now p = Some c ->
  exists p',
    cleanupExpiredStatistics now p = Returned p'
    /\ languages (statistics p') = prunedLanguages c (languages (statistics p))
    /\ frequencyOrder (statistics p') =
         JS.sortWith (fun a b => totalCountOf (languages (statistics p')) b
                                 - totalCountOf (languages (statistics p')) a)
           (JS.keys (languages (statistics p')))
    /\ config p' = config p /\ tempConfig p' = tempConfig p
    /\ cachedCustomOrderLanguages p' = cachedCustomOrderLanguages p
    /\ cachedOtherCustomLanguages p' = cachedOtherCustomLanguages p
    /\ cachedExcludedLanguages p' = cachedExcludedLanguages p
    /\ savedConfig p' = savedConfig p /\ savedStatistics p' = savedStatistics p.
Proof.
  intros Hwf Hc. rewrite cleanupExpiredStatistics_spec by exact Hwf. rewrite Hc.
  eexists. split; [reflexivity|]. repeat split.
Qed.

Lemma cleanupExpiredStatistics_throws (now : Z) (p : Plugin) :
  cutoffDateString now p = None -> cleanupExpiredStatistics now p = Thrown p.
Proof.
  unfold cleanupExpiredStatistics, cutoffDateString. intros ->. reflexivity.
Qed.

Lemma toISODateString_defined (t : Z) :
  JS.validTime t = true -> exists d, JS.toISODateString t = Some d.
Proof.
  intros H. unfold JS.toISODateString. rewrite H. eexists; reflexivity.
Qed.

(** The cutoff day is the day of the clock reading minus the window. *)
Lemma cutoffDateString_day (now : Z) (p : Plugin) (c : jsstring) :
  cutoffDateString now p = Some c ->
  c = JS.isoDate (now / JS.msPerDay - frequencyDaysRange (config p)).
Proof.
  unfold cutoffDateString, JS.toISODateString.
  destruct (JS.validTime _); [|discriminate]. intros [= <-]. f_equal.
  replace (now - frequencyDaysRange (config p) * 24 * 60 * 60 * 1000)
    with (now + (- frequencyDaysRange (config p)) * JS.msPerDay)
    by (unfold JS.msPerDay; lia).
  rewrite Z.div_add by (unfold JS.msPerDay; lia). lia.
Qed.

(** A day key that is the date of day [n] is below the cutoff exactly
    when [n] is before the cutoff day. *)
Lemma cutoffDateString_expired (now : Z) (p : Plugin) (c : jsstring) (n : Z) :
  cutoffDateString now p = Some c ->
  fourDigitYear (now / JS.msPerDay - frequencyDaysRange (config p)) ->
  fourDigitYear n ->
  JS.ltb (JS.isoDate n) c = (n <? now / JS.msPerDay - frequencyDaysRange (config p)).
Proof.
  intros Hc Hk Hn. rewrite (cutoffDateString_day now p c Hc).
  apply isoDate_ltb; assumption.
Qed.

(** The day of a selection is not expired for the pruning pass of the
    same event, when the window reaches back to that day. *)
Lemma selection_day_not_expired (now now' : Z) (p : Plugin) (d c : jsstring) :
  getCurrentDateString now = Some d ->
  cutoffDateString now' p = Some c ->
  fourDigitYear (now / JS.msPerDay) ->
  fourDigitYear (now' / JS.msPerDay - frequencyDaysRange (config p)) ->
  now' / JS.msPerDay - frequencyDaysRange (config p) <= now / JS.msPerDay ->
  JS.ltb d c = false.
Proof.
  intros Hd Hc Hn Hk Hle. unfold getCurrentDateString, JS.toISODateString in Hd.
  destruct (JS.validTime now); [|discriminate]. injection Hd as <-.
  rewrite (cutoffDateString_expired now' p c _ Hc Hk Hn). apply Z.ltb_ge, Hle.
Qed.

Lemma cleanupExpiredStatistics_countsConsistent (now : Z) (p p' : Plugin) :
  wellFormed (statistics p) ->
  cleanupExpiredStatistics now p = Returned p' ->
  countsConsistent (statistics p') /\ wellFormed (statistics p').
Proof.
  intros Hwf H. rewrite cleanupExpiredStatistics_spec in H by exact Hwf.
  destruct (cutoffDateString now p) as [c|]; [|discriminate].
  injection H as <-. split.
  - apply prunedLanguages_countsConsistent.
  - destruct (statistics p) as [fo ls] eqn:E. simpl.
    eapply prunedLanguages_wellFormed. exact Hwf.
Qed.


Lemma languageChange_nonBlank (now now' : Z) (language d : jsstring) (p : Plugin) :
  nonBlank language = true ->
  getCurrentDateString now = Some d ->
  recordable language p = true ->
  languageChange now now' language p =
  cleanupExpiredStatistics now' (recorded d language p).
Proof.
  unfold languageChange. intros -> Hd Hr. rewrite recordLanguage_spec, Hd, Hr. reflexivity.
Qed.

(** The handler raises before the pruning pass when the block does. *)
Lemma languageChange_raises (now now' : Z) (language : jsstring) (p : Plugin) :
  nonBlank language = true ->
  getCurrentDateString now = None \/ recordable language p = false ->
  languageChange now now' language p = Thrown p.
Proof.
  unfold languageChange. intros -> H. rewrite recordLanguage_spec.
  destruct (getCurrentDateString now); [|reflexivity].
  destruct H as [H|H]; [discriminate | rewrite H; reflexivity].
Qed.

(** The handler, case by case. *)
Lemma languageChange_spec (now now' : Z) (language : jsstring) (p : Plugin) :
  languageChange now now' language p =
  if nonBlank language then
    match getCurrentDateString now with
    | None => Thrown p
    | Some d =>
        if recordable language p
        then cleanupExpiredStatistics now' (recorded d language p)
        else Thrown p
    end
  else cleanupExpiredStatistics now' p.
Proof.
  unfold languageChange. rewrite recordLanguage_spec.
  destruct (nonBlank language); [|reflexivity].
  destruct (getCurrentDateString now); [|reflexivity].
  destruct (recordable language p); reflexivity.
Qed.

(** With valid clock readings the handler returns, and its last step is
    the pruning pass. *)
Lemma languageChange_returns (now now' : Z) (language : jsstring) (p : Plugin) :
  wellFormed (statistics p) ->
  JS.validTime now = true ->
  JS.validTime (now' - frequencyDaysRange (config p) * 24 * 60 * 60 * 1000) = true ->
  nonBlank language = false \/ recordable language p = true ->
  exists c q p',
    cutoffDateString now' p = Some c
    /\ (q = p \/ exists d, q = recorded d language p)
    /\ wellFormed (statistics q)
    /\ languageChange now now' language p = Returned p'
    /\ cleanupExpiredStatistics now' q = Returned p'.
Proof.
  intros Hwf Hnow Hcut Hrec.
  destruct (toISODateString_defined _ Hcut) as [c Hc].
  destruct (toISODateString_defined _ Hnow) as [d Hd].
  exists c. rewrite languageChange_spec. unfold getCurrentDateString. rewrite Hd.
  destruct (nonBlank language).
  - destruct Hrec as [Hrec|Hrec]; [discriminate|]. rewrite Hrec.
    assert (Hwfq : wellFormed (statistics (recorded d language p)))
      by apply recorded_wellFormed, Hwf.
    assert (Hcq : cutoffDateString now' (recorded d language p) = Some c).
    { unfold cutoffDateString. rewrite recorded_config. exact Hc. }
    destruct (cleanupExpiredStatistics_returns _ _ _ Hwfq Hcq) as (p' & Hret & _).
    exists (recorded d language p), p'.
    split; [exact Hc|]. split; [right; exists d; reflexivity|]. auto.
  - destruct (cleanupExpiredStatistics_returns _ _ _ Hwf Hc) as (p' & Hret & _).
    exists p, p'. auto.
Qed.

(** A language recorded on a day that is not expired survives the
    pruning pass that follows. *)
Lemma recorded_language_survives (now' : Z) (d language c : jsstring) (p : Plugin) :
  wellFormed (statistics p) ->
  positiveCounts (statistics p) ->
  cutoffDateString now' p = Some c ->
  JS.ltb d c = false ->
  exists p',
    cleanupExpiredStatistics now' (recorded d language p) = Returned p'
    /\ In language (map fst (languages (statistics p')))
    /\ In language (frequencyOrder (statistics p')).
Proof.
  intros Hwf Hpos Hc Hd.
  set (q := recorded d language p).
  assert (Hwfq : wellFormed (statistics q)) by apply recorded_wellFormed, Hwf.
  assert (Hposq : positiveCounts (statistics q)) by apply recorded_positiveCounts, Hpos.
  assert (Hcq : cutoffDateString now' q = Some c).
  { unfold cutoffDateString, q. rewrite recorded_config. exact Hc. }
  destruct (cleanupExpiredStatistics_returns now' q c Hwfq Hcq)
    as (p' & Hret & Hls & Hfo & _).
  exists p'. split; [exact Hret|].
  assert (Hkey : In language (map fst (languages (statistics p')))).
  { rewrite Hls.
    destruct (recorded_entry d language p) as (s' & Hg & _ & Hday & _).
    fold q in Hg. apply get_In in Hg. apply get_In in Hday.
    change language with (fst (language, prunedStats c s')). apply in_map.
    apply prunedLanguages_In. exists s'. split; [exact Hg|]. split; [reflexivity|].
    simpl. unfold positiveCounts in Hposq. rewrite Forall_forall in Hposq.
    specialize (Hposq _ Hg). simpl in Hposq.
    assert (Hin : In (d, numberOf (JS.get d (dates (statsBefore (languages (statistics p)) language))) + 1)
                     (filter (notExpired c) (dates s'))).
    { apply filter_In. split; [exact Hday|]. unfold notExpired. simpl. rewrite Hd. reflexivity. }
    assert (0 < sumCounts (filter (notExpired c) (dates s'))); [|lia].
    unfold sumCounts. apply sumZ_positive.
    - apply Forall_map. rewrite Forall_forall in *. intros e He.
      apply filter_In in He. apply Hposq, He.
    - intros E. apply map_eq_nil in E. rewrite E in Hin. destruct Hin. }
  split; [exact Hkey|].
  rewrite Hfo. apply sortWith_In, keys_In. exact Hkey.
Qed.

Lemma samplePruning_wellFormed : wellFormed (statistics samplePruning).
Proof.
  split; [distinct_keys|]. simpl. repeat (constructor; [distinct_keys|]). constructor.
Qed.

Lemma copyConfig_id (c : Config) : copyConfig c = c.
Proof. destruct c; reflexivity. Qed.

Lemma settingInput_frame (e : SettingInput) (p : Plugin) :
  config (settingInput e p) = config p
  /\ savedConfig (settingInput e p) = savedConfig p
  /\ cachedCustomOrderLanguages (settingInput e p) = cachedCustomOrderLanguages p
  /\ cachedOtherCustomLanguages (settingInput e p) = cachedOtherCustomLanguages p
  /\ cachedExcludedLanguages (settingInput e p) = cachedExcludedLanguages p
  /\ statistics (settingInput e p) = statistics p
  /\ savedStatistics (settingInput e p) = savedStatistics p.
Proof.
  destruct e as [v|v|[v|]|[v|]|v|v]; simpl; try (repeat split; fail).
  - destruct ((v >=? 1) && (v <=? 15)); repeat split.
  - destruct ((v >=? 1) && (v <=? 90)); repeat split.
Qed.

Lemma settingInputs_frame (inputs : list SettingInput) (p : Plugin) :
  let p' := fold_left (fun p e => settingInput e p) inputs p in
  config p' = config p
  /\ savedConfig p' = savedConfig p
  /\ cachedCustomOrderLanguages p' = cachedCustomOrderLanguages p
  /\ cachedOtherCustomLanguages p' = cachedOtherCustomLanguages p
  /\ cachedExcludedLanguages p' = cachedExcludedLanguages p
  /\ statistics p' = statistics p
  /\ savedStatistics p' = savedStatistics p.
Proof.
  revert p. induction inputs as [|e inputs IH]; intros p; simpl.
  - repeat split.
  - destruct (IH (settingInput e p)) as (H1 & H2 & H3 & H4 & H5 & H6 & H7).
    destruct (settingInput_frame e p) as (G1 & G2 & G3 & G4 & G5 & G6 & G7).
    repeat split; congruence.
Qed.



(** *** Invariants of a run *)

Lemma statisticsInvariant_empty : statisticsInvariant (mkStatistics [] []).
Proof.
  split; [split; constructor|]. split; [constructor|]. split; [constructor | reflexivity].
Qed.

Lemma recorded_invariant (d language : jsstring) (p : Plugin) :
  statisticsInvariant (statistics p) ->
  statisticsInvariant (statistics (recorded d language p)).
Proof.
  intros (H1 & H2 & H3 & _).
  split; [apply recorded_wellFormed, H1|].
  split; [apply recorded_countsConsistent, H2|].
  split; [apply recorded_positiveCounts, H3|].
  apply recorded_frequencyOrder.
Qed.

Lemma recorded_caches (d language : jsstring) (p : Plugin) :
  cachesCurrent p -> cachesCurrent (recorded d language p).
Proof. intros H. exact H. Qed.

Lemma cleanupExpiredStatistics_invariant (now : Z) (p : Plugin) :
  statisticsInvariant (statistics p) ->
  statisticsInvariant (statistics (instanceAfter (cleanupExpiredStatistics now p))).
Proof.
  intros Hinv. pose proof Hinv as (H1 & H2 & H3 & H4).
  rewrite cleanupExpiredStatistics_spec by exact H1.
  destruct (cutoffDateString now p) as [c|]; [|exact Hinv]. simpl.
  destruct (statistics p) as [fo ls] eqn:E. simpl.
  split; [eapply prunedLanguages_wellFormed; exact H1|].
  split; [apply prunedLanguages_countsConsistent|].
  split; [eapply prunedLanguages_positiveCounts; exact H3 | reflexivity].
Qed.

Lemma cleanupExpiredStatistics_caches (now : Z) (p : Plugin) :
  cachesCurrent p -> cachesCurrent (instanceAfter (cleanupExpiredStatistics now p)).
Proof.
  intros H. unfold cleanupExpiredStatistics.
  destruct (JS.toISODateString _); [|exact H].
  destruct (pruneLanguages _ _). exact H.
Qed.

Lemma handle_invariant (p : Plugin) (ev : Event) :
  cachesCurrent p /\ statisticsInvariant (statistics p) ->
  cachesCurrent (handle p ev) /\ statisticsInvariant (statistics (handle p ev)).
Proof.
  intros [Hc Hs]. destruct ev as [now now' language|e| |]; simpl.
  - rewrite languageChange_spec. destruct (nonBlank language).
    + destruct (getCurrentDateString now) as [d|]; [|split; assumption].
      destruct (recordable language p); [|split; assumption].
      split; [apply cleanupExpiredStatistics_caches, recorded_caches, Hc|].
      apply cleanupExpiredStatistics_invariant, recorded_invariant, Hs.
    + split; [apply cleanupExpiredStatistics_caches, Hc|].
      apply cleanupExpiredStatistics_invariant, Hs.
  - destruct (settingInput_frame e p) as (G1 & _ & G3 & G4 & G5 & G6 & _).
    split; [|rewrite G6; exact Hs].
    unfold cachesCurrent, customOrderTokens, otherCustomTokens, excludedTokens in *.
    rewrite G1, G3, G4, G5. exact Hc.
  - split; [repeat split | exact Hs].
  - split; assumption.
Qed.

(** Every instance a run reaches from a fresh install, or from loaded
    documents that satisfy the invariant, has current caches and
    statistics that satisfy the invariant. *)
Lemma run_invariant (events : list Event) (p : Plugin) :
  cachesCurrent p /\ statisticsInvariant (statistics p) ->
  cachesCurrent (run events p) /\ statisticsInvariant (statistics (run events p)).
Proof.
  revert p. induction events as [|ev events IH]; intros p H; simpl; [exact H|].
  apply IH, handle_invariant, H.
Qed.

Lemma onload_invariant (c : option Config) (s : option Statistics) :
  match s with Some s => statisticsInvariant s | None => True end ->
  cachesCurrent (onload c s) /\ statisticsInvariant (statistics (onload c s)).
Proof.
  intros H. split; [repeat split|].
  destruct s as [s|]; [exact H | apply statisticsInvariant_empty].
Qed.

End StatisticsFacts.

(* ================================================================== *)
(** ** Facts about trimming *)
(* ================================================================== *)

Module TrimFacts.
Import JSFacts DateFacts PruneFacts OrderingFacts CanonFacts StatisticsFacts.

Lemma trimStart_head (s : jsstring) :
  JS.trimStart s = [] \/
  exists c r, JS.trimStart s = c :: r /\ JS.isWhiteSpace c = false.
Proof.
  induction s as [|c s IH]; simpl; auto.
  destruct (JS.isWhiteSpace c) eqn:E; auto. right. exists c, s. auto.
Qed.

Lemma trimStart_split (s : jsstring) :
  exists pre, s = pre ++ JS.trimStart s /\ Forall (fun c => JS.isWhiteSpace c = true) pre.
Proof.
  induction s as [|c s IH]; simpl.
  - exists []. auto.
  - destruct (JS.isWhiteSpace c) eqn:E.
    + destruct IH as (pre & H1 & H2). exists (c :: pre). split.
      * simpl. f_equal. exact H1.
      * constructor; assumption.
    + exists []. auto.
Qed.

Lemma trimStart_fixed (c : N) (s : jsstring) :
  JS.isWhiteSpace c = false -> JS.trimStart (c :: s) = c :: s.
Proof. intros H. simpl. rewrite H. reflexivity. Qed.

Lemma trimEnd_split (s : jsstring) :
  exists suf, s = JS.trimEnd s ++ suf /\ Forall (fun c => JS.isWhiteSpace c = true) suf.
Proof.
  unfold JS.trimEnd. destruct (trimStart_split (rev s)) as (pre & H1 & H2).
  exists (rev pre). split.
  - rewrite <- rev_app_distr, <- H1, rev_involutive. reflexivity.
  - apply Forall_rev, H2.
Qed.

Lemma trimEnd_last (s : jsstring) :
  JS.trimEnd s = [] \/
  exists r c, JS.trimEnd s = r ++ [c] /\ JS.isWhiteSpace c = false.
Proof.
  unfold JS.trimEnd. destruct (trimStart_head (rev s)) as [E|(c & r & E & Hc)].
  - rewrite E. auto.
  - right. exists (rev r), c. rewrite E. simpl. auto.
Qed.

Lemma trimEnd_fixed (r : jsstring) (c : N) :
  JS.isWhiteSpace c = false -> JS.trimEnd (r ++ [c]) = r ++ [c].
Proof.
  intros H. unfold JS.trimEnd. rewrite rev_app_distr. simpl. rewrite H.
  simpl. rewrite rev_involutive. reflexivity.
Qed.

(** [trim] leaves a string alone exactly when it is empty or neither
    begins nor ends with white space. *)
Lemma trim_fixed (c : N) (s : jsstring) (d : N) :
  JS.isWhiteSpace c = false ->
  JS.isWhiteSpace (last (c :: s) d) = false ->
  JS.trim (c :: s) = c :: s.
Proof.
  intros Hc Hl. unfold JS.trim. rewrite trimStart_fixed by exact Hc.
  destruct (exists_last (l := c :: s)) as (r & e & E); [discriminate|].
  rewrite E in *. rewrite last_last in Hl. apply trimEnd_fixed, Hl.
Qed.

Lemma trim_ends (s : jsstring) :
  JS.trim s = [] \/
  exists c r, JS.trim s = c :: r /\ JS.isWhiteSpace c = false
              /\ forall d, JS.isWhiteSpace (last (c :: r) d) = false.
Proof.
  unfold JS.trim.
  destruct (trimStart_head s) as [E|(c & r & E & Hc)].
  - rewrite E. left. reflexivity.
  - rewrite E. destruct (trimEnd_last (c :: r)) as [E2|(r2 & c2 & E2 & Hc2)].
    + exfalso. destruct (trimEnd_split (c :: r)) as (suf & H1 & H2).
      rewrite E2 in H1. simpl in H1. subst suf.
      inversion H2; subst. congruence.
    + right. destruct (trimEnd_split (c :: r)) as (suf & H1 & H2).
      rewrite E2 in *. destruct r2 as [|x r2]; simpl in H1.
      * injection H1 as H1 _. subst c2. exists c, []. simpl. auto.
      * injection H1 as H1 _. subst x. exists c, (r2 ++ [c2]). repeat split; auto.
        intros d. change (c :: r2 ++ [c2]) with ((c :: r2) ++ [c2]).
        rewrite last_last. exact Hc2.
Qed.

Lemma trim_idempotent (s : jsstring) : JS.trim (JS.trim s) = JS.trim s.
Proof.
  destruct (trim_ends s) as [E|(c & r & E & Hc & Hl)]; rewrite E; [reflexivity|].
  apply trim_fixed with (d := 0%N); auto.
Qed.

Lemma trim_space (s : jsstring) : JS.trim (32%N :: s) = JS.trim s.
Proof. reflexivity. Qed.

End TrimFacts.

(* ================================================================== *)
(** ** Facts about tokens, escaping and joined lists *)
(* ================================================================== *)

Module TokenFacts.
Import JSFacts DateFacts PruneFacts OrderingFacts CanonFacts StatisticsFacts TrimFacts.

Lemma escapeHtml_units (s : jsstring) : escapeHtml s = flat_map escapeUnit s.
Proof.
  unfold escapeHtml. destruct s as [|c0 s0]; [reflexivity|].
  generalize (c0 :: s0) as s. clear. intros s.
  unfold JS.replaceEach. induction s as [|c s IH]; [reflexivity|].
  cbn [flat_map]. rewrite flat_map_app, IH. f_equal.
  unfold escapeUnit.
  destruct (N.eq_dec c 38) as [->|N38]; [reflexivity|].
  destruct (N.eq_dec c 60) as [->|N60]; [reflexivity|].
  assert (E1 : N.eqb 38 c = false) by (apply N.eqb_neq; congruence).
  assert (E2 : N.eqb 60 c = false) by (apply N.eqb_neq; congruence).
  assert (E3 : N.eqb c 38 = false) by (apply N.eqb_neq; congruence).
  assert (E4 : N.eqb c 60 = false) by (apply N.eqb_neq; congruence).
  rewrite E1, E3, E4. cbn [flat_map]. rewrite E2. reflexivity.
Qed.

Lemma escapeUnit_length (c : N) :
  List.length (escapeUnit c) =
  (1 + (if N.eqb c 38 then 4 else 0) + (if N.eqb c 60 then 3 else 0))%nat.
Proof.
  unfold escapeUnit. destruct (N.eqb c 38) eqn:E.
  - apply N.eqb_eq in E. subst c. reflexivity.
  - destruct (N.eqb c 60); reflexivity.
Qed.

Lemma escapeUnit_head (c : N) :
  exists r, escapeUnit c = (if N.eqb c 60 then 38%N else c) :: r.
Proof.
  unfold escapeUnit. destruct (N.eqb c 38) eqn:E.
  - apply N.eqb_eq in E. subst c. eexists. reflexivity.
  - destruct (N.eqb c 60); eexists; reflexivity.
Qed.

(** Reading an escaped string back: the first code unit of the original
    and the length of its image. *)
Lemma escapeUnit_prefix (c d : N) (s t : jsstring) :
  escapeUnit c ++ s = escapeUnit d ++ t -> c = d /\ s = t.
Proof.
  unfold escapeUnit.
  destruct (N.eqb c 38) eqn:Ec; destruct (N.eqb d 38) eqn:Ed;
    [| destruct (N.eqb d 60) eqn:Ed' | destruct (N.eqb c 60) eqn:Ec'
     | destruct (N.eqb c 60) eqn:Ec'; destruct (N.eqb d 60) eqn:Ed'];
    repeat match goal with
           | H : N.eqb _ _ = true |- _ => apply N.eqb_eq in H; subst
           end;
    simpl; intros H; try (injection H as; subst); try discriminate; auto;
    try (split; congruence).
Qed.

Lemma escapeHtml_injective (s t : jsstring) :
  escapeHtml s = escapeHtml t -> s = t.
Proof.
  rewrite !escapeHtml_units. revert t.
  induction s as [|c s IH]; intros [|d t]; simpl; intros H; auto.
  - destruct (escapeUnit_head d) as (r & E). rewrite E in H. discriminate.
  - destruct (escapeUnit_head c) as (r & E). rewrite E in H. discriminate.
  - apply escapeUnit_prefix in H. destruct H as [-> H]. f_equal. apply IH, H.
Qed.

Lemma escapeHtml_length (s : jsstring) :
  List.length (escapeHtml s) =
  (List.length s + 4 * countUnit 38 s + 3 * countUnit 60 s)%nat.
Proof.
  rewrite escapeHtml_units. unfold countUnit.
  induction s as [|c s IH]; [reflexivity|].
  cbn [flat_map filter]. rewrite length_app, IH, escapeUnit_length.
  rewrite (N.eqb_sym 38 c), (N.eqb_sym 60 c).
  destruct (N.eqb c 38), (N.eqb c 60); simpl; lia.
Qed.

Lemma escapeHtml_plain (s : jsstring) :
  ~ In 38%N s -> ~ In 60%N s -> escapeHtml s = s.
Proof.
  rewrite escapeHtml_units. induction s as [|c s IH]; [reflexivity|].
  intros H1 H2. cbn [flat_map]. rewrite IH by (intros H; first [apply H1; right; exact H | apply H2; right; exact H]).
  unfold escapeUnit.
  destruct (N.eqb c 38) eqn:E1; [apply N.eqb_eq in E1; subst; exfalso; apply H1; left; reflexivity|].
  destruct (N.eqb c 60) eqn:E2; [apply N.eqb_eq in E2; subst; exfalso; apply H2; left; reflexivity|].
  reflexivity.
Qed.

Lemma escapeHtml_fixed_iff (s : jsstring) :
  escapeHtml s = s <-> ~ In 38%N s /\ ~ In 60%N s.
Proof.
  split.
  - intros H. 
    assert (L := escapeHtml_length s). rewrite H in L.
    assert (A : countUnit 38 s = 0%nat /\ countUnit 60 s = 0%nat) by lia.
    destruct A as [A B]. unfold countUnit in A, B.
    apply length_zero_iff_nil in A, B.
    split; intros Hin.
    + assert (Hf : In 38%N (filter (N.eqb 38) s)) by (apply filter_In; auto).
      rewrite A in Hf. exact Hf.
    + assert (Hf : In 60%N (filter (N.eqb 60) s)) by (apply filter_In; auto).
      rewrite B in Hf. exact Hf.
  - intros [H1 H2]. apply escapeHtml_plain; assumption.
Qed.

Lemma escapeHtml_nil (s : jsstring) : escapeHtml s = [] -> s = [].
Proof.
  intros H. apply (f_equal (@List.length N)) in H.
  rewrite escapeHtml_length in H. destruct s; [reflexivity|simpl in H; lia].
Qed.

Lemma replaceEach_map (m : N -> bool) (u : N) (s : jsstring) :
  JS.replaceEach m [u] s = map (fun c => if m c then u else c) s.
Proof.
  unfold JS.replaceEach. induction s as [|c s IH]; [reflexivity|].
  cbn [flat_map map]. rewrite IH. destruct (m c); reflexivity.
Qed.

Lemma replaceEach_plain (s : jsstring) :
  ~ In 32%N s -> ~ In 96%N s -> JS.replaceEach backtickOrSpace (js "_") s = s.
Proof.
  change (js "_") with [95%N]. rewrite replaceEach_map.
  induction s as [|c s IH]; [reflexivity|]. intros H1 H2. cbn [map].
  rewrite IH by (intros H; first [apply H1; right; exact H | apply H2; right; exact H]).
  unfold backtickOrSpace.
  destruct (N.eqb c 96) eqn:E1; [apply N.eqb_eq in E1; subst; exfalso; apply H2; left; reflexivity|].
  destruct (N.eqb c 32) eqn:E2; [apply N.eqb_eq in E2; subst; exfalso; apply H1; left; reflexivity|].
  reflexivity.
Qed.

Lemma canonicalSegment_plain (t : jsstring) :
  plainToken t -> canonicalSegment t = escapeHtml t.
Proof.
  intros (_ & Ht & _ & H32 & H96). unfold canonicalSegment.
  rewrite Ht, replaceEach_plain by assumption. reflexivity.
Qed.

Lemma canonicalSegment_space (t : jsstring) :
  canonicalSegment (32%N :: t) = canonicalSegment t.
Proof. reflexivity. Qed.

(** *** Segments *)

Lemma split_cons (sep : N) (s : jsstring) :
  exists seg segs, JS.split sep s = seg :: segs.
Proof.
  destruct s as [|c s]; simpl; [eauto|].
  destruct (N.eqb c sep); [eauto|]. destruct (JS.split sep s); eauto.
Qed.

Lemma split_segment (sep : N) (x rest : jsstring) :
  ~ In sep x -> JS.split sep (x ++ sep :: rest) = x :: JS.split sep rest.
Proof.
  induction x as [|c x IH]; intros H; simpl.
  - rewrite N.eqb_refl. reflexivity.
  - destruct (N.eqb c sep) eqn:E.
    + apply N.eqb_eq in E. exfalso. apply H. left. exact E.
    + rewrite IH by (intros H'; apply H; right; exact H'). reflexivity.
Qed.

Lemma split_last (sep : N) (x : jsstring) :
  ~ In sep x -> JS.split sep x = [x].
Proof.
  induction x as [|c x IH]; intros H; simpl; [reflexivity|].
  destruct (N.eqb c sep) eqn:E.
  - apply N.eqb_eq in E. exfalso. apply H. left. exact E.
  - rewrite IH by (intros H'; apply H; right; exact H'). reflexivity.
Qed.

Lemma split_In (sep : N) (s seg : jsstring) :
  In seg (JS.split sep s) -> ~ In sep seg.
Proof.
  revert seg. induction s as [|c s IH]; simpl; intros seg.
  - intros [<-|[]] [].
  - destruct (N.eqb c sep) eqn:E.
    + intros [<-|H]; [intros []|apply IH, H].
    + destruct (JS.split sep s) as [|seg0 segs] eqn:Es.
      * intros [<-|[]] [H|[]]. subst. rewrite N.eqb_refl in E. discriminate.
      * intros [<-|H].
        -- intros [H|H]; [subst; rewrite N.eqb_refl in E; discriminate|].
           revert H. apply IH. left. reflexivity.
        -- apply IH. right. exact H.
Qed.

Lemma split_join_comma (l : list jsstring) :
  l <> [] -> Forall (fun t => ~ In 44%N t) l ->
  JS.split 44 (JS.join (js ",") l) = l.
Proof.
  induction l as [|x l IH]; [congruence|]. intros _ H.
  inversion H as [|? ? Hx Hl]; subst.
  destruct l as [|y l]; [apply split_last, Hx|].
  change (JS.join (js ",") (x :: y :: l)) with (x ++ 44%N :: JS.join (js ",") (y :: l)).
  rewrite split_segment by exact Hx. f_equal. apply IH; [discriminate|exact Hl].
Qed.

Lemma split_join_comma_space (x : jsstring) (l : list jsstring) :
  Forall (fun t => ~ In 44%N t) (x :: l) ->
  JS.split 44 (JS.join (js ", ") (x :: l)) = x :: map (cons 32%N) l.
Proof.
  revert x. induction l as [|y l IH]; intros x H;
    inversion H as [|? ? Hx Hl]; subst.
  - apply split_last, Hx.
  - change (JS.join (js ", ") (x :: y :: l))
      with (x ++ 44%N :: 32%N :: JS.join (js ", ") (y :: l)).
    rewrite split_segment by exact Hx. f_equal.
    assert (E : 32%N :: JS.join (js ", ") (y :: l) = JS.join (js ", ") ((32%N :: y) :: l)).
    { destruct l; reflexivity. }
    rewrite E, IH; [reflexivity|].
    inversion Hl; subst. constructor; [|assumption].
    intros [H'|H']; [discriminate|]. auto.
Qed.

Lemma firstn_In {A : Type} (n : nat) (l : list A) (x : A) :
  In x (firstn n l) -> In x l.
Proof.
  intros H. rewrite <- (firstn_skipn n l). apply in_or_app. left. exact H.
Qed.

Lemma join_nonempty (sep x : jsstring) (l : list jsstring) :
  x <> [] -> JS.join sep (x :: l) <> [].
Proof.
  intros Hx. destruct l; simpl; [exact Hx|].
  destruct x; [congruence|discriminate].
Qed.

Lemma filter_nonempty_escaped (l : list jsstring) :
  Forall (fun t => t <> []) l ->
  filter (fun lang => JS.length lang >? 0) (map escapeHtml l) = map escapeHtml l.
Proof.
  intros H. apply forallb_filter_id. apply forallb_forall. intros t Ht.
  apply in_map_iff in Ht. destruct Ht as (u & <- & Hu).
  rewrite Forall_forall in H. specialize (H u Hu).
  unfold JS.length. destruct (escapeHtml u) eqn:E; [apply escapeHtml_nil in E; congruence|].
  apply Z.gtb_lt. rewrite length_cons. lia.
Qed.

(** Parsing a joined list of plain tokens gives back the first 300 of
    them, each escaped; the separator may carry a space. *)
Lemma parse_join (l : list jsstring) :
  Forall plainToken l ->
  parseLanguagesInput (Some (JS.join (js ",") l)) = map escapeHtml (firstn 300 l)
  /\ parseLanguagesInput (Some (JS.join (js ", ") l)) = map escapeHtml (firstn 300 l).
Proof.
  intros H. destruct l as [|x l]; [split; reflexivity|].
  assert (Hx : x <> []) by (inversion H as [|? ? (Hx & _) _]; exact Hx).
  assert (Hc : Forall (fun t => ~ In 44%N t) (x :: l)).
  { eapply Forall_impl; [|exact H]. intros t (_ & _ & Ht & _). exact Ht. }
  assert (Hn : Forall (fun t => t <> []) (firstn 300 (x :: l))).
  { apply Forall_forall. intros t Ht. apply firstn_In in Ht.
    rewrite Forall_forall in H. apply H in Ht. apply Ht. }
  assert (Hm : map canonicalSegment (x :: l) = map escapeHtml (x :: l)).
  { apply map_ext_in. intros t Ht. apply canonicalSegment_plain.
    rewrite Forall_forall in H. apply H, Ht. }
  split; rewrite parseLanguagesInput_unfold.
  - destruct (JS.join (js ",") (x :: l)) eqn:E;
      [exfalso; revert E; apply join_nonempty, Hx|]. rewrite <- E.
    rewrite split_join_comma by (assumption || discriminate).
    rewrite <- firstn_map, Hm, firstn_map. apply filter_nonempty_escaped, Hn.
  - destruct (JS.join (js ", ") (x :: l)) eqn:E;
      [exfalso; revert E; apply join_nonempty, Hx|]. rewrite <- E.
    rewrite split_join_comma_space by assumption.
    rewrite <- firstn_map.
    assert (Hs : map canonicalSegment (x :: map (cons 32%N) l) = map canonicalSegment (x :: l)).
    { cbn [map]. f_equal. rewrite map_map. apply map_ext. intros t. apply canonicalSegment_space. }
    rewrite Hs, Hm, firstn_map. apply filter_nonempty_escaped, Hn.
Qed.

(** *** The shape of a token *)

Lemma canonicalSegment_units (part : jsstring) :
  canonicalSegment part =
  flat_map escapeUnit (map (fun c => if backtickOrSpace c then 95%N else c) (JS.trim part)).
Proof.
  unfold canonicalSegment. rewrite escapeHtml_units.
  change (js "_") with [95%N]. rewrite replaceEach_map. reflexivity.
Qed.

Lemma isWhiteSpace_escaped_head (c : N) :
  JS.isWhiteSpace c = false ->
  JS.isWhiteSpace (if N.eqb (if backtickOrSpace c then 95%N else c) 60 then 38%N
                   else (if backtickOrSpace c then 95%N else c)) = false.
Proof.
  intros H. destruct (backtickOrSpace c); [reflexivity|].
  destruct (N.eqb c 60); [reflexivity|exact H].
Qed.

Lemma escapeUnit_last (c : N) :
  exists r, escapeUnit c = r ++ [if N.eqb c 38 then 59%N else if N.eqb c 60 then 59%N else c].
Proof.
  unfold escapeUnit. destruct (N.eqb c 38).
  - exists (js "&amp"). reflexivity.
  - destruct (N.eqb c 60); [exists (js "&lt")|exists []]; reflexivity.
Qed.

Lemma canonicalSegment_trimmed (part : jsstring) :
  JS.trim (canonicalSegment part) = canonicalSegment part.
Proof.
  rewrite canonicalSegment_units.
  destruct (trim_ends part) as [E|(c & r & E & Hc & Hl)]; rewrite E; [reflexivity|].
  set (f := fun c => if backtickOrSpace c then 95%N else c).
  cbn [map flat_map].
  destruct (escapeUnit_head (f c)) as (r1 & E1). rewrite E1.
  cbn [app]. apply trim_fixed with (d := 0%N).
  - apply isWhiteSpace_escaped_head, Hc.
  - rewrite app_comm_cons, <- E1.
    change (escapeUnit (f c) ++ flat_map escapeUnit (map f r))
      with (flat_map escapeUnit (map f (c :: r))).
    destruct (exists_last (l := c :: r)) as (r2 & e & E2); [discriminate|].
    specialize (Hl 0%N). rewrite E2 in *. rewrite last_last in Hl.
    rewrite map_app, flat_map_app. cbn [map flat_map]. rewrite app_nil_r.
    destruct (escapeUnit_last (f e)) as (r3 & E3). rewrite E3.
    rewrite app_assoc, last_last. subst f. cbv beta.
    destruct (backtickOrSpace e); [reflexivity|].
    destruct (N.eqb e 38); [reflexivity|]. destruct (N.eqb e 60); [reflexivity|exact Hl].
Qed.

Lemma trim_incl (s : jsstring) (c : N) : In c (JS.trim s) -> In c s.
Proof.
  unfold JS.trim. intros H.
  destruct (trimEnd_split (JS.trimStart s)) as (suf & E1 & _).
  destruct (trimStart_split s) as (pre & E2 & _).
  rewrite E2, E1. apply in_or_app. right. apply in_or_app. left. exact H.
Qed.

Lemma canonicalSegment_no_comma (part : jsstring) :
  ~ In 44%N part -> ~ In 44%N (canonicalSegment part).
Proof.
  intros H Hin. unfold canonicalSegment in Hin.
  apply escapeHtml_In in Hin. destruct Hin as [Hin|[Hin|(Hin & _)]];
    [simpl in Hin; intuition discriminate | simpl in Hin; intuition discriminate|].
  apply replaceEach_In in Hin. destruct Hin as [Hin|[Hin _]];
    [simpl in Hin; intuition discriminate|].
  apply H, trim_incl, Hin.
Qed.

Lemma parseLanguagesInput_plain (input : option jsstring) (t : jsstring) :
  In t (parseLanguagesInput input) -> plainToken t /\ ~ In 60%N t.
Proof.
  intros Hin. destruct (parseLanguagesInput_token _ _ Hin) as (H0 & H32 & H96 & H60).
  split; [|exact H60]. unfold plainToken. repeat split; try assumption.
  - destruct input as [input|]; [|destruct Hin].
    rewrite parseLanguagesInput_unfold in Hin. destruct input; [destruct Hin|].
    apply filter_In in Hin. destruct Hin as [Hin _].
    apply in_map_iff in Hin. destruct Hin as (part & <- & _).
    apply canonicalSegment_trimmed.
  - destruct input as [input|]; [|destruct Hin].
    rewrite parseLanguagesInput_unfold in Hin. destruct input as [|c0 input]; [destruct Hin|].
    apply filter_In in Hin. destruct Hin as [Hin _].
    apply in_map_iff in Hin. destruct Hin as (part & <- & Hp).
    apply canonicalSegment_no_comma. apply firstn_In in Hp.
    apply split_In in Hp. exact Hp.
Qed.

End TokenFacts.

(* ================================================================== *)
(** ** Facts about the handlers and the settings in a run *)
(* ================================================================== *)

Module RunFacts.
Import JSFacts DateFacts PruneFacts OrderingFacts CanonFacts StatisticsFacts TrimFacts TokenFacts.

(** The pruning pass touches the statistics only. *)
Lemma cleanupExpiredStatistics_frame (now : Z) (p : Plugin) :
  let p' := instanceAfter (cleanupExpiredStatistics now p) in
  config p' = config p /\ tempConfig p' = tempConfig p
  /\ savedConfig p' = savedConfig p /\ savedStatistics p' = savedStatistics p.
Proof.
  unfold cleanupExpiredStatistics.
  destruct (JS.toISODateString _); [|simpl; auto].
  destruct (pruneLanguages _ _). simpl. auto.
Qed.

Lemma recorded_frame (d language : jsstring) (p : Plugin) :
  let p' := recorded d language p in
  config p' = config p /\ tempConfig p' = tempConfig p
  /\ savedConfig p' = savedConfig p /\ savedStatistics p' = Some (statistics p').
Proof. repeat split. Qed.

Lemma languageChange_frame (now now' : Z) (language : jsstring) (p : Plugin) :
  let p' := instanceAfter (languageChange now now' language p) in
  config p' = config p /\ tempConfig p' = tempConfig p /\ savedConfig p' = savedConfig p.
Proof.
  rewrite languageChange_spec. destruct (nonBlank language).
  - destruct (getCurrentDateString now) as [d|]; [|simpl; auto].
    destruct (recordable language p); [|simpl; auto].
    destruct (cleanupExpiredStatistics_frame now' (recorded d language p))
      as (H1 & H2 & H3 & _).
    cbv zeta in *. rewrite H1, H2, H3. auto.
  - destruct (cleanupExpiredStatistics_frame now' p) as (H1 & H2 & H3 & _). auto.
Qed.

Lemma settingInput_ranges (e : SettingInput) (p : Plugin) :
  rangesValid (tempConfig p) -> rangesValid (tempConfig (settingInput e p)).
Proof.
  unfold rangesValid. intros H.
  destruct e as [v|v|[v|]|[v|]|v|v]; simpl; try exact H.
  - destruct (Z.geb_spec v 1), (Z.leb_spec v 15); simpl; try exact H. lia.
  - destruct (Z.geb_spec v 1), (Z.leb_spec v 90); simpl; try exact H. lia.
Qed.

Lemma handle_ranges (p : Plugin) (ev : Event) :
  rangesValid (config p) /\ rangesValid (tempConfig p) ->
  rangesValid (config (handle p ev)) /\ rangesValid (tempConfig (handle p ev)).
Proof.
  intros [Hc Ht]. destruct ev as [now now' language|e| |]; simpl.
  - destruct (languageChange_frame now now' language p) as (H1 & H2 & _).
    cbv zeta in *. rewrite H1, H2. auto.
  - split; [|apply settingInput_ranges, Ht].
    rewrite (proj1 (settingInput_frame e p)). exact Hc.
  - rewrite copyConfig_id. auto.
  - rewrite copyConfig_id. auto.
Qed.

Lemma run_ranges (events : list Event) (p : Plugin) :
  rangesValid (config p) /\ rangesValid (tempConfig p) ->
  rangesValid (config (run events p)) /\ rangesValid (tempConfig (run events p)).
Proof.
  revert p. induction events as [|ev events IH]; intros p H; simpl; [exact H|].
  apply IH, handle_ranges, H.
Qed.

Lemma onload_ranges (c : option Config) (s : option Statistics) :
  storedRangesValid c ->
  rangesValid (config (onload c s)) /\ rangesValid (tempConfig (onload c s)).
Proof.
  unfold rangesValid. destruct c as [c|]; simpl; [|lia].
  intros [H1 H2].
  destruct (Z.eqb_spec (frequencyTopCount c) 0), (Z.eqb_spec (frequencyDaysRange c) 0); lia.
Qed.

Lemma validTime_spec (t : Z) :
  JS.validTime t = true <-> -8640000000000000 <= t <= 8640000000000000.
Proof. unfold JS.validTime. rewrite andb_true_iff, !Z.leb_le. reflexivity. Qed.

Lemma cutoff_valid (now : Z) (c : Config) :
  rangesValid c ->
  JS.validTime now = true -> JS.validTime (now - 90 * JS.msPerDay) = true ->
  JS.validTime (now - frequencyDaysRange c * 24 * 60 * 60 * 1000) = true.
Proof.
  intros [_ H]. rewrite !validTime_spec. unfold JS.msPerDay. lia.
Qed.

(** How [cleanupExpiredStatistics] and [languageChange] complete. *)
Lemma cleanupExpiredStatistics_completion (now : Z) (p : Plugin) :
  let cutoffTime := now - frequencyDaysRange (config p) * 24 * 60 * 60 * 1000 in
  if JS.validTime cutoffTime
  then exists p', cleanupExpiredStatistics now p = Returned p'
  else cleanupExpiredStatistics now p = Thrown p.
Proof.
  unfold cleanupExpiredStatistics, JS.toISODateString. cbv zeta.
  destruct (JS.validTime _); [|reflexivity].
  destruct (pruneLanguages _ _). eexists. reflexivity.
Qed.

End RunFacts.

(* ================================================================== *)
(** ** Facts about saving and loading the configuration *)
(* ================================================================== *)

Module RestartFacts.
Import JSFacts DateFacts PruneFacts OrderingFacts CanonFacts StatisticsFacts TrimFacts TokenFacts RunFacts.

Lemma onload_config_defaults (c : Config) (s : option Statistics) :
  rangesValid c -> config (onload (Some c) s) = c.
Proof.
  intros [H1 H2]. destruct c as [m co t d o e]. simpl in *.
  destruct (Z.eqb_spec t 0); [lia|]. destruct (Z.eqb_spec d 0); [lia|]. reflexivity.
Qed.

Lemma onload_restorable (c : option Config) (s : option Statistics) :
  configRestorable (onload c s).
Proof.
  intros s'. destruct c as [c|]; [|reflexivity]. simpl.
  destruct c as [m co t d o e]. simpl.
  destruct (Z.eqb_spec t 0) as [->|Ht]; destruct (Z.eqb_spec d 0) as [->|Hd]; simpl;
    try rewrite (proj2 (Z.eqb_neq _ _) Ht); try rewrite (proj2 (Z.eqb_neq _ _) Hd);
    reflexivity.
Qed.

Lemma handle_restorable (p : Plugin) (ev : Event) :
  rangesValid (tempConfig p) -> configRestorable p -> configRestorable (handle p ev).
Proof.
  intros Hr H s. destruct ev as [now now' language|e| |]; unfold handle.
  - destruct (languageChange_frame now now' language p) as (H1 & _ & H3).
    cbv zeta in *. rewrite H1, H3. apply H.
  - destruct (settingInput_frame e p) as (H1 & H2 & _). rewrite H1, H2. apply H.
  - change (savedConfig (confirmCallback p)) with (Some (copyConfig (tempConfig p))).
    change (config (confirmCallback p)) with (copyConfig (tempConfig p)).
    rewrite copyConfig_id. apply onload_config_defaults, Hr.
  - apply H.
Qed.

Lemma handle_caches (p : Plugin) (ev : Event) :
  cachesCurrent p -> cachesCurrent (handle p ev).
Proof.
  intros Hc. destruct ev as [now now' language|e| |]; simpl.
  - rewrite languageChange_spec. destruct (nonBlank language).
    + destruct (getCurrentDateString now) as [d|]; [|exact Hc].
      destruct (recordable language p); [|exact Hc].
      apply cleanupExpiredStatistics_caches, recorded_caches, Hc.
    + apply cleanupExpiredStatistics_caches, Hc.
  - destruct (settingInput_frame e p) as (G1 & _ & G3 & G4 & G5 & _).
    unfold cachesCurrent, customOrderTokens, otherCustomTokens, excludedTokens in *.
    rewrite G1, G3, G4, G5. exact Hc.
  - repeat split.
  - exact Hc.
Qed.

Lemma run_caches (events : list Event) (p : Plugin) :
  cachesCurrent p -> cachesCurrent (run events p).
Proof.
  revert p. induction events as [|ev events IH]; intros p H; simpl; [exact H|].
  apply IH, handle_caches, H.
Qed.

Lemma run_restorable (events : list Event) (p : Plugin) :
  rangesValid (config p) /\ rangesValid (tempConfig p) ->
  configRestorable p -> configRestorable (run events p).
Proof.
  revert p. induction events as [|ev events IH]; intros p Hr H; simpl; [exact H|].
  apply IH; [apply handle_ranges, Hr | apply handle_restorable; [apply Hr | exact H]].
Qed.

End RestartFacts.

(* ================================================================== *)
(** ** Facts about sorting rearranged lists *)
(* ================================================================== *)

Module ArrangementFacts.
Import JSFacts DateFacts PruneFacts OrderingFacts CanonFacts StatisticsFacts TrimFacts TokenFacts RunFacts RestartFacts.

Lemma filter_perm {A : Type} (f : A -> bool) (l l' : list A) :
  Permutation l l' -> Permutation (filter f l) (filter f l').
Proof.
  induction 1 as [|x l l' _ IH|x y l|l l' l'' _ IH1 _ IH2]; simpl.
  - constructor.
  - destruct (f x); [constructor|]; exact IH.
  - destruct (f x), (f y); try reflexivity. apply perm_swap.
  - etransitivity; eassumption.
Qed.

(** Two strings that the default comparator does not separate are equal. *)
Lemma defaultCompare_tied (x y : jsstring) :
  JS.tied JS.defaultCompare x y = true <-> x = y.
Proof.
  unfold JS.tied. rewrite andb_true_iff, !Z.leb_le, !defaultCompare_le. unfold JS.leb.
  rewrite !negb_true_iff. split.
  - intros [H1 H2]. apply ltb_total; assumption.
  - intros ->. rewrite ltb_irrefl. auto.
Qed.

Lemma filter_tied_perm (x : jsstring) (l l' : list jsstring) :
  Permutation l l' ->
  filter (JS.tied JS.defaultCompare x) l = filter (JS.tied JS.defaultCompare x) l'.
Proof.
  intros H. apply (filter_perm (JS.tied JS.defaultCompare x)) in H.
  assert (F : forall l0, Forall (eq x) (filter (JS.tied JS.defaultCompare x) l0)).
  { intros l0. apply Forall_forall. intros y Hy. apply filter_In in Hy.
    apply defaultCompare_tied, Hy. }
  rewrite (Forall_eq_repeat (F l)), (Forall_eq_repeat (F l')).
  rewrite (Permutation_length H). reflexivity.
Qed.

(** [sort] gives one arrangement for all the orders its input can come in. *)
Lemma sort_of_perm (l l' : list jsstring) :
  Permutation l l' -> JS.sort l = JS.sort l'.
Proof.
  intros H. unfold JS.sort. apply sortWith_unique.
  - unfold JS.cmpLe. intros x y z. rewrite !defaultCompare_le. apply leb_trans.
  - unfold JS.cmpLe. intros x y. rewrite !defaultCompare_le. unfold JS.leb.
    destruct (JS.ltb y x) eqn:E; [right | left; reflexivity].
    rewrite (ltb_asym _ _ E). reflexivity.
  - rewrite sortWith_perm. exact H.
  - apply sortWith_sorted.
    + unfold JS.cmpLe. intros x y z. rewrite !defaultCompare_le. apply leb_trans.
    + unfold JS.cmpLe. intros x y. rewrite !defaultCompare_le. unfold JS.leb.
      destruct (JS.ltb y x) eqn:E; [right | left; reflexivity].
      rewrite (ltb_asym _ _ E). reflexivity.
  - intros x. rewrite <- (filter_tied_perm x l l' H). apply sortWith_stable.
    intros y z _ _ Hy Hz. apply defaultCompare_tied in Hy, Hz. subst.
    apply defaultCompare_le. unfold JS.leb. rewrite ltb_irrefl. reflexivity.
Qed.

End ArrangementFacts.

(* ================================================================== *)
(** ** Facts about duplicates in the ordering *)
(* ================================================================== *)

Module DistinctFacts.
Import JSFacts DateFacts PruneFacts OrderingFacts CanonFacts StatisticsFacts TrimFacts TokenFacts RunFacts RestartFacts ArrangementFacts.

Lemma NoDup_pinned_rest (P O E L : list jsstring) :
  NoDup P -> NoDup O -> NoDup L ->
  NoDup (P ++ filter (fun lang => negb (JS.Array_includes P lang)) O
           ++ filter (fun lang => negb (JS.Array_includes P lang)
                                  && negb (JS.Array_includes O lang)
                                  && negb (JS.Array_includes E lang)) L).
Proof.
  intros HP HO HL. apply NoDup_app; [exact HP| |].
  - apply NoDup_app; [apply NoDup_filter, HO | apply NoDup_filter, HL|].
    intros x Hx Hx'. apply In_filter_not_includes in Hx.
    apply In_filter_candidates in Hx'. tauto.
  - intros x Hx Hx'. apply in_app_or in Hx'. destruct Hx' as [Hx'|Hx'].
    + apply In_filter_not_includes in Hx'. tauto.
    + apply In_filter_candidates in Hx'. tauto.
Qed.

Lemma NoDup_other_rest (O E L : list jsstring) :
  NoDup O -> NoDup L ->
  NoDup (O ++ filter (fun lang => negb (JS.Array_includes O lang)
                                  && negb (JS.Array_includes E lang)) L).
Proof.
  intros HO HL. apply NoDup_app; [exact HO | apply NoDup_filter, HL|].
  intros x Hx Hx'. apply In_filter_candidates2 in Hx'. tauto.
Qed.

Lemma NoDup_slice0 {A : Type} (e : Z) (a : list A) : NoDup a -> NoDup (JS.slice0 e a).
Proof.
  intros H. destruct (slice0_prefix e a) as [rest E]. rewrite E in H.
  eapply NoDup_app_remove_r. exact H.
Qed.

End DistinctFacts.

(* ================================================================== *)
(** ** Facts about the counts of a run of selections *)
(* ================================================================== *)

Module WindowFacts.
Import JSFacts DateFacts PruneFacts OrderingFacts CanonFacts StatisticsFacts TrimFacts TokenFacts RunFacts RestartFacts ArrangementFacts DistinctFacts.

(** *** Day counts under the two mutations *)

Lemma get_filter_key {V : Type} (f : jsstring -> bool) (k : jsstring) (o : JS.object V) :
  JS.get k (filter (fun e => f (fst e)) o) = if f k then JS.get k o else None.
Proof.
  induction o as [|[k' v] o IH]; simpl; [destruct (f k); reflexivity|].
  destruct (f k') eqn:Fk'; simpl.
  - destruct (JS.eqb k k') eqn:E; [|exact IH].
    apply eqb_eq in E. subst k'. rewrite Fk'. reflexivity.
  - rewrite IH. destruct (JS.eqb k k') eqn:E; [|reflexivity].
    apply eqb_eq in E. subst k'. rewrite Fk'. reflexivity.
Qed.

Lemma dayCount_record (d language : jsstring) (p : Plugin) (l' d' : jsstring) :
  dayCount (languages (statistics (recorded d language p))) l' d'
  = dayCount (languages (statistics p)) l' d'
    + (if JS.eqb language l' && JS.eqb d d' then 1 else 0).
Proof.
  rewrite recorded_languages. cbv zeta. unfold dayCount.
  destruct (JS.eqb language l') eqn:El.
  - apply eqb_eq in El. subst l'. unfold statsBefore at 1. rewrite get_set_same.
    cbn [dates]. destruct (JS.eqb d d') eqn:Ed.
    + apply eqb_eq in Ed. subst d'. rewrite get_set_same. simpl. reflexivity.
    + apply eqb_neq in Ed. rewrite get_set_other by exact Ed. simpl. lia.
  - apply eqb_neq in El. unfold statsBefore at 1. rewrite get_set_other by exact El.
    fold (statsBefore (languages (statistics p)) l'). simpl. lia.
Qed.

Lemma prunedLanguages_get (c : jsstring) (ls : JS.object LanguageStats) (l : jsstring) :
  distinctKeys ls ->
  JS.get l (prunedLanguages c ls) =
  match JS.get l ls with
  | Some s => if totalCount (prunedStats c s) =? 0 then None else Some (prunedStats c s)
  | None => None
  end.
Proof.
  intros Hk. destruct (JS.get l ls) as [s|] eqn:E.
  - apply get_In in E. destruct (Z.eqb_spec (totalCount (prunedStats c s)) 0) as [Hz|Hz].
    + apply get_None. intros Hin. apply in_map_iff in Hin.
      destruct Hin as ([l0 s'] & E0 & Hin). simpl in E0. subst l0.
      apply prunedLanguages_In in Hin. destruct Hin as (s2 & Hs2 & -> & Hnz).
      pose proof (In_get _ _ _ Hk E) as G1. pose proof (In_get _ _ _ Hk Hs2) as G2.
      rewrite G1 in G2. injection G2 as <-. auto.
    + apply In_get; [apply prunedLanguages_distinctKeys, Hk|].
      apply prunedLanguages_In. exists s. auto.
  - apply get_None. intros Hin. apply prunedLanguages_keys in Hin.
    apply get_None in E. auto.
Qed.

Lemma dayCount_pruned (c : jsstring) (ls : JS.object LanguageStats) (l d : jsstring) :
  distinctKeys ls ->
  Forall (fun e => Forall (fun d => 0 < snd d) (dates (snd e))) ls ->
  dayCount (prunedLanguages c ls) l d
  = if JS.ltb d c then 0 else dayCount ls l d.
Proof.
  intros Hk Hpos. unfold dayCount, statsBefore. rewrite prunedLanguages_get by exact Hk.
  destruct (JS.get l ls) as [s|] eqn:E; [|simpl; destruct (JS.ltb d c); reflexivity].
  destruct (Z.eqb_spec (totalCount (prunedStats c s)) 0) as [Hz|Hz].
  - simpl. destruct (JS.ltb d c) eqn:Ed; [reflexivity|].
    destruct (JS.get d (dates s)) as [n|] eqn:G; [|reflexivity]. exfalso.
    apply get_In in G.
    assert (Hin : In (d, n) (filter (notExpired c) (dates s))).
    { apply filter_In. split; [exact G|]. unfold notExpired. simpl. rewrite Ed. reflexivity. }
    simpl in Hz. unfold sumCounts in Hz.
    assert (Hp : 0 < sumZ (map snd (filter (notExpired c) (dates s)))).
    { apply sumZ_positive.
      - apply get_In in E. rewrite Forall_forall in Hpos. specialize (Hpos _ E). simpl in Hpos.
        apply Forall_forall. intros x Hx. apply in_map_iff in Hx.
        destruct Hx as (e & <- & He). apply filter_In in He.
        rewrite Forall_forall in Hpos. apply Hpos, He.
      - intros En. apply (in_map snd) in Hin. rewrite En in Hin. exact Hin. }
    lia.
  - cbn [dates prunedStats].
    change (notExpired c) with (fun e : jsstring * Z => (fun k => negb (JS.ltb k c)) (fst e)).
    rewrite get_filter_key. destruct (JS.ltb d c); reflexivity.
Qed.

(** *** Counting in a log of recorded selections *)

Lemma countIn_app (log log' : list (jsstring * jsstring)) (l d : jsstring) :
  countIn (log ++ log') l d = (countIn log l d + countIn log' l d)%nat.
Proof. unfold countIn. rewrite filter_app, length_app. reflexivity. Qed.

Lemma countIn_filter (c : jsstring) (log : list (jsstring * jsstring)) (l d : jsstring) :
  countIn (filter (fun e => negb (JS.ltb (snd e) c)) log) l d
  = if JS.ltb d c then 0%nat else countIn log l d.
Proof.
  unfold countIn. induction log as [|e log IH]; simpl; [destruct (JS.ltb d c); reflexivity|].
  destruct (JS.eqb (snd e) d) eqn:Ed.
  - apply eqb_eq in Ed. subst d. destruct (JS.ltb (snd e) c) eqn:Ec; simpl.
    + rewrite IH. destruct (JS.eqb (fst e) l); reflexivity.
    + rewrite eqb_refl. destruct (JS.eqb (fst e) l); simpl; rewrite IH; reflexivity.
  - rewrite andb_false_r. destruct (JS.ltb (snd e) c); simpl; [exact IH|].
    rewrite Ed, andb_false_r. exact IH.
Qed.

Lemma agree_record (d language : jsstring) (p : Plugin) (log : list (jsstring * jsstring)) :
  countsAgree (languages (statistics p)) log ->
  countsAgree (languages (statistics (recorded d language p))) (log ++ [(language, d)]).
Proof.
  intros H l' d'. rewrite dayCount_record, countIn_app, H.
  assert (E : countIn [(language, d)] l' d'
              = if JS.eqb language l' && JS.eqb d d' then 1%nat else 0%nat).
  { unfold countIn. simpl. destruct (JS.eqb language l' && JS.eqb d d'); reflexivity. }
  rewrite E. destruct (JS.eqb language l' && JS.eqb d d'); lia.
Qed.

Lemma agree_pruned (c : jsstring) (ls : JS.object LanguageStats)
    (log : list (jsstring * jsstring)) :
  distinctKeys ls ->
  Forall (fun e => Forall (fun d => 0 < snd d) (dates (snd e))) ls ->
  countsAgree ls log ->
  countsAgree (prunedLanguages c ls) (filter (fun e => negb (JS.ltb (snd e) c)) log).
Proof.
  intros Hk Hpos H l d. rewrite dayCount_pruned, countIn_filter by assumption.
  destruct (JS.ltb d c); [reflexivity | apply H].
Qed.

(** *** From day counts to totals *)

Lemma sumZ_map_add {A : Type} (f g : A -> Z) (l : list A) :
  sumZ (map (fun x => f x + g x) l) = sumZ (map f l) + sumZ (map g l).
Proof. induction l as [|x l IH]; simpl; [reflexivity | rewrite IH; lia]. Qed.

Lemma sum_indicator (k : jsstring) (ks : list jsstring) :
  NoDup ks ->
  sumZ (map (fun d => if JS.eqb k d then 1 else 0) ks) = if JS.Array_includes ks k then 1 else 0.
Proof.
  induction 1 as [|x ks Hx Hnd IH]; simpl; [reflexivity|].
  rewrite IH. destruct (JS.eqb k x) eqn:E; simpl; [|reflexivity].
  apply eqb_eq in E. subst x.
  rewrite (proj2 (Array_includes_not_In ks k) Hx). reflexivity.
Qed.

Lemma count_partition (l : jsstring) (ks : list jsstring)
    (log : list (jsstring * jsstring)) :
  NoDup ks ->
  (forall e, In e log -> fst e = l -> In (snd e) ks) ->
  sumZ (map (fun d => Z.of_nat (countIn log l d)) ks)
  = Z.of_nat (List.length (filter (fun e => JS.eqb (fst e) l) log)).
Proof.
  intros Hnd.
  assert (Z0 : sumZ (map (fun _ : jsstring => 0) ks) = 0).
  { clear. induction ks; simpl; lia. }
  induction log as [|e log IH]; intros Hin.
  - exact Z0.
  - assert (E : forall d, Z.of_nat (countIn (e :: log) l d)
                = (if JS.eqb (fst e) l then if JS.eqb (snd e) d then 1 else 0 else 0)
                  + Z.of_nat (countIn log l d)).
    { intros d. unfold countIn. cbn [filter].
      destruct (JS.eqb (fst e) l), (JS.eqb (snd e) d); cbn [andb List.length]; lia. }
    rewrite (map_ext _ _ E), sumZ_map_add, IH by (intros; apply Hin; simpl; auto).
    simpl. destruct (JS.eqb (fst e) l) eqn:El.
    + rewrite sum_indicator by exact Hnd.
      rewrite (proj2 (Array_includes_In ks (snd e))).
      * cbn [List.length]. lia.
      * apply Hin; [left; reflexivity | apply eqb_eq, El].
    + rewrite Z0. lia.
Qed.

Lemma agree_total (s : Statistics) (log : list (jsstring * jsstring)) (l : jsstring) :
  wellFormed s -> countsConsistent s ->
  countsAgree (languages s) log ->
  totalCountOf (languages s) l
  = Z.of_nat (List.length (filter (fun e => JS.eqb (fst e) l) log)).
Proof.
  intros [Hk Hd] Hcc Ha. unfold totalCountOf.
  destruct (JS.get l (languages s)) as [st|] eqn:E.
  - pose proof (get_In _ _ _ E) as Hin.
    unfold countsConsistent in Hcc.
    rewrite Forall_forall in Hd, Hcc. pose proof (Hd _ Hin) as Hds. pose proof (Hcc _ Hin) as Ht.
    simpl in Hds, Ht. rewrite Ht. unfold sumCounts.
    assert (Hday : forall d, dayCount (languages s) l d = numberOf (JS.get d (dates st))).
    { intros d. unfold dayCount, statsBefore. rewrite E. reflexivity. }
    assert (Em : map snd (dates st)
                 = map (fun d => Z.of_nat (countIn log l d)) (map fst (dates st))).
    { rewrite map_map. apply map_ext_in. intros [d n] Hdn. simpl.
      rewrite <- Ha, Hday, (In_get _ _ _ Hds Hdn). reflexivity. }
    rewrite Em. apply count_partition; [exact Hds|].
    intros e He El.
    assert (Hc : (1 <= countIn log l (snd e))%nat).
    { unfold countIn. clear - He El. induction log as [|x log IH]; [destruct He|].
      simpl. destruct He as [->|He].
      - rewrite El, !eqb_refl. simpl. lia.
      - specialize (IH He). destruct (_ && _); simpl; lia. }
    specialize (Ha l (snd e)). rewrite Hday in Ha.
    destruct (JS.get (snd e) (dates st)) as [n|] eqn:G; [eapply get_Some_key; exact G|].
    simpl in Ha. lia.
  - assert (Hnil : filter (fun e => JS.eqb (fst e) l) log = []).
    { destruct (filter (fun e => JS.eqb (fst e) l) log) as [|e r] eqn:F; [reflexivity|].
      exfalso. assert (He : In e (filter (fun e => JS.eqb (fst e) l) log)) by (rewrite F; left; reflexivity).
      apply filter_In in He. destruct He as [He El].
      specialize (Ha l (snd e)). unfold dayCount, statsBefore in Ha. rewrite E in Ha.
      simpl in Ha.
      assert (Hc : (1 <= countIn log l (snd e))%nat).
      { unfold countIn. clear - He El. induction log as [|x log IH]; [destruct He|].
        simpl. destruct He as [->|He].
        - rewrite El, !eqb_refl. simpl. lia.
        - specialize (IH He). destruct (_ && _); simpl; lia. }
      lia. }
    rewrite Hnil. reflexivity.
Qed.

(** *** Runs of selections *)

Lemma fourDigitYear_valid (t : Z) :
  fourDigitYear (t / JS.msPerDay) -> JS.validTime t = true.
Proof.
  unfold fourDigitYear, JS.validTime, JS.msPerDay. intros H.
  apply andb_true_iff. rewrite !Z.leb_le. Z.div_mod_to_equations. lia.
Qed.

Lemma cutoffTime_day (now w : Z) :
  (now - w * 24 * 60 * 60 * 1000) / JS.msPerDay = now / JS.msPerDay - w.
Proof.
  replace (now - w * 24 * 60 * 60 * 1000) with (now + (- w) * JS.msPerDay)
    by (unfold JS.msPerDay; lia).
  rewrite Z.div_add by (unfold JS.msPerDay; lia). lia.
Qed.

Lemma logOf_app (cut : Z) (evs evs' : list Selection) :
  selectionLog cut (evs ++ evs') = selectionLog cut evs ++ selectionLog cut evs'.
Proof. unfold selectionLog. rewrite filter_app, map_app. reflexivity. Qed.

Lemma logOf_pruned (cut cut' : Z) (evs : list Selection) :
  Forall (fun s => fourDigitYear (selectionDay s)) evs ->
  fourDigitYear cut' -> cut <= cut' ->
  filter (fun x => negb (JS.ltb (snd x) (JS.isoDate cut'))) (selectionLog cut evs)
  = selectionLog cut' evs.
Proof.
  intros Hf Hc Hle. unfold selectionLog. induction Hf as [|s evs Hs _ IH]; [reflexivity|].
  cbn [filter]. destruct (nonBlank (snd s)); cbn [andb]; [|exact IH].
  destruct (Z.leb_spec cut (selectionDay s)) as [H1|H1];
    destruct (Z.leb_spec cut' (selectionDay s)) as [H2|H2]; try lia.
  - cbn [map filter logEntry snd]. rewrite isoDate_ltb by assumption.
    destruct (Z.ltb_spec (selectionDay s) cut'); [lia|]. cbn [negb]. f_equal. exact IH.
  - cbn [map filter logEntry snd]. rewrite isoDate_ltb by assumption.
    destruct (Z.ltb_spec (selectionDay s) cut'); [|lia]. cbn [negb]. exact IH.
  - exact IH.
Qed.

Lemma logOf_last (cut' : Z) (e : Selection) :
  fourDigitYear (selectionDay e) -> fourDigitYear cut' ->
  filter (fun x => negb (JS.ltb (snd x) (JS.isoDate cut')))
    (if nonBlank (snd e) then [logEntry e] else [])
  = selectionLog cut' [e].
Proof.
  intros Hs Hc. unfold selectionLog. cbn [filter]. destruct (nonBlank (snd e)); [|reflexivity].
  cbn [andb filter logEntry snd map]. rewrite isoDate_ltb by assumption.
  destruct (Z.leb_spec cut' (selectionDay e)), (Z.ltb_spec (selectionDay e) cut');
    try lia; reflexivity.
Qed.

Lemma cleanup_inv (now' : Z) (q : Plugin) (log : list (jsstring * jsstring)) :
  wellFormed (statistics q) -> positiveCounts (statistics q) ->
  countsAgree (languages (statistics q)) log ->
  fourDigitYear (now' / JS.msPerDay - frequencyDaysRange (config q)) ->
  let c := JS.isoDate (now' / JS.msPerDay - frequencyDaysRange (config q)) in
  let p' := instanceAfter (cleanupExpiredStatistics now' q) in
  wellFormed (statistics p') /\ countsConsistent (statistics p')
  /\ positiveCounts (statistics p')
  /\ Forall (fun e => totalCount (snd e) <> 0) (languages (statistics p'))
  /\ countsAgree (languages (statistics p')) (filter (fun x => negb (JS.ltb (snd x) c)) log)
  /\ config p' = config q.
Proof.
  intros Hwf Hpos Ha Hfd c p'.
  assert (Hv : JS.validTime (now' - frequencyDaysRange (config q) * 24 * 60 * 60 * 1000) = true).
  { apply fourDigitYear_valid. rewrite cutoffTime_day. exact Hfd. }
  destruct (toISODateString_defined _ Hv) as [c0 Hc0].
  assert (Ec : c0 = c) by (apply cutoffDateString_day; exact Hc0).
  subst c0.
  destruct (cleanupExpiredStatistics_returns now' q c Hwf Hc0)
    as (r & Hret & Hls & _ & Hcfg & _).
  unfold p'. rewrite Hret. cbn [instanceAfter].
  destruct (cleanupExpiredStatistics_countsConsistent now' q r Hwf Hret) as [H1 H2].
  split; [exact H2|]. split; [exact H1|]. split.
  { unfold positiveCounts. rewrite Hls.
    apply (prunedLanguages_positiveCounts c [] [] (languages (statistics q))). exact Hpos. }
  split.
  { rewrite Hls. apply Forall_forall. intros [l st] Hin.
    apply prunedLanguages_In in Hin. destruct Hin as (s0 & _ & _ & Hnz). exact Hnz. }
  split; [|exact Hcfg].
  rewrite Hls. apply agree_pruned; [apply Hwf | exact Hpos | exact Ha].
Qed.

Lemma recordable_own_name (language : jsstring) (p : Plugin) :
  JS.inheritedName language = false -> recordable language p = true.
Proof.
  intros H. unfold recordable, JS.read. rewrite H.
  destruct (JS.get language (languages (statistics p))); reflexivity.
Qed.

Lemma handle_selection (p : Plugin) (evs : list Selection) (cut : Z) (e : Selection) :
  windowInvariant p evs cut ->
  JS.inheritedName (snd e) = false ->
  Forall (fun s => fourDigitYear (selectionDay s)) (evs ++ [e]) ->
  let cut' := cutoffDay (frequencyDaysRange (config p)) e in
  fourDigitYear cut' -> cut <= cut' ->
  windowInvariant (handle p (selectionEvent e)) (evs ++ [e]) cut'
  /\ config (handle p (selectionEvent e)) = config p.
Proof.
  intros (Hwf & Hcc & Hpos & _ & Ha) Hown Hf cut' Hc Hle.
  apply Forall_app in Hf. destruct Hf as [Hf He].
  inversion He as [|? ? Hday _]; subst. clear He.
  destruct e as [[now now'] language]. unfold selectionEvent, handle.
  unfold cutoffDay, pruneClock in cut'. cbn [fst snd] in cut'.
  unfold selectionDay in Hday. cbn [fst] in Hday.
  assert (Hlog : forall log1,
            log1 = selectionLog cut evs ++ (if nonBlank language then [logEntry (now, now', language)] else []) ->
            filter (fun x => negb (JS.ltb (snd x) (JS.isoDate cut'))) log1
            = selectionLog cut' (evs ++ [(now, now', language)])).
  { intros log1 ->. rewrite filter_app, logOf_app, logOf_pruned by assumption.
    f_equal. apply (logOf_last cut' (now, now', language)); assumption. }
  rewrite languageChange_spec. unfold getCurrentDateString, JS.toISODateString.
  rewrite (fourDigitYear_valid now Hday).
  cbn [snd] in Hown. rewrite (recordable_own_name language p Hown).
  destruct (nonBlank language) eqn:Enb.
  - set (q := recorded (JS.isoDate (now / JS.msPerDay)) language p).
    assert (Hq : config q = config p) by reflexivity.
    destruct (cleanup_inv now' q (selectionLog cut evs ++ [logEntry (now, now', language)]))
      as (G1 & G2 & G3 & G6 & G4 & G5).
    + apply recorded_wellFormed, Hwf.
    + apply recorded_positiveCounts, Hpos.
    + apply agree_record, Ha.
    + rewrite Hq. exact Hc.
    + rewrite Hq in G4, G5. fold cut' in G4. rewrite (Hlog _ eq_refl) in G4.
      split; [|exact G5]. exact (conj G1 (conj G2 (conj G3 (conj G6 G4)))).
  - destruct (cleanup_inv now' p (selectionLog cut evs)) as (G1 & G2 & G3 & G6 & G4 & G5); try assumption.
    fold cut' in G4.
    rewrite <- (app_nil_r (selectionLog cut evs)) in G4. rewrite (Hlog _ eq_refl) in G4.
    split; [|exact G5]. exact (conj G1 (conj G2 (conj G3 (conj G6 G4)))).
Qed.

Lemma run_selections (evs' : list Selection) :
  forall (p : Plugin) (evs : list Selection) (cut : Z),
    windowInvariant p evs cut ->
    Forall (fun s => JS.inheritedName (snd s) = false) evs' ->
    Forall (fun s => fourDigitYear (selectionDay s)) (evs ++ evs') ->
    cutoffsAscend (frequencyDaysRange (config p)) cut evs' ->
    windowInvariant (run (map selectionEvent evs') p) (evs ++ evs')
      (lastCutoffDay (frequencyDaysRange (config p)) cut evs').
Proof.
  induction evs' as [|e evs' IH]; intros p evs cut Hinv Hown Hf Hasc.
  - rewrite app_nil_r. exact Hinv.
  - destruct Hasc as (Hle & Hc & Hasc). cbn [map run fold_left lastCutoffDay].
    assert (Hf1 : Forall (fun s => fourDigitYear (selectionDay s)) (evs ++ [e])).
    { apply Forall_app. apply Forall_app in Hf. destruct Hf as [H1 H2].
      inversion H2; subst. split; [exact H1 | constructor; [assumption | constructor]]. }
    inversion Hown as [|? ? Hown1 Hown2]; subst.
    destruct (handle_selection p evs cut e Hinv Hown1 Hf1 Hc Hle) as [Hinv' Hcfg].
    fold (run (map selectionEvent evs') (handle p (selectionEvent e))).
    specialize (IH (handle p (selectionEvent e)) (evs ++ [e])
                  (cutoffDay (frequencyDaysRange (config p)) e)).
    rewrite Hcfg, <- app_assoc in IH. apply IH; assumption.
Qed.

Lemma ascending_sorted (w cut : Z) (evs : list Selection) :
  (forall e, In e evs -> cut <= cutoffDay w e) ->
  StronglySorted Z.le (map pruneClock evs) ->
  Forall (fun s => fourDigitYear (cutoffDay w s)) evs ->
  cutoffsAscend w cut evs.
Proof.
  revert cut. induction evs as [|e evs IH]; intros cut Hcut Hs Hf; [exact I|].
  cbn [map] in Hs. apply StronglySorted_inv in Hs. destruct Hs as [Hs Hall].
  inversion Hf as [|? ? He Hf']; subst.
  split; [apply Hcut; left; reflexivity|]. split; [exact He|].
  apply IH; [|exact Hs | exact Hf'].
  intros e' He'. rewrite Forall_forall in Hall.
  assert (H : pruneClock e <= pruneClock e') by (apply Hall, in_map, He').
  unfold cutoffDay. apply Z.sub_le_mono_r. apply Z.div_le_mono; [unfold JS.msPerDay; lia | exact H].
Qed.

Lemma lastCut_last (w cut : Z) (evs : list Selection) (e : Selection) :
  lastCutoffDay w cut (evs ++ [e]) = cutoffDay w e.
Proof.
  revert cut. induction evs as [|x evs IH]; intros cut; [reflexivity|]. apply IH.
Qed.

Lemma logOf_count (cut : Z) (l : jsstring) (evs : list Selection) :
  List.length (filter (fun x => JS.eqb (fst x) l) (selectionLog cut evs))
  = List.length (filter (fun s => recordedFor l s && (cut <=? selectionDay s)) evs).
Proof.
  unfold selectionLog, recordedFor. induction evs as [|s evs IH]; [reflexivity|].
  cbn [filter]. destruct (nonBlank (snd s)); cbn [andb]; [|exact IH].
  destruct (cut <=? selectionDay s); cbn [map filter logEntry fst].
  - destruct (JS.eqb (snd s) l); cbn [andb List.length]; [f_equal|]; exact IH.
  - rewrite andb_false_r. exact IH.
Qed.

End WindowFacts.

(* ================================================================== *)
(** ** Facts about dates and repeated pruning *)
(* ================================================================== *)

Module AbsorptionFacts.
Import JSFacts DateFacts PruneFacts OrderingFacts CanonFacts StatisticsFacts TrimFacts TokenFacts RunFacts RestartFacts ArrangementFacts DistinctFacts WindowFacts.

Lemma padDigits_length (w : nat) (n : Z) : List.length (JS.padDigits w n) = w.
Proof.
  revert n. induction w as [|w IH]; intros n; [reflexivity|].
  rewrite padDigits_succ, length_app, IH. simpl. lia.
Qed.

Lemma isoDate_length (day : Z) : fourDigitYear day -> List.length (JS.isoDate day) = 10%nat.
Proof.
  intros H. pose proof (fourDigitYear_year day H) as Hy.
  unfold JS.isoDate, JS.isoYear. destruct (JS.civilFromDays day) as [[y m] d].
  simpl in Hy.
  assert (E : (0 <=? y) && (y <=? 9999) = true)
    by (apply andb_true_iff; split; apply Z.leb_le; lia).
  rewrite E, !length_app, !padDigits_length. reflexivity.
Qed.

Lemma isoDate_injective (a b : Z) :
  fourDigitYear a -> fourDigitYear b -> JS.isoDate a = JS.isoDate b -> a = b.
Proof.
  intros Ha Hb E.
  assert (H1 := isoDate_ltb a b Ha Hb). assert (H2 := isoDate_ltb b a Hb Ha).
  rewrite E, ltb_irrefl in H1. rewrite E, ltb_irrefl in H2.
  destruct (Z.ltb_spec a b), (Z.ltb_spec b a); try discriminate; lia.
Qed.

(** Pruning at a cutoff, then at a later one. *)
Lemma notExpired_later (c1 c2 : jsstring) (e : jsstring * Z) :
  JS.ltb c2 c1 = false -> notExpired c2 e = true -> notExpired c1 e = true.
Proof.
  unfold notExpired. rewrite !negb_true_iff. intros Hc H.
  destruct (JS.ltb (fst e) c1) eqn:E; [|reflexivity].
  destruct (JS.ltb c1 c2) eqn:E12.
  - rewrite (ltb_trans _ _ _ E E12) in H. discriminate.
  - rewrite (ltb_total _ _ E12 Hc) in E. congruence.
Qed.

Lemma filter_absorb {A : Type} (f g : A -> bool) (l : list A) :
  (forall x, g x = true -> f x = true) -> filter g (filter f l) = filter g l.
Proof.
  intros H. induction l as [|x l IH]; [reflexivity|]. simpl.
  destruct (f x) eqn:F; simpl.
  - rewrite IH. reflexivity.
  - destruct (g x) eqn:G; [rewrite (H x G) in F; discriminate | exact IH].
Qed.

Lemma prunedStats_absorb (c1 c2 : jsstring) (s : LanguageStats) :
  JS.ltb c2 c1 = false -> prunedStats c2 (prunedStats c1 s) = prunedStats c2 s.
Proof.
  intros Hc. unfold prunedStats. cbn [dates].
  rewrite filter_absorb by (intros e; apply notExpired_later; exact Hc). reflexivity.
Qed.

Lemma prunedLanguages_absorb (c1 c2 : jsstring) (ls : JS.object LanguageStats) :
  JS.ltb c2 c1 = false ->
  Forall (fun e => Forall (fun d => 0 < snd d) (dates (snd e))) ls ->
  prunedLanguages c2 (prunedLanguages c1 ls) = prunedLanguages c2 ls.
Proof.
  intros Hc Hpos. unfold prunedLanguages.
  induction Hpos as [|[l s] ls Hs _ IH]; [reflexivity|].
  cbn [map filter fst snd].
  destruct (Z.eqb_spec (totalCount (prunedStats c1 s)) 0) as [Hz|Hz]; cbn [negb].
  - rewrite IH.
    assert (E : totalCount (prunedStats c2 s) = 0).
    { simpl in Hz. simpl.
      assert (Hnil : filter (notExpired c1) (dates s) = []).
      { destruct (filter (notExpired c1) (dates s)) as [|e r] eqn:F; [reflexivity|].
        exfalso.
        assert (Hp : 0 < sumZ (map snd (e :: r))).
        { apply sumZ_positive; [|discriminate].
          apply Forall_forall. intros x Hx. apply in_map_iff in Hx.
          destruct Hx as (y & <- & Hy). rewrite <- F in Hy. apply filter_In in Hy.
          simpl in Hs. rewrite Forall_forall in Hs. apply Hs, Hy. }
        unfold sumCounts in Hz. lia. }
      rewrite <- (filter_absorb (notExpired c1) (notExpired c2))
        by (intros e; apply notExpired_later; exact Hc).
      rewrite Hnil. reflexivity. }
    rewrite E. reflexivity.
  - cbn [map filter fst snd]. rewrite prunedStats_absorb by exact Hc.
    destruct (negb (totalCount (prunedStats c2 s) =? 0)); [f_equal|]; exact IH.
Qed.

End AbsorptionFacts.

(* ================================================================== *)
(** ** The properties of the engine *)
(* ================================================================== *)

Import JSFacts DateFacts PruneFacts OrderingFacts CanonFacts StatisticsFacts.

(** C1 as stated fails: excluded tokens reach the output through
    [customOrder] (Custom mode), through [frequencyOrder] and
    [otherCustomLanguages] (Frequency mode), and through the search pool
    in either mode. *)
Lemma excluded_token_in_output_counterexample :
  (In (js "foo") (excludedTokens sampleCustom) /\
   @languageUpdate asciiLowerCase sampleCustom [js "bar"; js "cobol"] None
   = [js "foo"; js "bar"; js "ada"; js "zig"]) /\
  (In (js "go") (excludedTokens sampleFrequency) /\
   In (js "zig") (excludedTokens sampleFrequency) /\
   @languageUpdate asciiLowerCase sampleFrequency [js "c"; js "cobol"] None
   = [js "python"; js "go"; js "c"; js "zig"]) /\
  (@languageUpdate asciiLowerCase sampleCustom [js "bar"; js "cobol"] (Some (js "o"))
   = [js "foo"]) /\
  (@languageUpdate asciiLowerCase sampleFrequency [js "c"; js "cobol"] (Some (js "G"))
   = [js "go"; js "zig"]).
Proof. vm_compute. intuition. Qed.

(** C1, as amended.  Exclusion filters the candidates of the host only:
    in both modes, with or without search text, a token of
    [excludedLanguages] that appears in the output of [languageUpdate] is
    there as a configured or pinned entry -- a [customOrder] token in
    Custom mode, an [otherCustomLanguages] token, or, in Frequency mode
    without search text, one of the pinned top entries of
    [frequencyOrder] -- never merely as a candidate. *)
Theorem excluded_only_when_configured_or_pinned
    (CM : CaseMapping) (p : Plugin) (cands : list jsstring)
    (value : option jsstring) (x : jsstring) :
  cachesCurrent p ->
  In x (excludedTokens p) ->
  In x (languageUpdate p cands value) ->
  (sortMode (config p) = custom /\ In x (customOrderTokens p))
  \/ In x (otherCustomTokens p)
  \/ (sortMode (config p) = frequency /\ noQuery value /\ In x (topFrequencyLanguages p)).
Proof.
  intros Hc Hex Hin.
  destruct value as [[|c v]|].
  1,3: rewrite languageUpdate_noQuery in Hin
         by (auto; unfold noQuery; auto);
       destruct (sortMode (config p));
       apply in_app_or in Hin; destruct Hin as [Hin|Hin];
       [ left; auto
       | apply sort_In, in_app_or in Hin; destruct Hin as [Hin|Hin];
         [ apply In_filter_not_includes in Hin; tauto
         | apply In_filter_candidates in Hin; tauto ]
       | right; right; unfold noQuery; auto
       | apply sort_In, in_app_or in Hin; destruct Hin as [Hin|Hin];
         [ apply In_filter_not_includes in Hin; tauto
         | apply In_filter_candidates in Hin; tauto ] ].
  rewrite languageUpdate_query in Hin by auto.
  apply sortWith_In, filter_In in Hin. destruct Hin as [Hin _].
  unfold matchPool in Hin. destruct (sortMode (config p)).
  - apply in_app_or in Hin. destruct Hin as [Hin|Hin]; [left; auto|].
    apply in_app_or in Hin. destruct Hin as [Hin|Hin].
    + apply In_filter_not_includes in Hin; tauto.
    + apply In_filter_candidates in Hin; tauto.
  - apply in_app_or in Hin. destruct Hin as [Hin|Hin]; [right; left; auto|].
    apply In_filter_candidates2 in Hin; tauto.
Qed.

Lemma excluded_only_when_configured_or_pinned_witness :
  cachesCurrent sampleCustom /\
  In (js "foo") (excludedTokens sampleCustom) /\
  In (js "foo") (@languageUpdate asciiLowerCase sampleCustom [js "bar"; js "cobol"] None) /\
  ((sortMode (config sampleCustom) = custom /\ In (js "foo") (customOrderTokens sampleCustom))
   \/ In (js "foo") (otherCustomTokens sampleCustom)
   \/ (sortMode (config sampleCustom) = frequency /\ noQuery None
       /\ In (js "foo") (topFrequencyLanguages sampleCustom))).
Proof.
  assert (H1 : cachesCurrent sampleCustom) by (repeat split).
  assert (H2 : In (js "foo") (excludedTokens sampleCustom)) by (vm_compute; auto).
  assert (H3 : In (js "foo")
                 (@languageUpdate asciiLowerCase sampleCustom [js "bar"; js "cobol"] None))
    by (vm_compute; auto).
  split; [exact H1|]. split; [exact H2|]. split; [exact H3|].
  exact (excluded_only_when_configured_or_pinned asciiLowerCase sampleCustom
           [js "bar"; js "cobol"] None (js "foo") H1 H2 H3).
Defined.

(** C2.  In Frequency mode without search text the output begins with the
    first [frequencyTopCount] entries of [frequencyOrder], whatever the
    candidates are; the prefix has [min frequencyTopCount (length
    frequencyOrder)] entries, and it is the whole of [frequencyOrder] when
    fewer languages are tracked than [frequencyTopCount]. *)
Theorem frequency_mode_pins_top_of_frequencyOrder
    (CM : CaseMapping) (p : Plugin) (cands : list jsstring) (value : option jsstring) :
  cachesCurrent p ->
  sortMode (config p) = frequency ->
  noQuery value ->
  0 <= frequencyTopCount (config p) ->
  let n := Z.to_nat (frequencyTopCount (config p)) in
  let tracked := frequencyOrder (statistics p) in
  let pinned := firstn n tracked in
  languageUpdate p cands value =
    pinned
    ++ JS.sort
         (filter (fun lang => negb (JS.Array_includes pinned lang)) (otherCustomTokens p)
          ++ filter (fun lang => negb (JS.Array_includes pinned lang)
                                 && negb (JS.Array_includes (otherCustomTokens p) lang)
                                 && negb (JS.Array_includes (excludedTokens p) lang))
               cands)
  /\ List.length pinned = Nat.min n (List.length tracked)
  /\ ((List.length tracked < n)%nat -> pinned = tracked).
Proof.
  intros Hc Hm Hq Hn n tracked pinned.
  rewrite languageUpdate_noQuery by assumption. rewrite Hm.
  unfold topFrequencyLanguages. rewrite slice0_nonneg by assumption.
  split; [reflexivity|]. split.
  - apply length_firstn.
  - intros Hlt. apply firstn_all2. lia.
Qed.

Lemma frequency_mode_pins_top_of_frequencyOrder_witness :
  let p := sampleFrequency in
  let pinned := firstn (Z.to_nat (frequencyTopCount (config p))) (frequencyOrder (statistics p)) in
  pinned = [js "python"; js "go"] /\
  @languageUpdate asciiLowerCase p [js "c"; js "cobol"] None =
    pinned
    ++ JS.sort
         (filter (fun lang => negb (JS.Array_includes pinned lang)) (otherCustomTokens p)
          ++ filter (fun lang => negb (JS.Array_includes pinned lang)
                                 && negb (JS.Array_includes (otherCustomTokens p) lang)
                                 && negb (JS.Array_includes (excludedTokens p) lang))
               [js "c"; js "cobol"])
  /\ List.length pinned = Nat.min (Z.to_nat (frequencyTopCount (config p)))
                            (List.length (frequencyOrder (statistics p)))
  /\ ((List.length (frequencyOrder (statistics p))
       < Z.to_nat (frequencyTopCount (config p)))%nat ->
      pinned = frequencyOrder (statistics p)).
Proof.
  intros p pinned. split; [reflexivity|].
  apply (frequency_mode_pins_top_of_frequencyOrder asciiLowerCase sampleFrequency
           [js "c"; js "cobol"] None).
  - repeat split.
  - reflexivity.
  - left; reflexivity.
  - simpl; lia.
Defined.

(** C3.  In Custom mode without search text the output is the token list
    of [customOrder], as declared and whatever the candidates are,
    followed by the sorted arrangement (ascending, strings compared code
    unit by code unit) of the [otherCustomLanguages] tokens that are not
    in [customOrder] together with the candidates that are in neither
    list and not excluded. *)
Theorem custom_mode_order
    (CM : CaseMapping) (p : Plugin) (cands : list jsstring) (value : option jsstring) :
  cachesCurrent p ->
  sortMode (config p) = custom ->
  noQuery value ->
  exists rest,
    languageUpdate p cands value = customOrderTokens p ++ rest
    /\ Permutation rest
         (filter (fun lang => negb (JS.Array_includes (customOrderTokens p) lang))
            (otherCustomTokens p)
          ++ filter (fun lang => negb (JS.Array_includes (customOrderTokens p) lang)
                                 && negb (JS.Array_includes (otherCustomTokens p) lang)
                                 && negb (JS.Array_includes (excludedTokens p) lang))
               cands)
    /\ StronglySorted (fun a b => JS.leb a b = true) rest
    /\ (forall x, In x rest <->
          (In x (otherCustomTokens p) /\ ~ In x (customOrderTokens p))
          \/ (In x cands /\ ~ In x (customOrderTokens p)
              /\ ~ In x (otherCustomTokens p) /\ ~ In x (excludedTokens p))).
Proof.
  intros Hc Hm Hq. rewrite languageUpdate_noQuery by assumption. rewrite Hm.
  eexists. split; [reflexivity|]. split; [apply sort_perm|].
  split; [apply sort_sorted|].
  intros x. rewrite sort_In, in_app_iff, In_filter_not_includes, In_filter_candidates.
  reflexivity.
Qed.

Lemma custom_mode_order_witness :
  exists rest,
    @languageUpdate asciiLowerCase sampleCustom [js "bar"; js "cobol"; js "c"] None
    = customOrderTokens sampleCustom ++ rest
    /\ Permutation rest
         (filter (fun lang => negb (JS.Array_includes (customOrderTokens sampleCustom) lang))
            (otherCustomTokens sampleCustom)
          ++ filter (fun lang => negb (JS.Array_includes (customOrderTokens sampleCustom) lang)
                                 && negb (JS.Array_includes (otherCustomTokens sampleCustom) lang)
                                 && negb (JS.Array_includes (excludedTokens sampleCustom) lang))
               [js "bar"; js "cobol"; js "c"])
    /\ StronglySorted (fun a b => JS.leb a b = true) rest
    /\ (forall x, In x rest <->
          (In x (otherCustomTokens sampleCustom) /\ ~ In x (customOrderTokens sampleCustom))
          \/ (In x [js "bar"; js "cobol"; js "c"] /\ ~ In x (customOrderTokens sampleCustom)
              /\ ~ In x (otherCustomTokens sampleCustom)
              /\ ~ In x (excludedTokens sampleCustom))).
Proof.
  apply (custom_mode_order asciiLowerCase sampleCustom [js "bar"; js "cobol"; js "c"] None).
  - repeat split.
  - reflexivity.
  - left; reflexivity.
Defined.

(** A declared token that no candidate matches is still listed first. *)
Example custom_mode_pin_scenario :
  @languageUpdate asciiLowerCase
    (onload (Some (mkConfig custom (js "foo,bar") 5 30 [] [])) None)
    [js "bar"; js "baz"] None
  = [js "foo"; js "bar"; js "baz"].
Proof. reflexivity. Qed.

(** C4.  With search text the output is a rearrangement of the pool
    tokens whose lower-case form contains the lower-case text: first
    those whose lower-case form starts with it, by non-decreasing length
    and in pool order among tokens of one length, then the others in pool
    order.  For [py] over [python; copy; pylint] this gives
    [python; pylint; copy]. *)
Theorem search_filters_and_ranks :
  (forall (CM : CaseMapping) (p : Plugin) (cands : list jsstring) (c : N) (v : jsstring),
     cachesCurrent p ->
     let q := toLowerCase (c :: v) in
     let matches := fun t => JS.includes (toLowerCase t) q in
     let starts := fun t => JS.startsWith (toLowerCase t) q in
     let kept := filter matches (matchPool p cands) in
     let out := languageUpdate p cands (Some (c :: v)) in
     Permutation out kept
     /\ (forall x, In x out <-> In x (matchPool p cands) /\ matches x = true)
     /\ out = filter starts out ++ filter (fun t => negb (starts t)) kept
     /\ StronglySorted (fun a b => JS.length a <= JS.length b) (filter starts out)
     /\ (forall n, filter (fun t => JS.length t =? n) (filter starts out)
                   = filter (fun t => JS.length t =? n) (filter starts kept)))
  /\ (let p := onload (Some (mkConfig frequency [] 5 30 [] [])) None in
      matchPool p [js "python"; js "copy"; js "pylint"]
      = [js "python"; js "copy"; js "pylint"]
      /\ @languageUpdate asciiLowerCase p [js "python"; js "copy"; js "pylint"]
           (Some (js "py"))
         = [js "python"; js "pylint"; js "copy"]).
Proof.
  split; [|split; reflexivity].
  intros CM p cands c v Hc q matches starts kept out.
  assert (Eout : out = JS.sortWith (matchCompare q) kept)
    by (apply languageUpdate_query; exact Hc).
  assert (Hsorted : StronglySorted (JS.cmpLe (matchCompare q)) out).
  { rewrite Eout. apply sortWith_sorted.
    - intros x y z. apply matchCompare_trans.
    - intros x y. apply matchCompare_total. }
  assert (Hrest : filter (fun t => negb (starts t)) out
                  = filter (fun t => negb (starts t)) kept).
  { rewrite Eout. apply sortWith_stable. intros x y _ _ Hx Hy.
    apply negb_true_iff in Hx, Hy. unfold matchCompare. fold (starts x) (starts y).
    rewrite Hx, Hy. simpl. lia. }
  split; [rewrite Eout; apply sortWith_perm|].
  split.
  { intros x. rewrite Eout, sortWith_In. unfold kept. rewrite filter_In. reflexivity. }
  split.
  { rewrite <- Hrest. apply (sorted_split (JS.cmpLe (matchCompare q))); [|exact Hsorted].
    intros x y Hxy Hy. unfold JS.cmpLe, matchCompare in Hxy.
    fold (starts x) (starts y) in Hxy. rewrite Hy in Hxy.
    destruct (starts x); [reflexivity | simpl in Hxy; lia]. }
  split.
  { apply (StronglySorted_weaken (JS.cmpLe (matchCompare q)));
      [|apply StronglySorted_filter, Hsorted].
    intros x y Hx Hy Hxy. apply filter_In in Hx, Hy.
    unfold JS.cmpLe, matchCompare in Hxy. fold (starts x) (starts y) in Hxy.
    rewrite (proj2 Hx), (proj2 Hy) in Hxy. simpl in Hxy. lia. }
  intros n. rewrite !filter_filter, Eout. apply sortWith_stable.
  intros x y _ _ Hx Hy. apply andb_true_iff in Hx, Hy.
  destruct Hx as [Sx Lx], Hy as [Sy Ly]. apply Z.eqb_eq in Lx, Ly.
  unfold matchCompare. fold (starts x) (starts y). rewrite Sx, Sy. simpl. lia.
Qed.

Lemma search_filters_and_ranks_witness :
  let p := sampleCustom in
  let cands := [js "Foobar"; js "cobol"; js "go"] in
  let q := @toLowerCase asciiLowerCase (js "O") in
  let matches := fun t => JS.includes (@toLowerCase asciiLowerCase t) q in
  let starts := fun t => JS.startsWith (@toLowerCase asciiLowerCase t) q in
  let kept := filter matches (matchPool p cands) in
  let out := @languageUpdate asciiLowerCase p cands (Some (js "O")) in
  Permutation out kept
  /\ (forall x, In x out <-> In x (matchPool p cands) /\ matches x = true)
  /\ out = filter starts out ++ filter (fun t => negb (starts t)) kept
  /\ StronglySorted (fun a b => JS.length a <= JS.length b) (filter starts out)
  /\ (forall n, filter (fun t => JS.length t =? n) (filter starts out)
                = filter (fun t => JS.length t =? n) (filter starts kept)).
Proof.
  apply (proj1 search_filters_and_ranks asciiLowerCase sampleCustom
           [js "Foobar"; js "cobol"; js "go"] 79%N []).
  repeat split.
Defined.

(** C5 as stated fails: after one selection of [python], any later
    request is answered with [python] pinned, although all of its counts
    are expired a hundred days later and a pruning pass at that time
    would empty the statistics. *)
Lemma stale_counts_reach_ordering_counterexample :
  let later := sampleNow + 100 * JS.msPerDay in
  let pruned := withStatistics (mkStatistics [] []) sampleStale in
  languageChange sampleNow sampleNow (js "python") (onload None None) = Returned sampleStale
  /\ @languageUpdate asciiLowerCase sampleStale [js "go"] None = [js "python"; js "go"]
  /\ cleanupExpiredStatistics later sampleStale = Returned pruned
  /\ @languageUpdate asciiLowerCase pruned [js "go"] None = [js "go"].
Proof. repeat split; vm_compute; reflexivity. Qed.

(** C5, as amended.  [languageUpdate] does not prune: its output depends
    on the instance through the configuration, the caches and the stored
    [frequencyOrder] only.  Pruning is the last step of [languageChange]
    for every selection that is blank or can be recorded: the handler is
    the pruning pass, run on the instance as it is when the language is
    blank and on the instance with the selection recorded otherwise.
    With valid clock readings it returns, and the instance it returns has
    all its days at or after the cutoff day of that pass, totals that are
    the sums of the stored days and non-zero, and a [frequencyOrder]
    computed from these totals. *)
Theorem pruning_runs_after_each_selection :
  (forall (CM : CaseMapping) (p p' : Plugin) cands value,
     config p = config p' ->
     cachedCustomOrderLanguages p = cachedCustomOrderLanguages p' ->
     cachedOtherCustomLanguages p = cachedOtherCustomLanguages p' ->
     cachedExcludedLanguages p = cachedExcludedLanguages p' ->
     frequencyOrder (statistics p) = frequencyOrder (statistics p') ->
     languageUpdate p cands value = languageUpdate p' cands value)
  /\ (forall (now now' : Z) (language : jsstring) (p : Plugin),
        nonBlank language = false \/ recordable language p = true ->
        let today := JS.isoDate (now / JS.msPerDay) in
        let q := if nonBlank language then recorded today language p else p in
        (languageChange now now' language p =
         if nonBlank language && negb (JS.validTime now) then Thrown p
         else cleanupExpiredStatistics now' q)
        /\ (wellFormed (statistics p) ->
            JS.validTime now = true ->
            JS.validTime (now' - frequencyDaysRange (config p) * 24 * 60 * 60 * 1000) = true ->
            exists c p',
              cutoffDateString now' p = Some c
              /\ languageChange now now' language p = Returned p'
              /\ cleanupExpiredStatistics now' q = Returned p'
              /\ languages (statistics p') = prunedLanguages c (languages (statistics q))
              /\ (forall l s d n,
                    In (l, s) (languages (statistics p')) -> In (d, n) (dates s) ->
                    JS.ltb d c = false)
              /\ countsConsistent (statistics p')
              /\ (forall l s, In (l, s) (languages (statistics p')) -> totalCount s <> 0)
              /\ frequencyOrder (statistics p') =
                   JS.sortWith
                     (fun a b => totalCountOf (languages (statistics p')) b
                                 - totalCountOf (languages (statistics p')) a)
                     (JS.keys (languages (statistics p'))))).
Proof.
  split.
  - intros CM p p' cands value Hc H1 H2 H3 Hf. unfold languageUpdate.
    rewrite Hc, H1, H2, H3, Hf. reflexivity.
  - intros now now' language p Hrec today q.
    assert (Heq : languageChange now now' language p =
                  if nonBlank language && negb (JS.validTime now) then Thrown p
                  else cleanupExpiredStatistics now' q).
    { rewrite languageChange_spec. unfold getCurrentDateString, JS.toISODateString, q, today.
      destruct (nonBlank language); [|reflexivity].
      destruct Hrec as [Hrec|Hrec]; [discriminate|]. rewrite Hrec.
      destruct (JS.validTime now); reflexivity. }
    split; [exact Heq|].
    intros Hwf Hnow Hcut.
    assert (Hch : languageChange now now' language p = cleanupExpiredStatistics now' q).
    { rewrite Heq, Hnow, andb_false_r. reflexivity. }
    assert (Hwfq : wellFormed (statistics q)).
    { unfold q. destruct (nonBlank language); [apply recorded_wellFormed|]; exact Hwf. }
    destruct (toISODateString_defined _ Hcut) as [c Hc].
    assert (Hcq : cutoffDateString now' q = Some c).
    { unfold q. destruct (nonBlank language); exact Hc. }
    destruct (cleanupExpiredStatistics_returns now' q c Hwfq Hcq)
      as (p' & Hret & Hls & Hfo & _).
    exists c, p'. split; [exact Hc|]. split; [rewrite Hch; exact Hret|].
    split; [exact Hret|]. split; [exact Hls|].
    split.
    { intros l s d n H1 H2. rewrite Hls in H1. apply prunedLanguages_In in H1.
      destruct H1 as (s0 & _ & -> & _). simpl in H2. apply filter_In in H2.
      destruct H2 as [_ H2]. unfold notExpired in H2. apply negb_true_iff, H2. }
    split.
    { destruct (cleanupExpiredStatistics_countsConsistent now' q p' Hwfq Hret) as [H _].
      exact H. }
    split; [|exact Hfo].
    intros l s H1. rewrite Hls in H1. apply prunedLanguages_In in H1.
    destruct H1 as (s0 & _ & _ & H). exact H.
Qed.

Lemma pruning_runs_after_each_selection_witness :
  (@languageUpdate asciiLowerCase sampleStale [js "go"] None
   = @languageUpdate asciiLowerCase
       (withLanguages [] sampleStale) [js "go"] None)
  /\ recordable (js "rust") samplePruning = true
  /\ (languageChange sampleNow sampleNow (js "rust") samplePruning
      = cleanupExpiredStatistics sampleNow
          (recorded (js "2025-10-25") (js "rust") samplePruning))
  /\ exists c p',
       cutoffDateString sampleNow samplePruning = Some c
       /\ languageChange sampleNow sampleNow (js "rust") samplePruning = Returned p'
       /\ (forall l s d n,
             In (l, s) (languages (statistics p')) -> In (d, n) (dates s) ->
             JS.ltb d c = false)
       /\ countsConsistent (statistics p')
       /\ (forall l s, In (l, s) (languages (statistics p')) -> totalCount s <> 0).
Proof.
  split.
  - apply (proj1 pruning_runs_after_each_selection asciiLowerCase); reflexivity.
  - assert (Hrec : recordable (js "rust") samplePruning = true) by reflexivity.
    split; [exact Hrec|].
    destruct (proj2 pruning_runs_after_each_selection sampleNow sampleNow (js "rust")
                samplePruning (or_intror Hrec)) as [Heq Hpost].
    split; [exact Heq|].
    destruct (Hpost samplePruning_wellFormed eq_refl eq_refl)
      as (c & p' & H1 & H2 & _ & _ & H5 & H6 & H7 & _).
    exists c, p'. repeat split; assumption.
Defined.

(** C6 at the input on which it fails: a tab inside a segment is white
    space and is kept, where a space becomes an underscore. *)
Theorem parseLanguagesInput_keeps_inner_whitespace :
  JS.isWhiteSpace 9 = true
  /\ parseLanguagesInput (Some (js "a" ++ [9%N] ++ js "b")) = [js "a" ++ [9%N] ++ js "b"]
  /\ parseLanguagesInput (Some (js "a b")) = [js "a_b"].
Proof. repeat split. Qed.

Example parseLanguagesInput_scenario :
  parseLanguagesInput (Some (js "  c++ , my lang,,a`b, x<y&z ,go,go"))
  = [js "c++"; js "my_lang"; js "a_b"; js "x&lt;y&amp;z"; js "go"; js "go"].
Proof. reflexivity. Qed.

(** C7.  A pruning pass with a valid cutoff time returns; afterwards every
    stored day is at or after the cutoff day (the days of a language are
    exactly its former days that are not below the cutoff, the cutoff day
    included; the cutoff is the date of the day of the clock reading minus
    the window, and among dates with a four-digit year a key is below it
    exactly when its day is earlier), every total is the sum of the
    stored days and is not zero, a language is kept exactly when its
    recomputed total is not zero, a removed language is in neither
    [languages] nor [frequencyOrder], and [frequencyOrder] is computed
    from the final [languages]: their keys, by non-increasing total. *)
Theorem cleanup_prunes_expired_days (now : Z) (p : Plugin) :
  wellFormed (statistics p) ->
  JS.validTime (now - frequencyDaysRange (config p) * 24 * 60 * 60 * 1000) = true ->
  exists c p',
    cutoffDateString now p = Some c
    /\ c = JS.isoDate (now / JS.msPerDay - frequencyDaysRange (config p))
    /\ (fourDigitYear (now / JS.msPerDay - frequencyDaysRange (config p)) ->
        forall n, fourDigitYear n ->
          JS.ltb (JS.isoDate n) c = (n <? now / JS.msPerDay - frequencyDaysRange (config p)))
    /\ cleanupExpiredStatistics now p = Returned p'
    /\ let ls := languages (statistics p) in
       let ls' := languages (statistics p') in
       let order' := frequencyOrder (statistics p') in
       (forall l s' d n, In (l, s') ls' -> In (d, n) (dates s') -> JS.ltb d c = false)
       /\ (forall l s', In (l, s') ls' ->
             exists s, In (l, s) ls
                       /\ dates s' = filter (fun e => negb (JS.ltb (fst e) c)) (dates s))
       /\ (forall l s', In (l, s') ls' ->
             totalCount s' = sumCounts (dates s') /\ totalCount s' <> 0)
       /\ (forall l s, In (l, s) ls ->
             if sumCounts (filter (fun e => negb (JS.ltb (fst e) c)) (dates s)) =? 0
             then ~ In l (map fst ls') /\ ~ In l order'
             else In (l, prunedStats c s) ls' /\ In l order')
       /\ order' = JS.sortWith (fun a b => totalCountOf ls' b - totalCountOf ls' a)
                     (JS.keys ls')
       /\ Permutation order' (map fst ls')
       /\ StronglySorted (fun a b => totalCountOf ls' b <= totalCountOf ls' a) order'.
Proof.
  intros Hwf Hv.
  destruct (toISODateString_defined _ Hv) as [c Hc].
  destruct (cleanupExpiredStatistics_returns now p c Hwf Hc)
    as (p' & Hret & Hls & Hfo & _).
  exists c, p'. split; [exact Hc|].
  split; [apply cutoffDateString_day, Hc|].
  split; [intros Hk n Hn; apply cutoffDateString_expired; assumption|].
  split; [exact Hret|].
  intros ls ls' order'.
  assert (Hperm : Permutation order' (map fst ls')).
  { unfold order'. rewrite Hfo, sortWith_perm. apply keys_perm. }
  assert (Hin : forall l s', In (l, s') ls' <->
                  exists s, In (l, s) ls /\ s' = prunedStats c s /\ totalCount s' <> 0).
  { intros l s'. unfold ls'. rewrite Hls. apply prunedLanguages_In. }
  split.
  { intros l s' d n H1 H2. apply Hin in H1. destruct H1 as (s & _ & -> & _).
    simpl in H2. apply filter_In in H2. destruct H2 as [_ H2].
    unfold notExpired in H2. simpl in H2. apply negb_true_iff, H2. }
  split.
  { intros l s' H1. apply Hin in H1. destruct H1 as (s & Hs & -> & _).
    exists s. split; [exact Hs | reflexivity]. }
  split.
  { intros l s' H1. apply Hin in H1. destruct H1 as (s & _ & -> & Hz).
    split; [reflexivity | exact Hz]. }
  split; [|split; [exact Hfo | split; [exact Hperm | apply orderCurrent_sorted, Hfo]]].
  intros l s Hs.
  change (fun e : jsstring * Z => negb (JS.ltb (fst e) c)) with (notExpired c).
  destruct (Z.eqb_spec (sumCounts (filter (notExpired c) (dates s))) 0) as [Hz|Hz].
  - assert (Hno : ~ In l (map fst ls')).
    { intros H. apply in_map_iff in H. destruct H as ([l0 s'] & E & H). simpl in E. subst l0.
      apply Hin in H. destruct H as (s2 & Hs2 & -> & Hnz).
      pose proof (In_get _ _ _ (proj1 Hwf) Hs) as G1.
      pose proof (In_get _ _ _ (proj1 Hwf) Hs2) as G2.
      fold ls in G1, G2. rewrite G1 in G2. injection G2 as <-.
      apply Hnz. exact Hz. }
    split; [exact Hno|]. intros H. apply Hno. eapply Permutation_in; eassumption.
  - assert (Hyes : In (l, prunedStats c s) ls').
    { apply Hin. exists s. split; [exact Hs|]. split; [reflexivity | exact Hz]. }
    split; [exact Hyes|].
    eapply Permutation_in; [apply Permutation_sym, Hperm|].
    change l with (fst (l, prunedStats c s)). apply in_map, Hyes.
Qed.

Lemma cleanup_prunes_expired_days_witness :
  exists c p',
    cutoffDateString sampleNow samplePruning = Some c
    /\ c = JS.isoDate (sampleNow / JS.msPerDay - frequencyDaysRange (config samplePruning))
    /\ (fourDigitYear (sampleNow / JS.msPerDay - frequencyDaysRange (config samplePruning)) ->
        forall n, fourDigitYear n ->
          JS.ltb (JS.isoDate n) c
          = (n <? sampleNow / JS.msPerDay - frequencyDaysRange (config samplePruning)))
    /\ cleanupExpiredStatistics sampleNow samplePruning = Returned p'
    /\ let ls := languages (statistics samplePruning) in
       let ls' := languages (statistics p') in
       let order' := frequencyOrder (statistics p') in
       (forall l s' d n, In (l, s') ls' -> In (d, n) (dates s') -> JS.ltb d c = false)
       /\ (forall l s', In (l, s') ls' ->
             exists s, In (l, s) ls
                       /\ dates s' = filter (fun e => negb (JS.ltb (fst e) c)) (dates s))
       /\ (forall l s', In (l, s') ls' ->
             totalCount s' = sumCounts (dates s') /\ totalCount s' <> 0)
       /\ (forall l s, In (l, s) ls ->
             if sumCounts (filter (fun e => negb (JS.ltb (fst e) c)) (dates s)) =? 0
             then ~ In l (map fst ls') /\ ~ In l order'
             else In (l, prunedStats c s) ls' /\ In l order')
       /\ order' = JS.sortWith (fun a b => totalCountOf ls' b - totalCountOf ls' a)
                     (JS.keys ls')
       /\ Permutation order' (map fst ls')
       /\ StronglySorted (fun a b => totalCountOf ls' b <= totalCountOf ls' a) order'.
Proof.
  apply (cleanup_prunes_expired_days sampleNow samplePruning).
  - apply samplePruning_wellFormed.
  - reflexivity.
Defined.

(** The pass on the sample: the day before the cutoff goes, the cutoff
    day stays, [go] is removed. *)
Example samplePruning_cleanup :
  cleanupExpiredStatistics sampleNow samplePruning = Returned samplePruned
  /\ statistics samplePruned =
     mkStatistics [js "python"]
       [(js "python", mkLanguageStats 4 [(js "2025-09-25", 1); (js "2025-10-25", 3)])].
Proof. split; vm_compute; reflexivity. Qed.



(** A selection of [constructor], which names a property of
    [Object.prototype]: on a fresh instance the handler raises and
    records nothing; once the string is tracked, as after loading a
    store that has it as a key, it is recorded like any other. *)
Example inherited_name_scenario :
  let tracked :=
    withLanguages [(js "constructor", mkLanguageStats 1 [(js "2025-10-25", 1)])]
      (onload None None) in
  recordable (js "constructor") (onload None None) = false
  /\ languageChange sampleNow sampleNow (js "constructor") (onload None None)
     = Thrown (onload None None)
  /\ recordable (js "constructor") tracked = true
  /\ recordLanguage sampleNow (js "constructor") tracked
     = Returned (recorded (js "2025-10-25") (js "constructor") tracked)
  /\ languages (statistics (recorded (js "2025-10-25") (js "constructor") tracked))
     = [(js "constructor", mkLanguageStats 2 [(js "2025-10-25", 2)])].
Proof. repeat split. Qed.

(** Three selections of [python] on three days give a total of three; a
    fourth, a hundred days later, leaves a total of one after the pruning
    pass of that event. *)
Example frequency_aggregation_scenario :
  let day (n : Z) := sampleNow + n * JS.msPerDay in
  let select (n : Z) := LanguageChange (day n) (day n) (js "python") in
  map (fun e => (fst e, totalCount (snd e)))
    (languages (statistics (run [select 0; select 1; select 2] (onload None None))))
  = [(js "python", 3)]
  /\ statistics (run [select 0; select 1; select 2; select 102] (onload None None))
     = mkStatistics [js "python"] [(js "python", mkLanguageStats 1 [(js "2026-02-04", 1)])].
Proof. split; vm_compute; reflexivity. Qed.

(** C9.  Edits of the settings dialog change [tempConfig] only: the
    committed configuration, the saved document and the ordering are
    unchanged, and [destroyCallback] puts the committed configuration
    back into the buffer.  [confirmCallback] makes the buffer the
    committed configuration, saves it and refreshes the caches. *)
Theorem edit_buffer_isolated_until_commit :
  (forall (inputs : list SettingInput) (p : Plugin),
     let p' := fold_left (fun p e => settingInput e p) inputs p in
     config p' = config p
     /\ savedConfig p' = savedConfig p
     /\ (forall (CM : CaseMapping) cands value,
           languageUpdate p' cands value = languageUpdate p cands value)
     /\ tempConfig (destroyCallback p') = config p
     /\ config (destroyCallback p') = config p)
  /\ (forall p : Plugin,
        let p' := confirmCallback p in
        config p' = tempConfig p
        /\ savedConfig p' = Some (tempConfig p)
        /\ tempConfig p' = tempConfig p
        /\ cachesCurrent p'
        /\ statistics p' = statistics p)
  /\ (forall p : Plugin,
        let p' := destroyCallback p in
        tempConfig p' = config p
        /\ config p' = config p
        /\ savedConfig p' = savedConfig p
        /\ statistics p' = statistics p)
  /\ (forall (c : option Config) (s : option Statistics),
        tempConfig (onload c s) = config (onload c s)).
Proof.
  split; [|split; [|split]].
  - intros inputs p p'.
    destruct (settingInputs_frame inputs p) as (H1 & H2 & H3 & H4 & H5 & H6 & H7).
    fold p' in H1, H2, H3, H4, H5, H6, H7.
    split; [exact H1|]. split; [exact H2|]. split.
    + intros CM cands value. unfold languageUpdate. rewrite H1, H3, H4, H5, H6. reflexivity.
    + unfold destroyCallback. simpl. rewrite copyConfig_id. auto.
  - intros p p'. unfold p', confirmCallback. simpl. rewrite copyConfig_id.
    repeat split.
  - intros p p'. unfold p', destroyCallback. simpl. rewrite copyConfig_id. repeat split.
  - intros c s. unfold onload. simpl. rewrite copyConfig_id. reflexivity.
Qed.

Example edit_buffer_scenario :
  let p := onload None None in
  let edited :=
    fold_left (fun p e => settingInput e p)
      [InputSortMode custom; InputCustomOrder (js "rust, go");
       InputFrequencyTopCount (Some 99); InputFrequencyTopCount (Some 7);
       InputFrequencyDaysRange None]
      p in
  config edited = mkConfig frequency [] 5 30 [] []
  /\ tempConfig edited = mkConfig custom (js "rust, go") 7 30 [] []
  /\ config (confirmCallback edited) = mkConfig custom (js "rust, go") 7 30 [] []
  /\ cachedCustomOrderLanguages (confirmCallback edited) = [js "rust"; js "go"]
  /\ tempConfig (destroyCallback edited) = mkConfig frequency [] 5 30 [] [].
Proof. repeat split. Qed.

(** C10.  A non-blank selection is recorded under the selected string as
    it is: whenever the selection can be recorded -- the string is
    tracked already or names no property of [Object.prototype] -- the
    string becomes a key of [languages] and an entry of [frequencyOrder],
    and remains one after the pruning pass when its day is not expired,
    as is the case when the window reaches back to the day of the
    selection.  So a string that [parseLanguagesInput] can never produce
    reaches the pinned prefix of Frequency mode. *)
Theorem selection_keyed_by_raw_string :
  (forall (now now' : Z) (language d : jsstring) (p : Plugin),
     nonBlank language = true ->
     getCurrentDateString now = Some d ->
     recordable language p = true ->
     let ls := languages (statistics p) in
     exists q,
       recordLanguage now language p = Returned q
       /\ languageChange now now' language p = cleanupExpiredStatistics now' q
       /\ map fst (languages (statistics q)) =
            match JS.get language ls with
            | Some _ => map fst ls
            | None => map fst ls ++ [language]
            end
       /\ In language (map fst (languages (statistics q)))
       /\ In language (frequencyOrder (statistics q))
       /\ (forall c, wellFormed (statistics p) -> positiveCounts (statistics p) ->
             cutoffDateString now' p = Some c -> JS.ltb d c = false ->
             exists p',
               languageChange now now' language p = Returned p'
               /\ In language (map fst (languages (statistics p')))
               /\ In language (frequencyOrder (statistics p')))
       /\ (forall c, cutoffDateString now' p = Some c ->
             fourDigitYear (now / JS.msPerDay) ->
             fourDigitYear (now' / JS.msPerDay - frequencyDaysRange (config p)) ->
             now' / JS.msPerDay - frequencyDaysRange (config p) <= now / JS.msPerDay ->
             JS.ltb d c = false))
  /\ (languageChange sampleNow sampleNow rawLanguage (onload None None) = Returned sampleRaw
      /\ map fst (languages (statistics sampleRaw)) = [rawLanguage]
      /\ frequencyOrder (statistics sampleRaw) = [rawLanguage]
      /\ @languageUpdate asciiLowerCase sampleRaw [js "c"] None = [rawLanguage; js "c"]
      /\ forall input, ~ In rawLanguage (parseLanguagesInput input)).
Proof.
  split.
  - intros now now' language d p Hnb Hd Hrec ls.
    set (q := recorded d language p). exists q.
    assert (Hq : recordLanguage now language p = Returned q)
      by (rewrite recordLanguage_spec, Hd, Hrec; reflexivity).
    assert (Hch : languageChange now now' language p = cleanupExpiredStatistics now' q)
      by (apply languageChange_nonBlank; assumption).
    assert (Hkeys : map fst (languages (statistics q)) =
                    match JS.get language ls with
                    | Some _ => map fst ls
                    | None => map fst ls ++ [language]
                    end).
    { unfold q. rewrite recorded_languages. simpl. apply set_keys. }
    assert (Hin : In language (map fst (languages (statistics q)))).
    { destruct (recorded_entry d language p) as (s' & Hg & _).
      eapply get_Some_key. exact Hg. }
    split; [exact Hq|]. split; [exact Hch|]. split; [exact Hkeys|]. split; [exact Hin|].
    split; [|split].
    + unfold q. rewrite recorded_frequencyOrder. apply sortWith_In, keys_In. exact Hin.
    + intros c Hwf Hpos Hc Hlt. rewrite Hch.
      apply recorded_language_survives with (c := c); assumption.
    + intros c Hc Hn Hk Hle. eapply selection_day_not_expired; eassumption.
  - split; [vm_compute; reflexivity|]. split; [reflexivity|]. split; [reflexivity|].
    split; [vm_compute; reflexivity|].
    intros input H. apply parseLanguagesInput_token in H.
    destruct H as (_ & Hsp & _). apply Hsp. simpl. auto.
Qed.

Lemma selection_keyed_by_raw_string_witness :
  let language := js "c ++" in
  let p := samplePruning in
  exists q,
    recordLanguage sampleNow language p = Returned q
    /\ languageChange sampleNow sampleNow language p = cleanupExpiredStatistics sampleNow q
    /\ map fst (languages (statistics q)) = [js "python"; js "go"; language]
    /\ In language (frequencyOrder (statistics q))
    /\ exists p',
         languageChange sampleNow sampleNow language p = Returned p'
         /\ In language (map fst (languages (statistics p')))
         /\ In language (frequencyOrder (statistics p')).
Proof.
  intros language p.
  destruct (proj1 selection_keyed_by_raw_string sampleNow sampleNow language
              (js "2025-10-25") p eq_refl eq_refl eq_refl)
    as (q & H0 & H1 & H2 & _ & H4 & H5 & _).
  exists q. split; [exact H0|]. split; [exact H1|]. split; [exact H2|]. split; [exact H4|].
  apply (H5 (js "2025-09-25")).
  - apply samplePruning_wellFormed.
  - unfold positiveCounts. simpl. repeat constructor.
  - reflexivity.
  - reflexivity.
Defined.

(* ================================================================== *)
(** ** Further properties of the code *)
(* ================================================================== *)

Import TrimFacts TokenFacts RunFacts RestartFacts ArrangementFacts DistinctFacts WindowFacts AbsorptionFacts.

(** X1.  [escapeHtml] works as one pass over the code units: [&] becomes
    [&amp;], [<] becomes [&lt;], every other code unit is kept, and the
    [&] of an entity it has written is not escaped again.  The length
    grows by 4 for each [&] and by 3 for each [<], and no two strings
    have the same image. *)
Theorem escapeHtml_single_pass :
  (forall s, escapeHtml s = flat_map escapeUnit s)
  /\ (forall s, List.length (escapeHtml s)
                = (List.length s + 4 * countUnit 38 s + 3 * countUnit 60 s)%nat)
  /\ (forall s t, escapeHtml s = escapeHtml t -> s = t)
  /\ (forall s, escapeHtml s = s <-> ~ In 38%N s /\ ~ In 60%N s).
Proof.
  split; [exact escapeHtml_units|].
  split; [exact escapeHtml_length|].
  split; [exact escapeHtml_injective | exact escapeHtml_fixed_iff].
Qed.

(** X2.  Every token [parseLanguagesInput] returns is a non-empty string
    without comma, space, backtick or [<] that [trim] leaves as it is: it
    neither begins nor ends with white space. *)
Theorem parseLanguagesInput_tokens_plain (input : option jsstring) :
  Forall (fun t => t <> [] /\ JS.trim t = t
                   /\ ~ In 44%N t /\ ~ In 32%N t /\ ~ In 96%N t /\ ~ In 60%N t)
    (parseLanguagesInput input).
Proof.
  apply Forall_forall. intros t Ht.
  destruct (parseLanguagesInput_plain _ _ Ht) as ((H1 & H2 & H3 & H4 & H5) & H6).
  repeat split; assumption.
Qed.

(** X3.  Joining tokens with [","] or [", "] and parsing the text gives
    the first 300 of them back, each escaped once more: a token without
    [&] and [<] comes back as it was. *)
Theorem parseLanguagesInput_of_joined_tokens (l : list jsstring) :
  Forall plainToken l ->
  parseLanguagesInput (Some (JS.join (js ",") l)) = map escapeHtml (firstn 300 l)
  /\ parseLanguagesInput (Some (JS.join (js ", ") l)) = map escapeHtml (firstn 300 l).
Proof. apply parse_join. Qed.

Lemma parseLanguagesInput_of_joined_tokens_witness :
  Forall plainToken [js "go"; js "c&d"; js "objective-c"]
  /\ parseLanguagesInput (Some (JS.join (js ", ") [js "go"; js "c&d"; js "objective-c"]))
     = map escapeHtml (firstn 300 [js "go"; js "c&d"; js "objective-c"]).
Proof.
  assert (H : Forall plainToken [js "go"; js "c&d"; js "objective-c"]).
  { repeat constructor; simpl; try discriminate; intuition discriminate. }
  split; [exact H|].
  exact (proj2 (parseLanguagesInput_of_joined_tokens _ H)).
Defined.


(** X5.  [getBuiltinLanguages] lists every alias and every highlighter
    name, a name of both lists twice, in cutoffsAscend order of code units.
    When these names are plain tokens without [&] and [<], the text of a
    fill button, once it has reached the edit buffer and the dialog is
    confirmed, is cached as the first 300 names of the list. *)
Theorem fill_text_round_trip (hljs alias : option (list jsstring)) (p : Plugin) :
  let names := getBuiltinLanguages hljs alias in
  Forall (fun t => plainToken t /\ ~ In 38%N t /\ ~ In 60%N t) names ->
  Permutation names
    (match alias with Some l => l | None => [] end
     ++ match hljs with Some l => l | None => [] end)
  /\ StronglySorted (fun x y => JS.leb x y = true) names
  /\ cachedCustomOrderLanguages
       (confirmCallback (settingInput (InputCustomOrder (fillAllBuiltinLanguages hljs alias)) p))
     = firstn 300 names
  /\ cachedExcludedLanguages
       (confirmCallback (settingInput (InputExcludedLanguages (fillAllBuiltinLanguages hljs alias)) p))
     = firstn 300 names.
Proof.
  intros names H.
  split; [apply sort_perm|]. split; [apply sort_sorted|].
  assert (Hp : Forall plainToken names).
  { eapply Forall_impl; [|exact H]. intros t Ht. apply Ht. }
  assert (E : parseLanguagesInput (Some (fillAllBuiltinLanguages hljs alias)) = firstn 300 names).
  { unfold fillAllBuiltinLanguages. fold names.
    rewrite (proj2 (parse_join names Hp)).
    rewrite <- (map_id (firstn 300 names)) at 2. apply map_ext_in.
    intros t Ht. apply firstn_In in Ht. rewrite Forall_forall in H.
    destruct (H t Ht) as (_ & H1 & H2). apply escapeHtml_plain; assumption. }
  split; simpl; exact E.
Qed.

Lemma fill_text_round_trip_witness :
  let hljs := Some [js "go"; js "c"] in
  let alias := Some [js "js"; js "c"] in
  Forall (fun t => plainToken t /\ ~ In 38%N t /\ ~ In 60%N t) (getBuiltinLanguages hljs alias)
  /\ cachedExcludedLanguages
       (confirmCallback
          (settingInput (InputExcludedLanguages (fillAllBuiltinLanguages hljs alias))
             (onload None None)))
     = firstn 300 (getBuiltinLanguages hljs alias).
Proof.
  intros hljs alias.
  assert (H : Forall (fun t => plainToken t /\ ~ In 38%N t /\ ~ In 60%N t)
                (getBuiltinLanguages hljs alias)).
  { vm_compute. repeat constructor; try discriminate; intuition discriminate. }
  split; [exact H|].
  destruct (fill_text_round_trip hljs alias (onload None None) H) as (_ & _ & _ & E).
  exact E.
Defined.

(** X6.  [cleanupExpiredStatistics] raises exactly when its cutoff time
    is not a valid time value, and then it has changed nothing.
    [languageChange] raises in three cases.  The language is not blank,
    and the clock reading is invalid or the selection cannot be recorded:
    then nothing is changed, nothing is saved and no pruning is done.
    The language is blank and the cutoff time is invalid: nothing is
    changed.  The language is not blank, the selection is recorded, and
    the cutoff time is invalid: then the selection has been recorded and
    saved before the exception. *)
Theorem handlers_raise_exactly_when (now now' : Z) (language : jsstring) (p q : Plugin) :
  let cutoffTime := now' - frequencyDaysRange (config p) * 24 * 60 * 60 * 1000 in
  let q' := recorded (JS.isoDate (now / JS.msPerDay)) language p in
  (cleanupExpiredStatistics now' p = Thrown q
   <-> JS.validTime cutoffTime = false /\ q = p)
  /\ (languageChange now now' language p = Thrown q
      <-> (nonBlank language = true
           /\ (JS.validTime now = false \/ recordable language p = false) /\ q = p)
          \/ (nonBlank language = false /\ JS.validTime cutoffTime = false /\ q = p)
          \/ (nonBlank language = true /\ JS.validTime now = true
              /\ recordable language p = true
              /\ JS.validTime cutoffTime = false /\ q = q'))
  /\ savedStatistics q' = Some (statistics q').
Proof.
  intros cutoffTime q'.
  assert (Hc : forall p0 q0,
             cleanupExpiredStatistics now' p0 = Thrown q0
             <-> JS.validTime (now' - frequencyDaysRange (config p0) * 24 * 60 * 60 * 1000) = false
                 /\ q0 = p0).
  { intros p0 q0. pose proof (cleanupExpiredStatistics_completion now' p0) as H.
    cbv zeta in H. destruct (JS.validTime _).
    - destruct H as [p' ->]. split; [discriminate | intros [? _]; discriminate].
    - rewrite H. split; [intros E; injection E as <-; auto | intros [_ ->]; reflexivity]. }
  split; [apply Hc|]. split; [|reflexivity].
  rewrite languageChange_spec. unfold getCurrentDateString, JS.toISODateString.
  destruct (nonBlank language).
  - destruct (JS.validTime now).
    + destruct (recordable language p).
      * fold q'. rewrite Hc. change (config q') with (config p). fold cutoffTime. split.
        -- intros [H1 H2]. right; right. auto.
        -- intros [(_ & [H|H] & _)|[(H & _)|(_ & _ & _ & H1 & H2)]]; try discriminate. auto.
      * split.
        -- intros E. injection E as <-. left. auto.
        -- intros [(_ & _ & ->)|[(H & _)|(_ & _ & H & _)]]; try discriminate. reflexivity.
    + split.
      * intros E. injection E as <-. left. auto.
      * intros [(_ & _ & ->)|[(H & _)|(_ & H & _)]]; try discriminate. reflexivity.
  - rewrite Hc. fold cutoffTime. split.
    + intros [H1 H2]. right; left. auto.
    + intros [(H & _)|[(_ & H1 & H2)|(H & _)]]; try discriminate. auto.
Qed.

(** X7.  Every instance a run reaches from [onload] -- with no stored
    documents, or with a stored configuration whose numbers are absent or
    in range and stored statistics that satisfy the invariant -- has
    current caches, statistics that satisfy the invariant, a
    [frequencyOrder] without duplicates, and the two numbers of the
    committed configuration and of the edit buffer within 1..15 and
    1..90.  On such an instance [languageChange] returns whenever its
    clock readings, and the second one 90 days earlier, are valid time
    values and the selection is blank or can be recorded. *)
Theorem reachable_instances_are_sound
    (c : option Config) (s : option Statistics) (events : list Event) :
  storedRangesValid c ->
  match s with Some s => statisticsInvariant s | None => True end ->
  let p := run events (onload c s) in
  cachesCurrent p
  /\ statisticsInvariant (statistics p)
  /\ NoDup (frequencyOrder (statistics p))
  /\ rangesValid (config p) /\ rangesValid (tempConfig p)
  /\ (forall now now' language,
        JS.validTime now = true -> JS.validTime now' = true ->
        JS.validTime (now' - 90 * JS.msPerDay) = true ->
        nonBlank language = false \/ recordable language p = true ->
        exists p', languageChange now now' language p = Returned p').
Proof.
  intros Hc Hs p.
  destruct (run_invariant events (onload c s) (onload_invariant c s Hs)) as [H1 H2].
  destruct (run_ranges events (onload c s) (onload_ranges c s Hc)) as [H3 H4].
  fold p in H1, H2, H3, H4.
  split; [exact H1|]. split; [exact H2|]. split.
  { destruct H2 as ((Hk & _) & _ & _ & Ho). rewrite Ho.
    eapply Permutation_NoDup; [apply Permutation_sym, sortWith_perm|].
    apply keys_NoDup, Hk. }
  split; [exact H3|]. split; [exact H4|].
  intros now now' language Hn Hn' Hn90 Hrec.
  destruct (languageChange_returns now now' language p) as (c0 & q0 & p' & _ & _ & _ & H & _).
  - apply H2.
  - exact Hn.
  - apply cutoff_valid; assumption.
  - exact Hrec.
  - exists p'. exact H.
Qed.

Lemma reachable_instances_are_sound_witness :
  let events :=
    [LanguageChange sampleNow sampleNow (js "go");
     SettingEdit (InputFrequencyDaysRange (Some 500));
     SettingEdit (InputFrequencyDaysRange (Some 7)); Confirm;
     LanguageChange (sampleNow + 8 * JS.msPerDay) (sampleNow + 8 * JS.msPerDay) (js "c")] in
  rangesValid (config (run events (onload None None)))
  /\ NoDup (frequencyOrder (statistics (run events (onload None None)))).
Proof.
  intros events.
  destruct (reachable_instances_are_sound None None events I I) as (_ & _ & H1 & H2 & _).
  split; [exact H2 | exact H1].
Defined.

(** X8.  A selection is saved before the pruning pass runs: when
    [languageChange] returns for a language that is not blank, the saved
    statistics are those with the selection recorded and nothing pruned,
    while the instance holds their pruned form; for a blank language
    nothing is saved, although the instance is pruned. *)
Theorem statistics_saved_before_pruning
    (now now' : Z) (language : jsstring) (p : Plugin) :
  JS.validTime now = true ->
  JS.validTime (now' - frequencyDaysRange (config p) * 24 * 60 * 60 * 1000) = true ->
  nonBlank language = false \/ recordable language p = true ->
  let q := recorded (JS.isoDate (now / JS.msPerDay)) language p in
  exists p',
    languageChange now now' language p = Returned p'
    /\ if nonBlank language
       then savedStatistics p' = Some (statistics q)
            /\ cleanupExpiredStatistics now' q = Returned p'
       else savedStatistics p' = savedStatistics p
            /\ cleanupExpiredStatistics now' p = Returned p'.
Proof.
  intros Hn Hc Hrec q.
  rewrite languageChange_spec. unfold getCurrentDateString, JS.toISODateString. rewrite Hn.
  fold q. destruct (nonBlank language).
  - destruct Hrec as [Hrec|Hrec]; [discriminate|]. rewrite Hrec.
    pose proof (cleanupExpiredStatistics_completion now' q) as H. cbv zeta in H.
    change (config q) with (config p) in H. rewrite Hc in H.
    destruct H as [p' H]. exists p'. split; [exact H|]. split; [|exact H].
    pose proof (cleanupExpiredStatistics_frame now' q) as (_ & _ & _ & G).
    rewrite H in G. simpl in G. rewrite G. reflexivity.
  - pose proof (cleanupExpiredStatistics_completion now' p) as H. cbv zeta in H.
    rewrite Hc in H. destruct H as [p' H]. exists p'. split; [exact H|]. split; [|exact H].
    pose proof (cleanupExpiredStatistics_frame now' p) as (_ & _ & _ & G).
    rewrite H in G. exact G.
Qed.

Lemma statistics_saved_before_pruning_witness :
  exists p',
    languageChange sampleNow sampleNow (js "go") samplePruning = Returned p'
    /\ savedStatistics p'
       = Some (statistics (recorded (JS.isoDate (sampleNow / JS.msPerDay)) (js "go")
                             samplePruning)).
Proof.
  destruct (statistics_saved_before_pruning sampleNow sampleNow (js "go") samplePruning
              eq_refl eq_refl (or_intror eq_refl)) as (p' & H1 & H2).
  exists p'. split; [exact H1|]. exact (proj1 H2).
Defined.

(** The saved document of the sample keeps the expired days that the
    instance has dropped. *)
Example saved_statistics_keep_expired_days :
  savedStatistics sampleSelected <> Some (statistics sampleSelected).
Proof. vm_compute. discriminate. Qed.

(** X9.  A restart restores the committed configuration: on every
    instance a run reaches from [onload], loading the saved configuration
    document gives the committed configuration and its caches, with the
    edit buffer reset to it; pending edits are lost.  So after a restart
    the ordering with search text, and the ordering of Custom mode, are
    what they were. *)
Theorem restart_restores_configuration
    (c : option Config) (s s' : option Statistics) (events : list Event) :
  storedRangesValid c ->
  let p := run events (onload c s) in
  let restarted := onload (savedConfig p) s' in
  config restarted = config p
  /\ tempConfig restarted = config p
  /\ cachedCustomOrderLanguages restarted = cachedCustomOrderLanguages p
  /\ cachedOtherCustomLanguages restarted = cachedOtherCustomLanguages p
  /\ cachedExcludedLanguages restarted = cachedExcludedLanguages p
  /\ (forall (CM : CaseMapping) cands value,
        (sortMode (config p) = custom \/ ~ noQuery value) ->
        languageUpdate restarted cands value = languageUpdate p cands value).
Proof.
  intros Hc p restarted.
  assert (Hconf : config restarted = config p).
  { apply run_restorable; [apply onload_ranges, Hc | apply onload_restorable]. }
  assert (Hcur : cachesCurrent p) by (apply run_caches; repeat split).
  assert (Hcur' : cachesCurrent restarted) by (repeat split).
  destruct Hcur as (C1 & C2 & C3). destruct Hcur' as (D1 & D2 & D3).
  unfold customOrderTokens, otherCustomTokens, excludedTokens in *.
  rewrite Hconf in D1, D2, D3.
  assert (E1 : cachedCustomOrderLanguages restarted = cachedCustomOrderLanguages p) by congruence.
  assert (E2 : cachedOtherCustomLanguages restarted = cachedOtherCustomLanguages p) by congruence.
  assert (E3 : cachedExcludedLanguages restarted = cachedExcludedLanguages p) by congruence.
  split; [exact Hconf|].
  split; [unfold restarted; rewrite <- Hconf; apply copyConfig_id|].
  split; [exact E1|]. split; [exact E2|]. split; [exact E3|].
  intros CM cands value Hq. unfold languageUpdate. rewrite E1, E2, E3, Hconf.
  destruct value as [[|v0 v]|]; try reflexivity.
  - destruct Hq as [-> | Hq]; [reflexivity|]. exfalso. apply Hq. right. reflexivity.
  - destruct Hq as [-> | Hq]; [reflexivity|]. exfalso. apply Hq. left. reflexivity.
Qed.

Lemma restart_restores_configuration_witness :
  let events := [SettingEdit (InputSortMode custom); SettingEdit (InputCustomOrder (js "rust, go"));
                 Confirm; SettingEdit (InputCustomOrder (js "zig"))] in
  let p := run events (onload None None) in
  config (onload (savedConfig p) None) = config p.
Proof.
  intros events p.
  exact (proj1 (restart_restores_configuration None None None events I)).
Defined.

(** X10.  Without search text the output does not depend on the order in
    which the host lists the candidates: every rearrangement of the
    candidates gives the same list, in either mode. *)
Theorem candidate_order_irrelevant_without_query
    (CM : CaseMapping) (p : Plugin) (cands cands' : list jsstring)
    (value : option jsstring) :
  noQuery value ->
  Permutation cands cands' ->
  languageUpdate p cands value = languageUpdate p cands' value.
Proof.
  intros Hq Hp.
  assert (H : forall P O f,
             P ++ JS.sort (O ++ filter f cands) = P ++ JS.sort (O ++ filter f cands')).
  { intros P O f. f_equal. apply sort_of_perm, Permutation_app_head, filter_perm, Hp. }
  unfold languageUpdate.
  destruct Hq as [-> | ->]; destruct (sortMode (config p)); apply H.
Qed.

Lemma candidate_order_irrelevant_without_query_witness :
  @languageUpdate asciiLowerCase sampleFrequency [js "rust"; js "ada"; js "c"] None
  = @languageUpdate asciiLowerCase sampleFrequency [js "c"; js "rust"; js "ada"] None.
Proof.
  apply (candidate_order_irrelevant_without_query asciiLowerCase sampleFrequency).
  - left. reflexivity.
  - apply Permutation_sym. apply (Permutation_cons_append [js "rust"; js "ada"] (js "c")).
Defined.

(** With search text the order of the candidates can show in the output. *)
Example candidate_order_shows_with_query :
  @languageUpdate asciiLowerCase (onload None None) [js "ab"; js "ac"] (Some (js "a"))
  <> @languageUpdate asciiLowerCase (onload None None) [js "ac"; js "ab"] (Some (js "a")).
Proof. vm_compute. discriminate. Qed.

(** X11.  The output lists no string twice when the candidates, the
    [otherCustomLanguages] tokens and the pinned list of the mode -- the
    [customOrder] tokens or [frequencyOrder] -- have no duplicates: the
    filters keep out of each part what an earlier part holds. *)
Theorem languageUpdate_lists_each_once
    (CM : CaseMapping) (p : Plugin) (cands : list jsstring) (value : option jsstring) :
  NoDup cands ->
  NoDup (cachedOtherCustomLanguages p) ->
  (sortMode (config p) = custom -> NoDup (cachedCustomOrderLanguages p)) ->
  (sortMode (config p) = frequency -> NoDup (frequencyOrder (statistics p))) ->
  NoDup (languageUpdate p cands value).
Proof.
  intros HL HO HC HF.
  assert (Hbase : forall P, NoDup P ->
            NoDup (P ++ JS.sort
                     (filter (fun lang => negb (JS.Array_includes P lang))
                        (cachedOtherCustomLanguages p)
                      ++ filter (fun lang => negb (JS.Array_includes P lang)
                                   && negb (JS.Array_includes (cachedOtherCustomLanguages p) lang)
                                   && negb (JS.Array_includes (cachedExcludedLanguages p) lang))
                           cands))).
  { intros P HP. eapply Permutation_NoDup;
      [apply Permutation_app_head, Permutation_sym, sort_perm|].
    apply NoDup_pinned_rest; assumption. }
  assert (Hsearch : forall q pool, NoDup pool ->
            NoDup (JS.sortWith (matchCompare q)
                     (filter (fun item => JS.includes (toLowerCase item) q) pool))).
  { intros q pool H. eapply Permutation_NoDup;
      [apply Permutation_sym, sortWith_perm | apply NoDup_filter, H]. }
  unfold languageUpdate.
  destruct value as [[|c v]|]; destruct (sortMode (config p)) eqn:Em;
    try (apply Hbase; auto; apply NoDup_slice0; auto).
  - apply Hsearch, NoDup_pinned_rest; auto.
  - apply Hsearch, NoDup_other_rest; auto.
Qed.

Lemma languageUpdate_lists_each_once_witness :
  NoDup (@languageUpdate asciiLowerCase sampleFrequency
           [js "go"; js "python"; js "zig"; js "cobol"; js "c"] None).
Proof.
  apply (languageUpdate_lists_each_once asciiLowerCase sampleFrequency).
  - repeat (apply NoDup_cons; [simpl; intuition discriminate|]). apply NoDup_nil.
  - vm_compute. repeat (apply NoDup_cons; [simpl; intuition discriminate|]). apply NoDup_nil.
  - intros H. discriminate H.
  - intros _. vm_compute.
    repeat (apply NoDup_cons; [simpl; intuition discriminate|]). apply NoDup_nil.
Defined.

(** A token declared twice is listed twice. *)
Example duplicate_token_listed_twice :
  @languageUpdate asciiLowerCase
    (onload (Some (mkConfig custom (js "go, go") 5 30 [] [])) None) [js "c"] None
  = [js "go"; js "go"; js "c"].
Proof. reflexivity. Qed.

(** X12.  What the totals count.  Take statistics that track nothing and
    let selections arrive whose languages name no property of
    [Object.prototype] and whose days, and cutoff days, have a four-digit
    year, the clock of the pruning passes never going back.
    After the last event the [totalCount] of a language is the number of
    non-blank selections of exactly that string whose day is not before
    the cutoff day of the last event -- the day of its second clock
    reading minus [frequencyDaysRange] -- and the count stored for a day
    is the number of those selections made on that day.  A language
    without such a selection has a total of zero: it is not tracked. *)
Theorem totals_count_selections_in_window
    (p : Plugin) (sels : list Selection) (last : Selection) :
  languages (statistics p) = [] ->
  let w := frequencyDaysRange (config p) in
  let all := sels ++ [last] in
  Forall (fun s => JS.inheritedName (snd s) = false) all ->
  Forall (fun s => fourDigitYear (selectionDay s)
                   /\ fourDigitYear (pruneClock s / JS.msPerDay - w)) all ->
  StronglySorted Z.le (map pruneClock all) ->
  let cut := pruneClock last / JS.msPerDay - w in
  let ls' := languages (statistics (run (map selectionEvent all) p)) in
  (forall language,
     totalCountOf ls' language
     = Z.of_nat (List.length
                   (filter (fun s => recordedFor language s && (cut <=? selectionDay s)) all)))
  /\ (forall language day,
        fourDigitYear day ->
        dayCount ls' language (JS.isoDate day)
        = Z.of_nat (List.length
                      (filter (fun s => recordedFor language s && (cut <=? selectionDay s)
                                        && (selectionDay s =? day)) all)))
  /\ (forall language,
        In language (map fst ls')
        <-> exists s, In s all /\ recordedFor language s = true /\ cut <= selectionDay s).
Proof.
  intros Hempty w all Hown Hall Hsorted cut ls'.
  assert (Hdays : Forall (fun s => fourDigitYear (selectionDay s)) all).
  { eapply Forall_impl; [|exact Hall]. intros s [H _]. exact H. }
  assert (Hcuts : Forall (fun s => fourDigitYear (cutoffDay w s)) all).
  { eapply Forall_impl; [|exact Hall]. intros s [_ H]. exact H. }
  assert (Hinv0 : windowInvariant p [] (-719528)).
  { unfold windowInvariant, wellFormed, countsConsistent, positiveCounts, countsAgree, dayCount, statsBefore.
    rewrite Hempty. repeat split; try constructor. }
  assert (Hasc : cutoffsAscend w (-719528) all).
  { apply ascending_sorted; [|exact Hsorted | exact Hcuts].
    intros e He. rewrite Forall_forall in Hcuts. apply (Hcuts e He). }
  pose proof (run_selections all p [] (-719528) Hinv0 Hown Hdays Hasc) as Hinv.
  cbn [app] in Hinv. unfold all in Hinv at 3. rewrite lastCut_last in Hinv.
  fold w in Hinv. change (cutoffDay w last) with cut in Hinv.
  destruct Hinv as (Hwf & Hcc & Hpos & Hnz & Ha).
  assert (Htotal : forall language,
            totalCountOf ls' language
            = Z.of_nat (List.length
                (filter (fun s => recordedFor language s && (cut <=? selectionDay s)) all))).
  { intros language. unfold ls'. rewrite (agree_total _ _ language Hwf Hcc Ha).
    rewrite logOf_count. reflexivity. }
  split; [exact Htotal|]. split.
  - intros language day Hday. unfold ls'. rewrite Ha. f_equal.
    unfold countIn, selectionLog, recordedFor. clear - Hdays Hday.
    induction Hdays as [|s l Hs _ IH]; [reflexivity|].
    cbn [filter]. destruct (nonBlank (snd s)); cbn [andb]; [|exact IH].
    destruct (cut <=? selectionDay s); cbn [map filter logEntry fst snd].
    + assert (E : JS.eqb (JS.isoDate (selectionDay s)) (JS.isoDate day)
                  = (selectionDay s =? day)).
      { destruct (Z.eqb_spec (selectionDay s) day) as [->|Hne]; [apply eqb_refl|].
        apply eqb_neq. intros E.
        assert (H1 := isoDate_ltb (selectionDay s) day Hs Hday).
        assert (H2 := isoDate_ltb day (selectionDay s) Hday Hs).
        rewrite E, ltb_irrefl in H1. rewrite E, ltb_irrefl in H2.
        destruct (Z.ltb_spec (selectionDay s) day), (Z.ltb_spec day (selectionDay s));
          try discriminate; lia. }
      rewrite E. rewrite andb_true_r.
      destruct (JS.eqb (snd s) language && (selectionDay s =? day));
        cbn [List.length]; [f_equal|]; exact IH.
    + rewrite andb_false_r. exact IH.
  - intros language.
    assert (Hkey : In language (map fst ls') <-> totalCountOf ls' language <> 0).
    { unfold totalCountOf. destruct (JS.get language ls') as [st|] eqn:G.
      - split; [|intros _; eapply get_Some_key; exact G].
        intros _. apply get_In in G. rewrite Forall_forall in Hnz. apply (Hnz _ G).
      - split; [|congruence]. intros H. apply get_None in G. contradiction. }
    rewrite Hkey, Htotal. clear.
    induction all as [|s l IH].
    + simpl. split; [congruence | intros (s & [] & _)].
    + cbn [filter]. destruct (recordedFor language s && (cut <=? selectionDay s)) eqn:E.
      * split; [|cbn [List.length]; lia]. intros _. exists s.
        apply andb_true_iff in E. destruct E as [E1 E2]. apply Z.leb_le in E2.
        split; [left; reflexivity | auto].
      * rewrite IH. split.
        -- intros (s' & H1 & H2). exists s'. split; [right; exact H1 | exact H2].
        -- intros (s' & [->|H1] & H2 & H3); [|exists s'; auto].
           rewrite H2 in E. simpl in E. apply Z.leb_gt in E. lia.
Qed.

Lemma totals_count_selections_in_window_witness :
  let p := onload None None in
  let all := sampleSelections ++ [sampleLastSelection] in
  let cut := pruneClock sampleLastSelection / JS.msPerDay - frequencyDaysRange (config p) in
  totalCountOf (languages (statistics (run (map selectionEvent all) p))) (js "go")
  = Z.of_nat (List.length
                (filter (fun s => recordedFor (js "go") s && (cut <=? selectionDay s)) all)).
Proof.
  intros p all cut.
  refine (proj1 (totals_count_selections_in_window p sampleSelections sampleLastSelection
                   eq_refl _ _ _) (js "go")).
  - repeat (apply Forall_cons; [reflexivity|]). apply Forall_nil.
  - repeat (apply Forall_cons; [vm_compute; repeat split; discriminate|]). apply Forall_nil.
  - repeat (apply SSorted_cons; [|repeat (apply Forall_cons; [vm_compute; discriminate|]);
                                  apply Forall_nil]).
    apply SSorted_nil.
Defined.

(** On the sample the window of 30 days before the last event holds one
    of the two selections of [go]. *)
Example sampleSelections_totals :
  map (fun e => (fst e, totalCount (snd e)))
    (languages (statistics (run (map selectionEvent (sampleSelections ++ [sampleLastSelection]))
                              (onload None None))))
  = [(js "go", 1); (js "c", 1)].
Proof. vm_compute. reflexivity. Qed.

(** X13.  [getCurrentDateString] raises exactly for an invalid time
    value.  For clock readings in the years 0000 to 9999 it gives a
    string of ten code units; two readings get the same string exactly
    when they fall on the same UTC day, and the strings compare as the
    days do.  So the selections of one UTC day share one logEntry of
    [dates], and no other selection does. *)
Theorem getCurrentDateString_names_the_day :
  (forall t, getCurrentDateString t = None <-> JS.validTime t = false)
  /\ (forall a b,
        fourDigitYear (a / JS.msPerDay) -> fourDigitYear (b / JS.msPerDay) ->
        exists da db,
          getCurrentDateString a = Some da /\ getCurrentDateString b = Some db
          /\ List.length da = 10%nat
          /\ (da = db <-> a / JS.msPerDay = b / JS.msPerDay)
          /\ (JS.ltb da db = true <-> a / JS.msPerDay < b / JS.msPerDay)).
Proof.
  split.
  - intros t. unfold getCurrentDateString, JS.toISODateString.
    destruct (JS.validTime t); split; congruence.
  - intros a b Ha Hb. exists (JS.isoDate (a / JS.msPerDay)), (JS.isoDate (b / JS.msPerDay)).
    unfold getCurrentDateString, JS.toISODateString.
    rewrite (fourDigitYear_valid a Ha), (fourDigitYear_valid b Hb).
    split; [reflexivity|]. split; [reflexivity|].
    split; [apply isoDate_length, Ha|]. split.
    + split; [apply isoDate_injective; assumption | intros ->; reflexivity].
    + rewrite isoDate_ltb by assumption. apply Z.ltb_lt.
Qed.

Lemma getCurrentDateString_names_the_day_witness :
  exists da db,
    getCurrentDateString sampleNow = Some da
    /\ getCurrentDateString (sampleNow + JS.msPerDay - 1) = Some db
    /\ da = db.
Proof.
  destruct (proj2 getCurrentDateString_names_the_day sampleNow (sampleNow + JS.msPerDay - 1))
    as (da & db & H1 & H2 & _ & H3 & _).
  - vm_compute. split; discriminate.
  - vm_compute. split; discriminate.
  - exists da, db. split; [exact H1|]. split; [exact H2|]. apply H3. reflexivity.
Defined.

(** X14.  [updateFrequencyOrder] ranks languages of equal total in the
    order of [Object.keys]: names that are array indices first, in
    numeric order, then the others in the order in which they were first
    recorded.  The ranking lists every tracked language, once when the
    keys are distinct. *)
Theorem frequencyOrder_ties_keep_key_order (p : Plugin) :
  let ls := languages (statistics p) in
  let order := frequencyOrder (statistics (updateFrequencyOrder p)) in
  (forall n, filter (fun l => totalCountOf ls l =? n) order
             = filter (fun l => totalCountOf ls l =? n) (JS.keys ls))
  /\ (forall l, In l order <-> In l (map fst ls))
  /\ (NoDup (map fst ls) -> NoDup order).
Proof.
  intros ls order. split; [|split].
  - intros n. unfold order, updateFrequencyOrder. cbn [statistics withStatistics frequencyOrder].
    apply sortWith_stable. intros x y _ _ Hx Hy.
    apply Z.eqb_eq in Hx, Hy. fold ls. lia.
  - intros l. unfold order. split; apply Permutation_in;
      [apply updateFrequencyOrder_perm | apply Permutation_sym, updateFrequencyOrder_perm].
  - intros H. eapply Permutation_NoDup;
      [apply Permutation_sym, updateFrequencyOrder_perm | exact H].
Qed.

Lemma frequencyOrder_ties_keep_key_order_witness :
  NoDup (frequencyOrder (statistics (updateFrequencyOrder samplePruning))).
Proof.
  apply (frequencyOrder_ties_keep_key_order samplePruning).
  apply samplePruning_wellFormed.
Defined.

(** A later selection of a language with as many uses does not overtake
    an earlier one, and an array index goes first. *)
Example frequencyOrder_tie_scenario :
  let once := mkLanguageStats 1 [(js "2025-10-25", 1)] in
  frequencyOrder
    (statistics (updateFrequencyOrder
                   (withLanguages [(js "rust", once); (js "go", once); (js "7", once)]
                      (onload None None))))
  = [js "7"; js "rust"; js "go"].
Proof. reflexivity. Qed.

(** X15.  A pruning pass absorbs an earlier one: pruning at one clock
    reading and then at a later one leaves the instance that the later
    pass alone leaves, provided the stored counts are positive.  In
    particular a pass repeated at the same clock reading changes
    nothing. *)
Theorem later_pruning_absorbs_earlier (now1 now2 : Z) (p : Plugin) :
  wellFormed (statistics p) ->
  positiveCounts (statistics p) ->
  fourDigitYear (now1 / JS.msPerDay - frequencyDaysRange (config p)) ->
  fourDigitYear (now2 / JS.msPerDay - frequencyDaysRange (config p)) ->
  now1 <= now2 ->
  exists p1 p2,
    cleanupExpiredStatistics now1 p = Returned p1
    /\ cleanupExpiredStatistics now2 p = Returned p2
    /\ cleanupExpiredStatistics now2 p1 = Returned p2.
Proof.
  intros Hwf Hpos H1 H2 Hle.
  set (w := frequencyDaysRange (config p)) in *.
  assert (Hv : forall now, fourDigitYear (now / JS.msPerDay - w) ->
             cutoffDateString now p = Some (JS.isoDate (now / JS.msPerDay - w))).
  { intros now Hn. unfold cutoffDateString, JS.toISODateString. fold w.
    rewrite fourDigitYear_valid by (rewrite cutoffTime_day; exact Hn).
    rewrite cutoffTime_day. reflexivity. }
  set (c1 := JS.isoDate (now1 / JS.msPerDay - w)).
  set (c2 := JS.isoDate (now2 / JS.msPerDay - w)).
  destruct (cleanupExpiredStatistics_returns now1 p c1 Hwf (Hv now1 H1))
    as (p1 & Hret1 & Hls1 & _ & Hcfg1 & _).
  pose proof (cleanupExpiredStatistics_spec now1 p Hwf) as Hs1.
  rewrite (Hv now1 H1) in Hs1. rewrite Hs1 in Hret1. injection Hret1 as Hp1.
  pose proof (cleanupExpiredStatistics_spec now2 p Hwf) as Hs2.
  rewrite (Hv now2 H2) in Hs2.
  assert (Hwf1 : wellFormed (statistics p1)).
  { apply (cleanupExpiredStatistics_countsConsistent now1 p p1 Hwf). rewrite Hs1, Hp1. reflexivity. }
  pose proof (cleanupExpiredStatistics_spec now2 p1 Hwf1) as Hs12.
  assert (Hc12 : cutoffDateString now2 p1 = Some c2).
  { unfold cutoffDateString. rewrite Hcfg1. exact (Hv now2 H2). }
  rewrite Hc12 in Hs12.
  exists p1, (updateFrequencyOrder (withLanguages (prunedLanguages c2 (languages (statistics p))) p)).
  split; [rewrite Hs1, Hp1; reflexivity|]. split; [exact Hs2|].
  rewrite Hs12, Hls1, prunedLanguages_absorb.
  - rewrite <- Hp1. reflexivity.
  - unfold c1, c2. rewrite isoDate_ltb by assumption. apply Z.ltb_ge.
    apply Z.sub_le_mono_r. apply Z.div_le_mono; [unfold JS.msPerDay; lia | exact Hle].
  - exact Hpos.
Qed.

Lemma later_pruning_absorbs_earlier_witness :
  exists p1 p2,
    cleanupExpiredStatistics (sampleNow - 5 * JS.msPerDay) samplePruning = Returned p1
    /\ cleanupExpiredStatistics sampleNow samplePruning = Returned p2
    /\ cleanupExpiredStatistics sampleNow p1 = Returned p2.
Proof.
  apply (later_pruning_absorbs_earlier (sampleNow - 5 * JS.msPerDay) sampleNow samplePruning).
  - apply samplePruning_wellFormed.
  - unfold positiveCounts. simpl. repeat constructor.
  - vm_compute. split; discriminate.
  - vm_compute. split; discriminate.
  - vm_compute. discriminate.
Defined.
